(* ===== verification/_CoqProject ===== *)
-Q . S2P
Prelude.v
PyLib.v
Getopt.v
Volume.v
IndexSelector.v
Scorer.v
MatchSession.v
PyIO.v
PyMatch.v
Cli.v
