(* ===== verification/Prelude.v ===== *)
(** * A verification library for pyMatch (MRtools template matching)

    The program.  [src/pyMatch.py] is a Python 2 script that matches a
    list of component images, per subject folder, against one template
    image.  [main] parses the options ([-t] template, [-s] subject list,
    [-i] component list, [-o] output folder, [-h]), reads the two
    single-column lists ([readInput]), keeps the component paths that
    exist ([checkInput], exit 32 when none), loads the template through
    MRtools [Data], creates the report through the [pyMatchRes] class
    ([setPath], [writeHeader]), builds an MRtools [Match] object whose
    index set is the template's voxels with value [> 0] in millimetres
    (lines 181-183), and then, subject by subject, loads every
    component, adds it to the object, computes [matchOverlapMatrix],
    appends one line [<path>\t<score>] per entry with [addResult] and
    resets the object (lines 201-266).  MRtools is not part of [src/]:
    its [Data] and [Match] classes are modelled from the spec (sections
    4.1 to 4.3) and marked spec_modelled in the manifest.

    Files, in dependency order:
    - [Prelude] (this file): the [mr_scope] notations; the state and
      exception monad [stexn] the Python code is written in (a Python
      exception does not roll back what was written or printed, so the
      state is kept on both outcomes); the stepping tactics [st_ret],
      [st_get], [st_run], [st_apply]; frame conditions [stable] with the
      [stable] hint database and [solve_stable]; [preserves R], a computation that moves the
      state only along a preorder [R], with [solve_preserves];
      [raises_only], which exceptions a
      computation can end with, with the [raises] hint database and
      [solve_raises]; [sumZ] and the generic lemmas on sums,
      permutations and lists.
    - [PyLib]: the CPython built-ins the script calls: [str.rstrip],
      iteration over the lines of a file ([py_lines]),
      [os.path.basename], [os.path.splitext], [str()] of an integer,
      [+] on strings and lists with its [TypeError], the exceptions, and
      the [dict] (an association list updated in place) whose iteration
      order is a [DictOrder]: any permutation of its items.  These are
      models of the Python library, not of [src/], and are not in the
      manifest's map.
    - [Getopt]: [getopt.getopt] of CPython 2.7 ([getopt.py], outside
      [src/]): [do_shorts], [do_longs] with unique-prefix matching of
      long names, and its [while] loop [getopt_loop] on fuel, with the
      lemmas that any fuel at least the number of arguments gives the
      same result, and how one pass reads [--name=value] and
      [--name value] ([do_longs_attached], [do_longs_separate]).
    - [Volume]: the Image Provider (spec 2, 3): 3D volumes as flat lists
      in C order, images as lists of timepoints, the timepoint fallback
      [resolve3D], [load_data] for [MRtools.Data(path, '3D')], and the
      voxel/millimetre affine as the classes [AffineSpace] and
      [AffineSpaceLaws] (the interface the selector and scorer are
      proved against), implemented by axis-aligned integer affines.
    - [IndexSelector]: [genIndexMNI] (spec 4.1): the one-pass selection
      over the flat data ([select_flat]) proved equal to the nested
      [i, j, k] filter ([select_ref]), sound, complete, duplicate free
      and in increasing data order.
    - [Scorer]: [matchOverlap] (spec 4.2): the accumulator loop equals the
      direct sum, is invariant under permutations of the index set (a
      [Proper] instance for [≡ₚ]), and is linear in the candidate.
    - [MatchSession]: the [Match] object (spec 4.3): [Match_init],
      [setIndexCrit], [genIndex], [addComp], [reset],
      [matchOverlapMatrix]; the session machine [sstep] (Idle, Loaded,
      Accumulating, Scored) with its invariant [sess_inv] proved by rule
      induction; [fresh_scores], the abstract per-subject scoring;
      [match_equiv], objects equal up to the order of the index set,
      with the [Proper] instances of the methods.
    - [PyIO]: lines 51-137: the [world] (readable text files, existing
      paths, loadable images, working directory, unwritable paths,
      written files, printed lines), the Python primitives over it
      ([py_print], [py_exit], [py_open_write], [py_write], [get_var],
      [mr_Data]), the class [pyMatchRes] ([setPath], [getFullPath],
      [getImPath], [writeHeader], [addResult], [addImages]),
      [readInput] and [checkInput].
    - [PyMatch]: lines 140-266: the option loop ([opt_assign],
      [opt_step]), the template work ([template_work]), the subject loop
      ([load_comp], [write_score], [subject_body], [score_subjects]),
      the docstring [pm_doc] that [usage] prints, [main] (from the option list [getopt] returns, [None] for a
      [GetoptError]), and the scenario of spec 8 on which the witnesses
      run.
    - [Cli]: lines 141-146 and 268-269: the call
      [getopt.getopt(argv, "ht:s:i:o:", [...])] as [parse_args] and the
      entry point [script argv = main (parse_args argv)].

    What the theorems show (claim ids in the doc comments).
    - The report is never filled: [main] always calls [writeHeader]
      with a list, whose [+ "\n"] raises [TypeError] inside the [try];
      the bare [except] prints and calls [sys.exit()], so every run ends
      in an exception and leaves every file it wrote empty (C1, C2, C9).
    - The exits of [main], each by its exact outcome: [-h] (C16), a
      value option left without its value (C17, status 2, through
      [getopt]), an unreadable list (C12), no component
      found (C5, status 32), a template MRtools cannot load (C11), no
      [-o] (C10, an [UnboundLocalError]), the header (C9, status 0).
    - The inputs: the option loop keeps the last value of each option
      (C15); [readInput] reads back a list written one entry per line
      (C20); [checkInput]'s exit condition and its dict (C4, C22); the
      report path (C21).
    - The template work selects exactly the positive voxels, as the
      nested loops would, without duplicates and in data order (C6, C7,
      C8); the score of a component is the direct sum over them (C14),
      so a copy scaled by [k > 1] outscores the template (C24).
    - The subject loop refines fresh per-subject scoring (C3), drives
      the object along the session machine of spec 4.3 (C18), leaks no
      candidate across subjects (C19), and stops at the first candidate
      that fails to load (C13); each score becomes the line
      [<path>\t<score>] (C25).
    - Where the code and the spec part: exit status 0 on fatal errors
      (C9, C12, C13), no default for [-o] (C10), one file filed under
      two subjects (C23), a scaled copy outscoring the template (C24).
    - The command line: short value options parse back to themselves
      (C26), and so does every long spelling: any non-empty prefix of
      the name, the value after ['='] or as the next argument (C30); an
      unknown option prints the usage and exits 2 (C27); parsing stops
      at the first operand, silently dropping the options after it
      (C28), and a command line left without [-s] ends in
      [UnboundLocalError] before anything is read (C29).
    - Bounds and types: the script's exit status is always 0, 1, 2 or
      32 (C31, from [raises_only] over all of [main]); [readInput]
      returns names with no newline and no trailing whitespace (C32);
      a score is bounded by the number of positive template voxels
      times a bound on the component's values (C33).
    - On every object [pyMatchRes(...)] builds, [getImPath] and
      [addImages] raise [AttributeError]: [__init__] never assigns
      [self.imagepath] (C34).
    - Liveness and the files written: once the template work has loaded
      a template, from every state the [Match] object's life cycle
      reaches it can still score any components afresh (C35); whatever
      the command line, the script creates no file but its
      [_beststats.txt] report (C36, from [preserves] over all of
      [main]), where the docstring also announces a [_bestcomps.txt].

    Modelling choices.  Voxel values and scores are integers ([Z]), so
    the scorer's sums are exact; floating point is not modelled.  The
    two [iteritems] loops run over a [DictOrder], and every general
    theorem holds for every order; the witnesses use insertion order.
    No loop of [src/pyMatch.py] is unbounded (each walks a finite
    list), so its definitions are structural and compute; the witnesses
    run [main] and [script] themselves by [vm_compute].  The one loop
    that is not structural is [getopt]'s [while args and ...], which
    consumes one or two arguments per pass: [getopt] runs it with fuel
    equal to the number of arguments, which is enough since every pass
    consumes at least one ([getopt_fuel_eq]).

    Not modelled: image decoding (an image is a record of the world),
    the module variables [__author__], [__version__], [__date__] and
    [__license__] (never read), the imports, the unused locals [matrix] and
    [rowLabels] of [main] (no observable effect), GNU-style option
    permutation ([getopt.gnu_getopt] is not called), and the
    interleaving of standard output with the files beyond the order of
    the printed lines.
*)

From stdpp Require Export base list gmap strings.
From Stdlib Require Export ZArith Lia.

Declare Scope mr_scope.
Delimit Scope mr_scope with mr.
Open Scope Z_scope.

(** ** Outcomes and the state/exception monad *)

Inductive outcome (E A : Type) : Type :=
| Ok (a : A)
| Raise (e : E).
Arguments Ok {E A} a.
Arguments Raise {E A} e.

Definition stexn (S E A : Type) : Type := S -> outcome E A * S.

Section StExn.
Context {S E : Type}.

Definition sret {A} (a : A) : stexn S E A := fun s => (Ok a, s).

Definition sbind {A B} (m : stexn S E A) (k : A -> stexn S E B) : stexn S E B :=
  fun s => match m s with
           | (Ok a, s') => k a s'
           | (Raise e, s') => (Raise e, s')
           end.

Definition sthrow {A} (e : E) : stexn S E A := fun s => (Raise e, s).

Definition sget : stexn S E S := fun s => (Ok s, s).

Definition smodify (f : S -> S) : stexn S E unit := fun s => (Ok tt, f s).

(** [try: m except: h]: the handler runs in the state the failure left. *)
Definition stry {A} (m : stexn S E A) (h : E -> stexn S E A) : stexn S E A :=
  fun s => match m s with
           | (Raise e, s') => h e s'
           | r => r
           end.

(** A Python [for] loop whose body is a statement. *)
Fixpoint sfor {X} (l : list X) (body : X -> stexn S E unit) : stexn S E unit :=
  match l with
  | [] => sret tt
  | x :: l' => sbind (body x) (fun _ => sfor l' body)
  end.

(** A Python [for] loop that updates local variables [acc]. *)
Fixpoint sfold {X Acc} (l : list X) (f : Acc -> X -> stexn S E Acc) (a : Acc) :
    stexn S E Acc :=
  match l with
  | [] => sret a
  | x :: l' => sbind (f a x) (fun a' => sfold l' f a')
  end.
End StExn.

Notation "x <- m ;; k" := (sbind m (fun x => k))
  (at level 100, m at next level, right associativity) : mr_scope.
Notation "m ;;; k" := (sbind m (fun _ => k))
  (at level 100, right associativity) : mr_scope.

(** ** Sums over lists of integers *)

Definition sumZ (l : list Z) : Z := foldr Z.add 0 l.

(** ** Hint databases and tactics of the library *)

Create HintDb mr discriminated.
Create Rewrite HintDb mr_rw.

Ltac invc H := inversion H; subst; clear H.

(** Unfold the monad's plumbing in a goal about a concrete program. *)
Ltac st_unfold := unfold sbind, sret, sthrow, sget, smodify, stry in *.

(** ** Lemmas on the monad *)

Section StExnLaws.
Context {S E : Type}.

Lemma sbind_ret_l {A B} (a : A) (k : A -> stexn S E B) s :
  sbind (sret a) k s = k a s.
Proof. reflexivity. Qed.

Lemma sbind_throw {A B} (e : E) (k : A -> stexn S E B) s :
  sbind (sthrow e) k s = (Raise e, s).
Proof. reflexivity. Qed.

Lemma sbind_ok {A B} (m : stexn S E A) (k : A -> stexn S E B) s a s' :
  m s = (Ok a, s') -> sbind m k s = k a s'.
Proof. unfold sbind. by intros ->. Qed.

Lemma sbind_get {B} (k : S -> stexn S E B) s : sbind sget k s = k s s.
Proof. reflexivity. Qed.

Lemma sbind_raise {A B} (m : stexn S E A) (k : A -> stexn S E B) s e s' :
  m s = (Raise e, s') -> sbind m k s = (Raise e, s').
Proof. unfold sbind. by intros ->. Qed.

Lemma sbind_assoc {A B C} (m : stexn S E A) (k : A -> stexn S E B)
      (k' : B -> stexn S E C) s :
  sbind (sbind m k) k' s = sbind m (fun a => sbind (k a) k') s.
Proof. unfold sbind. destruct (m s) as [[a|e] s']; reflexivity. Qed.

Lemma sfor_app {X} (l1 l2 : list X) (body : X -> stexn S E unit) s :
  sfor (l1 ++ l2) body s = sbind (sfor l1 body) (fun _ => sfor l2 body) s.
Proof.
  revert s. induction l1 as [|x l1 IH]; intros s; cbn [sfor app]; [reflexivity|].
  rewrite sbind_assoc. unfold sbind at 1 2.
  destruct (body x s) as [[[]|e] s']; [apply IH|reflexivity].
Qed.

(** A loop whose every step succeeds and keeps an invariant succeeds and
    keeps it. *)
Lemma sfor_invariant {X} (P : S -> Prop) (l : list X) (body : X -> stexn S E unit) s :
  P s ->
  (forall x s, x ∈ l -> P s -> exists s', body x s = (Ok tt, s') /\ P s') ->
  exists s', sfor l body s = (Ok tt, s') /\ P s'.
Proof.
  revert s. induction l as [|x l IH]; intros s Hs Hb; simpl; [eauto|].
  destruct (Hb x s) as (s' & Hx & Hs'); [set_solver|done|].
  unfold sbind. rewrite Hx. apply IH; [done|].
  intros y t Hy. apply Hb. set_solver.
Qed.
Lemma sfold_app {X Acc} (l1 l2 : list X) (f : Acc -> X -> stexn S E Acc) a s :
  sfold (l1 ++ l2) f a s = sbind (sfold l1 f a) (fun a' => sfold l2 f a') s.
Proof.
  revert a s. induction l1 as [|x l1 IH]; intros a s; cbn [sfold app]; [reflexivity|].
  rewrite sbind_assoc. unfold sbind at 1 2.
  destruct (f a x s) as [[a'|e] s']; [apply IH|reflexivity].
Qed.

(** A fold whose steps neither fail nor touch the state computes
    [fold_left]. *)
Lemma sfold_pure {X Acc} (l : list X) (f : Acc -> X -> stexn S E Acc)
      (g : Acc -> X -> Acc) a s :
  (forall a x, x ∈ l -> f a x s = (Ok (g a x), s)) ->
  sfold l f a s = (Ok (fold_left g l a), s).
Proof.
  revert a. induction l as [|x l IH]; intros a Hf; simpl; [done|].
  unfold sbind. rewrite Hf by set_solver. apply IH. intros. apply Hf. set_solver.
Qed.
End StExnLaws.

#[export] Hint Rewrite @sbind_ret_l @sbind_throw @sbind_assoc : mr_rw.

(** Step through a program: [st_run H] runs its first statement [m] in
    state [s] by the outcome [H : m s = (o, s')], [st_ret] runs a first
    statement [sret a].  The continuation is named before rewriting, as
    [rewrite] does not abstract a large continuation in place. *)
Ltac st_run H :=
  lazymatch type of H with
  | ?m _ = _ =>
      lazymatch goal with
      | |- context [sbind m ?k ?s] =>
          let K := fresh "K" in
          set (K := k);
          first [ rewrite (sbind_ok m K s _ _ H) | rewrite (sbind_raise m K s _ _ H) ];
          subst K; cbv beta
      end
  end.

Ltac st_ret :=
  lazymatch goal with
  | |- context [sbind (sret ?a) ?k ?s] =>
      let K := fresh "K" in
      set (K := k); rewrite (sbind_ret_l a K s); subst K; cbv beta
  end.

Ltac st_get :=
  lazymatch goal with
  | |- context [sbind sget ?k ?s] =>
      let K := fresh "K" in
      set (K := k); rewrite (sbind_get K s); subst K; cbv beta
  end.

(** [st_apply L tac] runs the first statement of the program in the goal
    by [L s], a lemma taken at the state [s] the statement runs in, each
    of whose premises [tac] proves. *)
Ltac st_apply L tac :=
  lazymatch goal with
  | |- context [sbind _ _ ?s] =>
      let H := fresh "Hrun" in pose proof (L s) as H;
      repeat lazymatch type of H with
             | ?P -> _ => let Hp := fresh in assert (Hp : P) by tac; specialize (H Hp); clear Hp
             end;
      st_run H; clear H
  end.

(** ** Frame conditions: what a computation leaves unchanged *)

Section Stable.
Context {S E T : Type} (proj : S -> T).

(** [m] never changes [proj] of the state, whether it returns or raises. *)
Definition stable {A} (m : stexn S E A) : Prop := forall s, proj (snd (m s)) = proj s.

Lemma stable_ret {A} (a : A) : stable (sret a).
Proof. done. Qed.

Lemma stable_throw {A} (e : E) : stable (A:=A) (sthrow e).
Proof. done. Qed.

Lemma stable_get : stable sget.
Proof. done. Qed.

Lemma stable_modify (f : S -> S) : (forall s, proj (f s) = proj s) -> stable (smodify f).
Proof. intros H s. apply H. Qed.

Lemma stable_bind {A B} (m : stexn S E A) (k : A -> stexn S E B) :
  stable m -> (forall a, stable (k a)) -> stable (sbind m k).
Proof.
  intros Hm Hk s. unfold sbind. specialize (Hm s).
  destruct (m s) as [[a|e] s']; simpl in *; [by rewrite Hk|done].
Qed.

Lemma stable_try {A} (m : stexn S E A) (h : E -> stexn S E A) :
  stable m -> (forall e, stable (h e)) -> stable (stry m h).
Proof.
  intros Hm Hh s. unfold stry. specialize (Hm s).
  destruct (m s) as [[a|e] s']; simpl in *; [done|by rewrite Hh].
Qed.

Lemma stable_sfold {X Acc} (l : list X) (f : Acc -> X -> stexn S E Acc) (a : Acc) :
  (forall a x, stable (f a x)) -> stable (sfold l f a).
Proof.
  intros Hf. revert a. induction l as [|x l IH]; intros a; simpl;
    [apply stable_ret|apply stable_bind; auto].
Qed.

Lemma stable_sfor {X} (l : list X) (body : X -> stexn S E unit) :
  (forall x, stable (body x)) -> stable (sfor l body).
Proof.
  intros Hb. induction l as [|x l IH]; simpl; [apply stable_ret|apply stable_bind; auto].
Qed.

Lemma stable_if {A} (b : bool) (m1 m2 : stexn S E A) :
  stable m1 -> stable m2 -> stable (if b then m1 else m2).
Proof. by destruct b. Qed.
End Stable.

Create HintDb stable discriminated.
#[export] Hint Resolve stable_ret stable_throw stable_get stable_if : stable.

(** Prove a frame condition by following the program's structure. *)
Ltac solve_stable :=
  repeat match goal with
  | |- forall _, _ => intro
  | |- stable _ (sbind _ _) => apply stable_bind
  | |- stable _ (stry _ _) => apply stable_try
  | |- stable _ (sfold _ _ _) => apply stable_sfold
  | |- stable _ (sfor _ _) => apply stable_sfor
  | |- stable _ (if _ then _ else _) => apply stable_if
  | |- stable _ (match ?x with _ => _ end) => destruct x
  | |- stable _ (let '(_, _) := ?x in _) => destruct x
  | |- _ => solve [eauto with stable]
  end.

(** ** Which exceptions escape

    [raises_only P m]: every exception [m] lets escape satisfies [P].  An
    exception a [stry] catches does not escape, so [stry m h] needs the
    property of the handler only. *)

Create HintDb raises discriminated.

Section RaisesOnly.
Context {S E : Type} (P : E -> Prop).

Definition raises_only {A} (m : stexn S E A) : Prop :=
  forall s e, fst (m s) = Raise e -> P e.

Lemma raises_ret {A} (a : A) : raises_only (sret a).
Proof. by intros s e. Qed.

Lemma raises_throw {A} (e : E) : P e -> raises_only (A:=A) (sthrow e).
Proof. by intros He s e' [= <-]. Qed.

Lemma raises_get : raises_only sget.
Proof. by intros s e. Qed.

Lemma raises_modify (f : S -> S) : raises_only (smodify f).
Proof. by intros s e. Qed.

Lemma raises_bind {A B} (m : stexn S E A) (k : A -> stexn S E B) :
  raises_only m -> (forall a, raises_only (k a)) -> raises_only (sbind m k).
Proof.
  intros Hm Hk s e. unfold sbind. specialize (Hm s).
  destruct (m s) as [[a|e'] s']; simpl in *; [apply Hk|intros [= <-]; by apply Hm].
Qed.

Lemma raises_try {A} (m : stexn S E A) (h : E -> stexn S E A) :
  (forall e, raises_only (h e)) -> raises_only (stry m h).
Proof.
  intros Hh s e. unfold stry.
  destruct (m s) as [[a|e'] s']; simpl; [done|apply Hh].
Qed.

Lemma raises_sfold {X Acc} (l : list X) (f : Acc -> X -> stexn S E Acc) (a : Acc) :
  (forall a x, raises_only (f a x)) -> raises_only (sfold l f a).
Proof.
  intros Hf. revert a. induction l as [|x l IH]; intros a; simpl;
    [apply raises_ret|apply raises_bind; auto].
Qed.

Lemma raises_sfor {X} (l : list X) (body : X -> stexn S E unit) :
  (forall x, raises_only (body x)) -> raises_only (sfor l body).
Proof.
  intros Hb. induction l as [|x l IH]; simpl; [apply raises_ret|apply raises_bind; auto].
Qed.
End RaisesOnly.

#[export] Hint Resolve raises_ret raises_get raises_modify : raises.

Ltac solve_raises :=
  repeat match goal with
  | |- forall _, _ => intro
  | |- raises_only _ (sbind _ _) => apply raises_bind
  | |- raises_only _ (stry _ _) => apply raises_try
  | |- raises_only _ (sfold _ _ _) => apply raises_sfold
  | |- raises_only _ (sfor _ _) => apply raises_sfor
  | |- raises_only _ (sthrow _) => apply raises_throw
  | |- raises_only _ (if _ then _ else _) => case_match
  | |- raises_only _ (match ?x with _ => _ end) => destruct x
  | |- raises_only _ (let '(_, _) := ?x in _) => destruct x
  | |- _ => solve [eauto with raises]
  end.

(** ** Monotone effects

    [preserves R m]: whether [m] returns or raises, the state it leaves is
    related to the state it started from by the preorder [R] (a file
    system that only grows within a set of paths, say).  [R]'s
    reflexivity covers the computations that do not touch the state, its
    transitivity their composition. *)

Create HintDb preserves discriminated.

Section Preserves.
Context {S E : Type} (R : S -> S -> Prop) `{!PreOrder R}.

Definition preserves {A} (m : stexn S E A) : Prop := forall s, R s (snd (m s)).

Lemma preserves_ret {A} (a : A) : preserves (sret a).
Proof. intros s. reflexivity. Qed.

Lemma preserves_throw {A} (e : E) : preserves (A:=A) (sthrow e).
Proof. intros s. reflexivity. Qed.

Lemma preserves_get : preserves sget.
Proof. intros s. reflexivity. Qed.

(** A frame condition on a projection [R] only looks at gives [preserves]. *)
Lemma preserves_stable {T A} (proj : S -> T) (m : stexn S E A) :
  (forall s s', proj s' = proj s -> R s s') -> stable proj m -> preserves m.
Proof. intros HR Hm s. apply HR, Hm. Qed.

Lemma preserves_bind {A B} (m : stexn S E A) (k : A -> stexn S E B) :
  preserves m -> (forall a, preserves (k a)) -> preserves (sbind m k).
Proof.
  intros Hm Hk s. unfold sbind. specialize (Hm s).
  destruct (m s) as [[a|e] s']; simpl in *; [by etrans; [|apply Hk]|done].
Qed.

Lemma preserves_try {A} (m : stexn S E A) (h : E -> stexn S E A) :
  preserves m -> (forall e, preserves (h e)) -> preserves (stry m h).
Proof.
  intros Hm Hh s. unfold stry. specialize (Hm s).
  destruct (m s) as [[a|e] s']; simpl in *; [done|by etrans; [|apply Hh]].
Qed.

Lemma preserves_sfold {X Acc} (l : list X) (f : Acc -> X -> stexn S E Acc) (a : Acc) :
  (forall a x, preserves (f a x)) -> preserves (sfold l f a).
Proof.
  intros Hf. revert a. induction l as [|x l IH]; intros a; simpl;
    [apply preserves_ret|apply preserves_bind; auto].
Qed.

Lemma preserves_sfor {X} (l : list X) (body : X -> stexn S E unit) :
  (forall x, preserves (body x)) -> preserves (sfor l body).
Proof.
  intros Hb. induction l as [|x l IH]; simpl; [apply preserves_ret|apply preserves_bind; auto].
Qed.
End Preserves.

#[export] Hint Resolve preserves_ret preserves_throw preserves_get : preserves.

(** Follow the program's structure; the leaves are closed by the
    [preserves] hints, or by a frame condition and [solve_stable]. *)
Ltac solve_preserves :=
  repeat match goal with
  | |- forall _, _ => intro
  | |- PreOrder _ => typeclasses eauto
  | |- preserves _ (sbind _ _) => apply preserves_bind
  | |- preserves _ (stry _ _) => apply preserves_try
  | |- preserves _ (sfold _ _ _) => apply preserves_sfold
  | |- preserves _ (sfor _ _) => apply preserves_sfor
  | |- preserves _ (if _ then _ else _) => case_match
  | |- preserves _ (match ?x with _ => _ end) => destruct x
  | |- preserves _ (let '(_, _) := ?x in _) => destruct x
  | |- _ => solve [eauto with preserves]
  end.

(** ** Lemmas on [sumZ] *)

Lemma sumZ_cons (x : Z) (l : list Z) : sumZ (x :: l) = x + sumZ l.
Proof. reflexivity. Qed.

Lemma sumZ_app (l1 l2 : list Z) : sumZ (l1 ++ l2) = sumZ l1 + sumZ l2.
Proof. induction l1; simpl; [lia|]. unfold sumZ in *. simpl. lia. Qed.

#[export] Instance sumZ_perm_proper : Proper ((≡ₚ) ==> eq) sumZ.
Proof.
  intros l1 l2 Hp. induction Hp; unfold sumZ in *; simpl; lia.
Qed.

(** The accumulator loop [acc = a; for x in l: acc += g(x)] computes the sum. *)
Lemma fold_left_add_sumZ {X} (g : X -> Z) (l : list X) (a : Z) :
  fold_left (fun acc x => acc + g x) l a = a + sumZ (map g l).
Proof.
  revert a. induction l as [|x l IH]; intros a; simpl; [lia|].
  rewrite IH. unfold sumZ. simpl. lia.
Qed.

Lemma sumZ_map_nonneg {X} (f : X -> Z) (l : list X) :
  (forall x, x ∈ l -> 0 <= f x) -> 0 <= sumZ (map f l).
Proof.
  induction l as [|x l IH]; intros H; simpl; [unfold sumZ; simpl; lia|].
  unfold sumZ in *; simpl.
  assert (0 <= f x) by (apply H; set_solver).
  assert (0 <= foldr Z.add 0 (map f l)) by (apply IH; intros; apply H; set_solver).
  lia.
Qed.

(** A sum of non-negative terms is zero exactly when every term is. *)
Lemma sumZ_map_zero {X} (f : X -> Z) (l : list X) :
  (forall x, x ∈ l -> 0 <= f x) -> sumZ (map f l) = 0 <-> (forall x, x ∈ l -> f x = 0).
Proof.
  induction l as [|x l IH]; intros H; cbn [map]; [split; [set_solver|done]|].
  rewrite sumZ_cons.
  assert (0 <= f x) by (apply H; set_solver).
  assert (0 <= sumZ (map f l)) by (apply sumZ_map_nonneg; intros; apply H; set_solver).
  split.
  - intros Hs y Hy. apply elem_of_cons in Hy as [->|Hy]; [lia|].
    apply IH; [intros; apply H; set_solver|lia|done].
  - intros Hz. rewrite Hz by set_solver. rewrite (proj2 (IH ltac:(intros; apply H; set_solver))).
    + done.
    + intros y Hy. apply Hz. set_solver.
Qed.

(** A sum of non-negative terms with a positive term is positive. *)
Lemma sumZ_map_pos {X} (f : X -> Z) (l : list X) (x : X) :
  (forall y, y ∈ l -> 0 <= f y) -> x ∈ l -> 0 < f x -> 0 < sumZ (map f l).
Proof.
  intros H Hx Hf. pose proof (sumZ_map_nonneg f l H).
  destruct (decide (sumZ (map f l) = 0)) as [E|]; [|lia].
  pose proof (proj1 (sumZ_map_zero f l H) E x Hx). lia.
Qed.

Lemma sumZ_map_le {X} (f g : X -> Z) (l : list X) :
  (forall x, x ∈ l -> f x <= g x) -> sumZ (map f l) <= sumZ (map g l).
Proof.
  induction l as [|x l IH]; intros H; simpl; [unfold sumZ; simpl; lia|].
  unfold sumZ in *; simpl.
  assert (f x <= g x) by (apply H; set_solver).
  assert (foldr Z.add 0 (map f l) <= foldr Z.add 0 (map g l))
    by (apply IH; intros; apply H; set_solver).
  lia.
Qed.

Lemma sumZ_map_abs {X} (f : X -> Z) (l : list X) :
  Z.abs (sumZ (map f l)) <= sumZ (map (fun x => Z.abs (f x)) l).
Proof.
  induction l as [|x l IH]; unfold sumZ in *; simpl; lia.
Qed.

Lemma sumZ_map_scale {X} (c : Z) (f : X -> Z) (l : list X) :
  sumZ (map (fun x => c * f x) l) = c * sumZ (map f l).
Proof. induction l as [|x l IH]; unfold sumZ in *; simpl; lia. Qed.

Lemma sumZ_map_ext_in {X} (f g : X -> Z) (l : list X) :
  (forall x, x ∈ l -> f x = g x) -> sumZ (map f l) = sumZ (map g l).
Proof.
  intros H. f_equal. apply list_fmap_ext. intros i x Hi. apply H.
  by eapply list_elem_of_lookup_2.
Qed.

#[export] Hint Rewrite sumZ_cons sumZ_app @sumZ_map_scale : mr_rw.
#[export] Hint Resolve sumZ_map_nonneg sumZ_map_le sumZ_map_abs : mr.

Lemma sumZ_map_const {X} (c : Z) (l : list X) : sumZ (map (fun _ => c) l) = Z.of_nat (length l) * c.
Proof. induction l as [|x l IH]; unfold sumZ in *; simpl; [lia|rewrite IH; lia]. Qed.

(** ** Lists *)

Lemma last_app_pair {A} (l : list A) (a b : A) : last (l ++ [a; b]) = Some b.
Proof. change [a; b] with ([a] ++ [b]). by rewrite app_assoc, last_snoc. Qed.
