(* ===== verification/PyLib.v ===== *)
(** * The Python built-ins pyMatch calls

    Models of the parts of CPython 2 the script relies on, each written
    after CPython's own definition: [str.rstrip] (with and without an
    argument), iteration over the lines of an open text file,
    [os.path.basename] and [os.path.splitext] (posixpath), [str()] of an
    integer, the [+] operator on strings and lists with its [TypeError],
    and [dict] assignment and lookup.  A [dict]'s iteration order is the
    parameter [DictOrder]: any permutation of its items. *)

From S2P Require Import Prelude.
From stdpp Require Import pretty.
From Stdlib Require Import Ascii.

Local Open Scope string_scope.
#[local] Set Warnings "-register-all".

(** ** Characters and [str.rstrip] *)

(** The one-character strings ["\n"] and ["\t"] (Rocq strings have no
    escapes). *)
Definition nl : string := String "010"%char EmptyString.
Definition tab : string := String "009"%char EmptyString.

Definition is_nl (c : Ascii.ascii) : bool := bool_decide (c = "010"%char).

(** Python 2 [str] whitespace: space, [\t], [\n], [\x0b], [\x0c], [\r]. *)
Definition is_py_space (c : Ascii.ascii) : bool :=
  bool_decide (c ∈ ["032"; "009"; "010"; "011"; "012"; "013"]%char).

(** [s.rstrip(chars)]: drop the longest suffix made of characters in [p]. *)
Fixpoint rstrip_by (p : Ascii.ascii -> bool) (s : string) : string :=
  match s with
  | EmptyString => EmptyString
  | String c s' =>
      let r := rstrip_by p s' in
      if bool_decide (r = EmptyString) && p c then EmptyString else String c r
  end.

Definition py_rstrip (s : string) : string := rstrip_by is_py_space s.
Definition py_rstrip_nl (s : string) : string := rstrip_by is_nl s.

(** ** Iterating over a text file: [for line in f] *)

(** The lines of a file's contents, each keeping its ["\n"]; the last line
    lacks it when the file does not end in a newline. *)
Fixpoint py_lines (s : string) : list string :=
  match s with
  | EmptyString => []
  | String c s' =>
      if is_nl c then String c EmptyString :: py_lines s'
      else match py_lines s' with
           | [] => [String c EmptyString]
           | l :: ls => String c l :: ls
           end
  end.

(** ** [os.path.basename] and [os.path.splitext] *)

Fixpoint has_char (c : Ascii.ascii) (s : string) : bool :=
  match s with
  | EmptyString => false
  | String d s' => bool_decide (d = c) || has_char c s'
  end.

(** [p[p.rfind('/')+1:]]. *)
Fixpoint py_basename (s : string) : string :=
  match s with
  | EmptyString => EmptyString
  | String c s' =>
      if has_char "/" s' then py_basename s'
      else if bool_decide (c = "/"%char) then s' else String c s'
  end.

(** [s.rfind(c)], with [None] for CPython's [-1]. *)
Fixpoint py_rfind (c : Ascii.ascii) (s : string) : option nat :=
  match s with
  | EmptyString => None
  | String d s' =>
      match py_rfind c s' with
      | Some i => Some (S i)
      | None => if bool_decide (d = c) then Some 0 else None
      end
  end.

(** Whether [p[i:j]] holds a character other than ['.']: the loop
    [while filenameIndex < dotIndex] of [genericpath._splitext]. *)
Definition has_non_dot (p : string) (i j : nat) : bool :=
  existsb (fun k => match String.get k p with
                    | Some c => negb (bool_decide (c = "."%char))
                    | None => false
                    end) (seq i (j - i)).

(** [genericpath._splitext(p, '/', None, '.')]. *)
Definition py_splitext (p : string) : string * string :=
  let first := match py_rfind "/" p with Some s => S s | None => 0%nat end in
  match py_rfind "." p with
  | Some d =>
      if bool_decide (first <= d)%nat && has_non_dot p first d
      then (String.substring 0 d p, String.substring d (String.length p - d) p)
      else (p, EmptyString)
  | None => (p, EmptyString)
  end.

(** ** Values and the [+] operator *)

(** The Python values the script passes around: strings, lists, integers. *)
Inductive pyval : Type :=
| PStr (s : string)
| PList (l : list pyval)
| PInt (z : Z).

Inductive pyexn : Type :=
| SystemExit (code : option Z)   (** [sys.exit()] or [sys.exit(n)] *)
| TypeError                      (** e.g. [list + str] *)
| NameError (var : string)       (** a local read before assignment *)
| IOError (path : string)        (** [open] failed *)
| MRtoolsError (path : string)   (** an image MRtools cannot load *)
| AttributeError (attr : string). (** an attribute never assigned *)

(** [a + b]: [None] is CPython's [TypeError]. *)
Definition py_add (a b : pyval) : option pyval :=
  match a, b with
  | PStr x, PStr y => Some (PStr (x +:+ y))
  | PList x, PList y => Some (PList (x ++ y))
  | PInt x, PInt y => Some (PInt (x + y))
  | _, _ => None
  end.

(** [str(n)] for an integer. *)
Definition py_str_Z (z : Z) : string := pretty z.

(** ** Dictionaries *)

(** A dict as its list of items, keys without duplicates; [d[k] = v]
    replaces the value of a present key in place and adds a new key. *)
Abbreviation pydict K V := (list (K * V)).


Section Dict.
Context {K V : Type} `{EqDecision K}.

Fixpoint dict_set (k : K) (v : V) (d : pydict K V) : pydict K V :=
  match d with
  | [] => [(k, v)]
  | (k', v') :: d' => if decide (k = k') then (k, v) :: d' else (k', v') :: dict_set k v d'
  end.

Fixpoint dict_get (k : K) (d : pydict K V) : option V :=
  match d with
  | [] => None
  | (k', v') :: d' => if decide (k = k') then Some v' else dict_get k d'
  end.
End Dict.

(** The iteration order of [d.iteritems()]: unspecified in Python 2, but a
    permutation of the items. *)
Class DictOrder : Type := {
  dict_iter : forall {K V : Type}, pydict K V -> pydict K V;
  dict_iter_perm : forall {K V : Type} (d : pydict K V), dict_iter d ≡ₚ d
}.

(** Insertion order (CPython 3.7 and later): the order of the witnesses.
    Not an instance: every theorem takes the order as a parameter. *)
Definition insertion_order : DictOrder :=
  {| dict_iter := fun K V d => d; dict_iter_perm := fun K V d => reflexivity d |}.

(** ** Lemmas *)

(** stdpp makes [String.append] opaque to [simpl]; this is its step. *)
Lemma string_app_cons (c : Ascii.ascii) (s t : string) :
  String c s +:+ t = String c (s +:+ t).
Proof. reflexivity. Qed.

Lemma string_app_nil_l (s : string) : "" +:+ s = s.
Proof. reflexivity. Qed.

#[export] Hint Rewrite string_app_cons string_app_nil_l : mr_rw.

Lemma string_app_nil_r (s : string) : s +:+ "" = s.
Proof. induction s; [done|]. rewrite string_app_cons. congruence. Qed.

Lemma string_app_assoc (a b c : string) : a +:+ (b +:+ c) = (a +:+ b) +:+ c.
Proof. induction a; [done|]. rewrite !string_app_cons. congruence. Qed.

(** Concatenating the lines of a file gives the file back. *)
Lemma py_lines_concat (s : string) : foldr String.append "" (py_lines s) = s.
Proof.
  induction s as [|c s IH]; simpl; [done|].
  destruct (is_nl c); simpl; [by rewrite string_app_cons, IH|].
  destruct (py_lines s) as [|l ls]; simpl in *; subst; by rewrite string_app_cons.
Qed.

(** A line without ["\n"] followed by ["\n"] is one line of the file. *)
Lemma py_lines_line (l rest : string) :
  has_char "010"%char l = false -> py_lines (l +:+ nl +:+ rest) = (l +:+ nl) :: py_lines rest.
Proof.
  induction l as [|c l IH]; intros Hl; [reflexivity|].
  simpl in Hl. apply orb_false_iff in Hl as [Hc Hl].
  rewrite !string_app_cons. simpl. unfold is_nl. rewrite Hc, IH by done. done.
Qed.

Lemma rstrip_by_snoc (p : ascii -> bool) (s : string) (c : ascii) :
  p c = true -> rstrip_by p (s +:+ String c "") = rstrip_by p s.
Proof.
  intros Hc. induction s as [|d s IH].
  - rewrite string_app_nil_l. simpl. by rewrite Hc.
  - rewrite string_app_cons. simpl. by rewrite IH.
Qed.

Lemma py_rstrip_nl_nl (s : string) : py_rstrip_nl (s +:+ nl) = py_rstrip_nl s.
Proof. apply rstrip_by_snoc. reflexivity. Qed.

Lemma py_rstrip_nl_id (l : string) : has_char "010"%char l = false -> py_rstrip_nl l = l.
Proof.
  unfold py_rstrip_nl. induction l as [|c l IH]; intros Hl; [done|].
  simpl in Hl. apply orb_false_iff in Hl as [Hc Hl]. simpl. rewrite IH by done.
  unfold is_nl. rewrite Hc, andb_false_r. done.
Qed.

Lemma rstrip_by_idem (p : ascii -> bool) (s : string) : rstrip_by p (rstrip_by p s) = rstrip_by p s.
Proof.
  induction s as [|c s IH]; [done|]. simpl.
  destruct (bool_decide (rstrip_by p s = "") && p c) eqn:E; [done|].
  simpl. rewrite IH. by rewrite E.
Qed.

Lemma has_char_rstrip (c : ascii) (p : ascii -> bool) (s : string) :
  has_char c s = false -> has_char c (rstrip_by p s) = false.
Proof.
  induction s as [|d s IH]; [done|]. simpl. intros [Hd Hs]%orb_false_iff.
  destruct (_ && _); [done|]. simpl. by rewrite Hd, IH.
Qed.

(** Every line of a file is a text without ["\n"], followed by ["\n"]
    unless it is the last line. *)
Lemma py_lines_shape (c l : string) :
  l ∈ py_lines c ->
  exists s, has_char "010"%char s = false /\ (l = s +:+ nl \/ l = s).
Proof.
  revert l. induction c as [|ch c IH]; intros l Hl; simpl in Hl; [by apply elem_of_nil in Hl|].
  destruct (is_nl ch) eqn:En.
  - apply elem_of_cons in Hl as [->|Hl]; [|by apply IH].
    exists "". split; [done|]. left. unfold nl, is_nl in *. by case_bool_decide; subst.
  - assert (Hch : bool_decide (ch = "010"%char) = false) by exact En.
    destruct (py_lines c) as [|l0 ls] eqn:Ec.
    + apply elem_of_cons in Hl as [->|Hl]; [|by apply elem_of_nil in Hl].
      exists (String ch ""). split; [simpl; by rewrite Hch|by right].
    + apply elem_of_cons in Hl as [->|Hl]; [|apply IH; by right].
      destruct (IH l0 (list_elem_of_here _ _)) as (s & Hs & [->| ->]).
      * exists (String ch s). split; [simpl; by rewrite Hch|left; by rewrite string_app_cons].
      * exists (String ch s). split; [simpl; by rewrite Hch|by right].
Qed.
Lemma has_char_app (c : ascii) (s1 s2 : string) :
  has_char c (s1 +:+ s2) = has_char c s1 || has_char c s2.
Proof.
  induction s1 as [|d s1 IH]; [by rewrite string_app_nil_l|].
  rewrite string_app_cons. simpl. rewrite IH. apply orb_assoc.
Qed.

Lemma py_basename_no_slash (s : string) : has_char "/"%char (py_basename s) = false.
Proof.
  induction s as [|c s IH]; [done|]. simpl.
  destruct (has_char "/" s) eqn:E; [done|].
  case_bool_decide; [done|]. simpl. rewrite E, orb_false_r. by apply bool_decide_eq_false.
Qed.

Lemma substring_full (p : string) : String.substring 0 (String.length p) p = p.
Proof. induction p; simpl; congruence. Qed.

Lemma substring_split (p : string) (d : nat) :
  (d <= String.length p)%nat ->
  String.substring 0 d p +:+ String.substring d (String.length p - d) p = p.
Proof.
  revert d. induction p as [|c p IH]; intros d Hd; simpl in *.
  - destruct d; [done|lia].
  - destruct d as [|d].
    + rewrite Nat.sub_0_r, string_app_nil_l. apply (substring_full (String c p)).
    + simpl. rewrite string_app_cons. f_equal. apply IH. lia.
Qed.

Lemma py_rfind_lt (c : Ascii.ascii) (s : string) (i : nat) :
  py_rfind c s = Some i -> (i < String.length s)%nat.
Proof.
  revert i. induction s as [|d s IH]; intros i H; simpl in *; [done|].
  destruct (py_rfind c s) as [j|] eqn:E.
  - injection H as <-. specialize (IH j eq_refl). lia.
  - case_bool_decide; [injection H as <-; lia|done].
Qed.

(** [splitext] splits: root and extension concatenate to the path. *)
Lemma py_splitext_app (p : string) :
  fst (py_splitext p) +:+ snd (py_splitext p) = p.
Proof.
  unfold py_splitext. destruct (py_rfind "." p) as [d|] eqn:E; simpl.
  - destruct (_ && _); simpl; [|apply string_app_nil_r].
    apply substring_split. apply py_rfind_lt in E. lia.
  - apply string_app_nil_r.
Qed.

Section DictLemmas.
Context {K V : Type} `{EqDecision K}.

Lemma dict_get_set_eq (k : K) (v : V) (d : pydict K V) :
  dict_get k (dict_set k v d) = Some v.
Proof.
  induction d as [|[k' v'] d IH]; simpl; repeat (case_decide; simpl); congruence.
Qed.

Lemma dict_get_set_ne (k k2 : K) (v : V) (d : pydict K V) :
  k <> k2 -> dict_get k2 (dict_set k v d) = dict_get k2 d.
Proof.
  intros Hne. induction d as [|[k' v'] d IH]; simpl;
    repeat (case_decide; simpl); subst; congruence.
Qed.

Lemma dict_set_keys (k : K) (v : V) (d : pydict K V) (x : K) :
  x ∈ (dict_set k v d).*1 <-> x = k \/ x ∈ d.*1.
Proof.
  induction d as [|[k' v'] d IH]; simpl.
  - set_solver.
  - case_decide; subst; simpl; rewrite !elem_of_cons; [tauto|rewrite IH; tauto].
Qed.

Lemma dict_set_nodup (k : K) (v : V) (d : pydict K V) :
  NoDup d.*1 -> NoDup (dict_set k v d).*1.
Proof.
  induction d as [|[k' v'] d IH]; simpl; intros Hnd.
  - constructor; [set_solver|constructor].
  - invc Hnd. case_decide; simpl; constructor; subst; auto.
    rewrite dict_set_keys. naive_solver.
Qed.
End DictLemmas.
