(* ===== verification/Getopt.v ===== *)
(** * Command-line parsing: CPython 2.7's [getopt.getopt]

    [main] starts with
    [opts, args = getopt.getopt(argv, "ht:s:i:o:", ["help", "template=",
    "subs=", "images=", "output="])] (line 142).  This file models the
    library function as CPython 2.7's [Lib/getopt.py] writes it:
    [getopt] loops while the next argument starts with ['-'] and is not
    ['-'] itself, stops after ['--'], and hands each argument to
    [do_longs] ([--name], [--name=value], unique prefixes of a long
    name) or [do_shorts] (a cluster [-abc], [-tvalue], [-t value]).
    [GetoptError] is the [inl] of the result.

    The loop is not structural in the argument list ([-t value] consumes
    two arguments), so [getopt_loop] runs on fuel, and [getopt] gives it
    the number of arguments: [getopt_fuel_eq] shows any fuel at least
    that large gives the same result, so the loop terminates within one
    pass per argument.  The last section shows how one pass reads a long
    option taking a value, attached by ['='] or as the next argument. *)

From S2P Require Import Prelude PyLib.
From Stdlib Require Import Ascii.

Local Open Scope string_scope.

(** ** Strings *)

(** [s.startswith(p)]. *)
Definition startswith (p s : string) : bool := String.prefix p s.

(** [s[n:]]. *)
Definition str_drop (n : nat) (s : string) : string := String.substring n (String.length s - n) s.

(** [s.index(c)], with [None] for the [ValueError]. *)
Fixpoint str_index (c : ascii) (s : string) : option nat :=
  match s with
  | EmptyString => None
  | String d s' => if bool_decide (d = c) then Some 0%nat else S <$> str_index c s'
  end.

(** ** The library *)

(** [GetoptError(msg, opt)]. *)
Record getopt_error : Type := GetoptError { ge_msg : string; ge_opt : string }.

Definition go_opts : Type := list (string * string).

(** [short_has_arg(opt, shortopts)]: whether [opt] takes an argument,
    i.e. is followed by [':'] in [shortopts]. *)
Fixpoint short_has_arg (opt : ascii) (shortopts : string) : getopt_error + bool :=
  match shortopts with
  | EmptyString => inl (GetoptError ("option -" +:+ String opt "" +:+ " not recognized") (String opt ""))
  | String c rest =>
      if bool_decide (opt = c) && negb (bool_decide (c = ":"%char))
      then inr (startswith ":" rest)
      else short_has_arg opt rest
  end.

(** [do_shorts(opts, optstring, shortopts, args)]. *)
Fixpoint do_shorts (opts : go_opts) (optstring shortopts : string) (args : list string) :
    getopt_error + (go_opts * list string) :=
  match optstring with
  | EmptyString => inr (opts, args)
  | String opt rest =>
      match short_has_arg opt shortopts with
      | inl e => inl e
      | inr true =>
          match rest with
          | EmptyString =>
              match args with
              | [] => inl (GetoptError ("option -" +:+ String opt "" +:+ " requires argument")
                                       (String opt ""))
              | a :: args' => inr (app opts [("-" +:+ String opt "", a)], args')
              end
          | _ => inr (app opts [("-" +:+ String opt "", rest)], args)
          end
      | inr false => do_shorts (app opts [("-" +:+ String opt "", "")]) rest shortopts args
      end
  end.

(** [long_has_args(opt, longopts)]: an exact name, or a unique prefix. *)
Definition long_has_args (opt : string) (longopts : list string) : getopt_error + (bool * string) :=
  let possibilities := List.filter (startswith opt) longopts in
  match possibilities with
  | [] => inl (GetoptError ("option --" +:+ opt +:+ " not recognized") opt)
  | unique :: others =>
      if bool_decide (opt ∈ possibilities) then inr (false, opt)
      else if bool_decide ((opt +:+ "=") ∈ possibilities) then inr (true, opt)
      else match others with
           | _ :: _ => inl (GetoptError ("option --" +:+ opt +:+ " not a unique prefix") opt)
           | [] =>
               if String.eqb (str_drop (String.length unique - 1) unique) "="
               then inr (true, String.substring 0 (String.length unique - 1) unique)
               else inr (false, unique)
           end
  end.

(** [do_longs(opts, opt, longopts, args)]. *)
Definition do_longs (opts : go_opts) (opt : string) (longopts : list string) (args : list string) :
    getopt_error + (go_opts * list string) :=
  let '(opt, optarg) :=
    match str_index "=" opt with
    | Some i => (String.substring 0 i opt, Some (str_drop (S i) opt))
    | None => (opt, None)
    end in
  match long_has_args opt longopts with
  | inl e => inl e
  | inr (has_arg, opt) =>
      if has_arg then
        match optarg with
        | Some a => inr (app opts [("--" +:+ opt, a)], args)
        | None =>
            match args with
            | [] => inl (GetoptError ("option --" +:+ opt +:+ " requires argument") opt)
            | a :: args' => inr (app opts [("--" +:+ opt, a)], args')
            end
        end
      else
        match optarg with
        | Some _ => inl (GetoptError ("option --" +:+ opt +:+ " must not have an argument") opt)
        | None => inr (app opts [("--" +:+ opt, "")], args)
        end
  end.

(** The [while] loop of [getopt], one pass per unit of fuel. *)
Fixpoint getopt_loop (fuel : nat) (shortopts : string) (longopts : list string)
    (opts : go_opts) (args : list string) : getopt_error + (go_opts * list string) :=
  match fuel with
  | O => inr (opts, args)
  | S fuel =>
      match args with
      | a :: rest =>
          if startswith "-" a && negb (String.eqb a "-") then
            if String.eqb a "--" then inr (opts, rest)
            else
              let step := if startswith "--" a then do_longs opts (str_drop 2 a) longopts rest
                          else do_shorts opts (str_drop 1 a) shortopts rest in
              match step with
              | inl e => inl e
              | inr (opts', args') => getopt_loop fuel shortopts longopts opts' args'
              end
          else inr (opts, args)
      | [] => inr (opts, [])
      end
  end.

(** [getopt.getopt(args, shortopts, longopts)]. *)
Definition getopt (args : list string) (shortopts : string) (longopts : list string) :
    getopt_error + (go_opts * list string) :=
  getopt_loop (length args) shortopts longopts [] args.

(** ** Termination of the loop *)

Lemma do_shorts_len (opts : go_opts) (s so : string) (args : list string) opts' args' :
  do_shorts opts s so args = inr (opts', args') -> (length args' <= length args)%nat.
Proof.
  revert opts. induction s as [|c s IH]; intros opts; simpl; [intros [= _ <-]; lia|].
  destruct (short_has_arg c so) as [e|[|]]; [discriminate| |apply IH].
  destruct s; [destruct args; [discriminate|intros [= _ <-]; simpl; lia]|intros [= _ <-]; lia].
Qed.

Lemma do_longs_len (opts : go_opts) (o : string) (lo args : list string) opts' args' :
  do_longs opts o lo args = inr (opts', args') -> (length args' <= length args)%nat.
Proof.
  unfold do_longs. destruct (str_index "=" o) as [i|];
    match goal with |- context [long_has_args ?x lo] => destruct (long_has_args x lo) as [e|[[|] o'']] end;
    try destruct args; try discriminate; intros [= _ <-]; simpl; lia.
Qed.

Lemma getopt_fuel_le (f1 f2 : nat) (so : string) (lo : list string) (opts : go_opts)
    (args : list string) :
  (length args <= f1 <= f2)%nat ->
  getopt_loop f1 so lo opts args = getopt_loop f2 so lo opts args.
Proof.
  revert f2 opts args. induction f1 as [|f1 IH]; intros [|f2] opts [|a rest] Hl;
    simpl in *; try lia; try done.
  destruct (_ && _); [|done]. destruct (String.eqb a "--"); [done|].
  destruct (startswith "--" a) eqn:Hd.
  - destruct (do_longs opts _ lo rest) as [e|[o' r']] eqn:E; [done|].
    apply do_longs_len in E. apply IH. lia.
  - destruct (do_shorts opts _ so rest) as [e|[o' r']] eqn:E; [done|].
    apply do_shorts_len in E. apply IH. lia.
Qed.

Lemma getopt_fuel_eq (f1 f2 : nat) (so : string) (lo : list string) (opts : go_opts)
    (args : list string) :
  (length args <= f1)%nat -> (length args <= f2)%nat ->
  getopt_loop f1 so lo opts args = getopt_loop f2 so lo opts args.
Proof.
  intros H1 H2. destruct (Nat.le_ge_cases f1 f2).
  - apply getopt_fuel_le. lia.
  - symmetry. apply getopt_fuel_le. lia.
Qed.

(** ** Reading long options *)

Lemma str_drop_app (p s : string) : str_drop (String.length p) (p +:+ s) = s.
Proof.
  unfold str_drop. induction p as [|c p IH]; simpl.
  - by rewrite Nat.sub_0_r, substring_full.
  - exact IH.
Qed.

Lemma str_drop_app_cons (p s : string) (c : ascii) :
  str_drop (S (String.length p)) (p +:+ String c s) = s.
Proof.
  unfold str_drop. induction p as [|d p IH]; simpl.
  - by rewrite Nat.sub_0_r, substring_full.
  - exact IH.
Qed.

Lemma substring_app (p s : string) : String.substring 0 (String.length p) (p +:+ s) = p.
Proof. induction p as [|c p IH]; simpl; [by destruct s|]. by rewrite IH. Qed.

Lemma str_index_app (c : ascii) (p s : string) :
  str_index c p = None -> str_index c (p +:+ String c s) = Some (String.length p).
Proof.
  induction p as [|d p IH]; simpl.
  - intros _. by rewrite bool_decide_true.
  - case_bool_decide; [done|]. destruct (str_index c p); [done|]. intros _. by rewrite IH.
Qed.

(** One pass of the loop on an argument [--s] with [s] non-empty. *)
Lemma getopt_loop_long (fuel : nat) (so : string) (lo : list string) (opts : go_opts)
    (s : string) (rest : list string) :
  s <> "" ->
  getopt_loop (S fuel) so lo opts (("--" +:+ s) :: rest) =
  match do_longs opts s lo rest with
  | inl e => inl e
  | inr (opts', args') => getopt_loop fuel so lo opts' args'
  end.
Proof.
  intros Hs. cbn [getopt_loop]. destruct s as [|c s']; [done|].
  replace (str_drop 2 ("--" +:+ String c s')) with (String c s')
    by (symmetry; exact (str_drop_app "--" (String c s'))).
  change ("--" +:+ String c s') with (String "-" (String "-" (String c s'))).
  reflexivity.
Qed.

(** [--name=value] and [--name value] for a long option taking a value. *)
Lemma do_longs_attached (opts : go_opts) (p n v : string) (lo rest : list string) :
  str_index "=" p = None -> long_has_args p lo = inr (true, n) ->
  do_longs opts (p +:+ "=" +:+ v) lo rest = inr (app opts [("--" +:+ n, v)], rest).
Proof.
  intros Hi Hl. unfold do_longs. change ("=" +:+ v) with (String "=" v).
  rewrite (str_index_app "=" p v Hi), substring_app.
  rewrite (str_drop_app_cons p v "="). by rewrite Hl.
Qed.

Lemma do_longs_separate (opts : go_opts) (p n v : string) (lo rest : list string) :
  str_index "=" p = None -> long_has_args p lo = inr (true, n) ->
  do_longs opts p lo (v :: rest) = inr (app opts [("--" +:+ n, v)], rest).
Proof. intros Hi Hl. unfold do_longs. by rewrite Hi, Hl. Qed.
