(* ===== verification/Volume.v ===== *)
(** * The Image Provider (MRtools [Data]): volumes, timepoints, affines

    MRtools is not under [src/]; this file models the contract the spec
    gives it (spec 2, 3, 4.1): a 3D volume is a flat list of voxel values
    in C order (x slowest, z fastest, as numpy stores a [get_data()]
    array); an image is a list of such timepoints; [resolve3D] picks the
    first timepoint that is not all zero, else the second, else fails.
    Voxel and millimetre coordinates are related by an affine, given as
    the type class [AffineSpace] with its laws [AffineSpaceLaws] (the
    interface the selector and the scorer are proved against), and
    implemented by axis-aligned integer affines [diag_affine], the shape
    of the MNI affines the tool is used with.  A bound on a volume's
    values bounds every voxel read, on or off the grid ([vget_bound]). *)

From S2P Require Import Prelude.

Definition vox : Type := (Z * Z * Z)%type.
Definition mm : Type := (Z * Z * Z)%type.

(** ** 3D volumes *)

Record vol3 : Type := mkVol3 {
  vx : nat; vy : nat; vz : nat;
  vdata : list Z
}.

Definition vol3_wf (v : vol3) : Prop := length (vdata v) = (vx v * vy v * vz v)%nat.

Definition in_bounds (v : vol3) (p : vox) : bool :=
  let '(i, j, k) := p in
  bool_decide (0 <= i < Z.of_nat (vx v)) && bool_decide (0 <= j < Z.of_nat (vy v)) &&
  bool_decide (0 <= k < Z.of_nat (vz v)).

(** Position of voxel [(i, j, k)] in the C-order data. *)
Definition flat_index (v : vol3) (p : vox) : nat :=
  let '(i, j, k) := p in
  Z.to_nat ((i * Z.of_nat (vy v) + j) * Z.of_nat (vz v) + k).

(** [data[i, j, k]]; a lookup outside the volume reads 0 (spec 4.2). *)
Definition vget (v : vol3) (p : vox) : Z :=
  if in_bounds v p then nth (flat_index v p) (vdata v) 0 else 0.

(** The voxel stored at position [n] of the data. *)
Definition coords_of (v : vol3) (n : nat) : vox :=
  let yz := (vy v * vz v)%nat in
  (Z.of_nat (n / yz), Z.of_nat ((n / vz v) mod vy v), Z.of_nat (n mod vz v)).

Definition vol_empty (v : vol3) : bool := forallb (fun z => bool_decide (z = 0)) (vdata v).

(** ** Timepoint resolution *)

(** The first timepoint, or the second when the first is all zero;
    [None] when neither is usable (spec 4.1: [TemplateEmptyError]). *)
Definition resolve3D (vols : list vol3) : option vol3 :=
  match vols with
  | v0 :: rest =>
      if negb (vol_empty v0) then Some v0
      else match rest with
           | v1 :: _ => if negb (vol_empty v1) then Some v1 else None
           | [] => None
           end
  | [] => None
  end.

(** ** The affine interface *)

Class AffineSpace (A : Type) : Type := {
  to_mm : A -> vox -> mm;
  to_vox : A -> mm -> option vox
}.

(** What the Image Provider promises: [to_vox] inverts [to_mm] exactly,
    and only answers for coordinates on the voxel grid. *)
Class AffineSpaceLaws (A : Type) `{AffineSpace A} : Prop := {
  to_vox_to_mm : forall a p, to_vox a (to_mm a p) = Some p;
  to_mm_to_vox : forall a q p, to_vox a q = Some p -> to_mm a p = q
}.

(** ** Axis-aligned integer affines *)

(** A nonzero scale: its sign and magnitude (MNI's x axis runs backwards). *)
Record scale : Type := mkScale { sc_neg : bool; sc_mag : positive }.

Definition scale_Z (s : scale) : Z := if sc_neg s then Z.neg (sc_mag s) else Z.pos (sc_mag s).

Record diag_affine : Type := mkDiag {
  sx : scale; sy : scale; sz : scale;
  ox : Z; oy : Z; oz : Z
}.

Definition axis_to_mm (s : scale) (o i : Z) : Z := scale_Z s * i + o.

Definition axis_to_vox (s : scale) (o x : Z) : option Z :=
  if bool_decide ((x - o) mod scale_Z s = 0) then Some ((x - o) / scale_Z s) else None.

#[export] Instance diag_affine_space : AffineSpace diag_affine := {|
  to_mm := fun a '(i, j, k) =>
    (axis_to_mm (sx a) (ox a) i, axis_to_mm (sy a) (oy a) j, axis_to_mm (sz a) (oz a) k);
  to_vox := fun a '(x, y, z) =>
    match axis_to_vox (sx a) (ox a) x, axis_to_vox (sy a) (oy a) y,
          axis_to_vox (sz a) (oz a) z with
    | Some i, Some j, Some k => Some (i, j, k)
    | _, _, _ => None
    end
|}.

(** ** Images as the Image Provider loads them *)

Record image : Type := mkImage {
  img_affine : diag_affine;
  img_vols : list vol3
}.

(** An MRtools [Data] object: the path it was read from (its [name]), its
    affine and its resolved 3D volume. *)
Record data : Type := mkData {
  d_name : string;
  d_affine : diag_affine;
  d_vol : vol3
}.

(** [MRtools.Data(path, '3D')]: fails when no timepoint is usable. *)
Definition load_data (path : string) (img : image) : option data :=
  match resolve3D (img_vols img) with
  | Some v => Some (mkData path (img_affine img) v)
  | None => None
  end.

(** ** Lemmas *)

Lemma scale_Z_nonzero (s : scale) : scale_Z s <> 0.
Proof. unfold scale_Z. destruct (sc_neg s); lia. Qed.

Lemma axis_to_vox_to_mm (s : scale) (o i : Z) : axis_to_vox s o (axis_to_mm s o i) = Some i.
Proof.
  unfold axis_to_vox, axis_to_mm. pose proof (scale_Z_nonzero s).
  replace (scale_Z s * i + o - o) with (i * scale_Z s) by lia.
  rewrite bool_decide_true by (apply Z.mod_mul; done).
  by rewrite Z.div_mul.
Qed.

Lemma axis_to_mm_to_vox (s : scale) (o x i : Z) :
  axis_to_vox s o x = Some i -> axis_to_mm s o i = x.
Proof.
  unfold axis_to_vox, axis_to_mm. case_bool_decide as Hm; [|done].
  intros [= <-]. pose proof (scale_Z_nonzero s).
  pose proof (Z.div_mod (x - o) (scale_Z s) ltac:(done)). lia.
Qed.

#[export] Instance diag_affine_laws : AffineSpaceLaws diag_affine.
Proof.
  split.
  - intros a [[i j] k]. simpl. by rewrite !axis_to_vox_to_mm.
  - intros a [[x y] z] [[i j] k]. simpl.
    destruct (axis_to_vox (sx a) _ x) eqn:Ex; [|done].
    destruct (axis_to_vox (sy a) _ y) eqn:Ey; [|done].
    destruct (axis_to_vox (sz a) _ z) eqn:Ez; [|done].
    intros [= <- <- <-].
    by rewrite (axis_to_mm_to_vox _ _ _ _ Ex), (axis_to_mm_to_vox _ _ _ _ Ey),
      (axis_to_mm_to_vox _ _ _ _ Ez).
Qed.

Section AffineFacts.
Context {A : Type} `{AffineSpaceLaws A}.

Lemma to_mm_inj (a : A) (p q : vox) : to_mm a p = to_mm a q -> p = q.
Proof.
  intros Hpq. pose proof (to_vox_to_mm a p) as Hp.
  rewrite Hpq, to_vox_to_mm in Hp. congruence.
Qed.
End AffineFacts.

Lemma vget_out (v : vol3) (p : vox) : in_bounds v p = false -> vget v p = 0.
Proof. unfold vget. by intros ->. Qed.

(** [resolve3D] returns one of the first two timepoints, and one that is
    not all zero. *)
Lemma resolve3D_some (vols : list vol3) (v : vol3) :
  resolve3D vols = Some v ->
  vol_empty v = false /\ (vols !! 0%nat = Some v \/ vols !! 1%nat = Some v).
Proof.
  destruct vols as [|v0 rest]; [done|]. simpl.
  destruct (vol_empty v0) eqn:E0; simpl.
  - destruct rest as [|v1 rest]; [done|].
    destruct (vol_empty v1) eqn:E1; simpl; [done|]. intros [= <-]. auto.
  - intros [= <-]. auto.
Qed.

Lemma resolve3D_none (vols : list vol3) :
  resolve3D vols = None <->
  forall i v, (i < 2)%nat -> vols !! i = Some v -> vol_empty v = true.
Proof.
  destruct vols as [|v0 [|v1 rest]]; simpl.
  - split; [|done]. intros _ i v _ Hv. by rewrite lookup_nil in Hv.
  - destruct (vol_empty v0) eqn:E0; simpl; split; try done.
    + intros _ [|[|i]] v Hi Hv; simpl in Hv; congruence.
    + intros H. specialize (H 0%nat v0 ltac:(lia) eq_refl). congruence.
  - destruct (vol_empty v0) eqn:E0, (vol_empty v1) eqn:E1; simpl; split; try done.
    + intros _ [|[|i]] v Hi Hv; simpl in Hv; [congruence|congruence|lia].
    + intros H. specialize (H 1%nat v1 ltac:(lia) eq_refl). congruence.
    + intros H. specialize (H 0%nat v0 ltac:(lia) eq_refl). congruence.
    + intros H. specialize (H 0%nat v0 ltac:(lia) eq_refl). congruence.
Qed.

(** A value bound on the data bounds every read, [0] off the grid included. *)
Lemma vget_bound (B : Z) (v : vol3) (p : vox) :
  0 <= B -> Forall (fun z => Z.abs z <= B) (vdata v) -> Z.abs (vget v p) <= B.
Proof.
  intros HB Hv. unfold vget. destruct (in_bounds v p); [|simpl; lia].
  destruct (decide (flat_index v p < length (vdata v))%nat) as [Hlt|Hge].
  - rewrite Forall_forall in Hv. apply (Hv (nth (flat_index v p) (vdata v) 0)).
    apply list_elem_of_In, nth_In. lia.
  - rewrite nth_overflow by lia. simpl. lia.
Qed.
