(* ===== verification/IndexSelector.v ===== *)
(** * The Index Selector (MRtools [Match.setIndexCrit] / [Match.genIndexMNI])

    Spec 4.1: the voxels of the template's resolved volume whose value
    passes the criterion, in voxel order, converted to millimetres.  The
    implementation [select_flat] is one pass over the flat C-order data
    keeping the positions that pass (numpy's [nonzero]); the reference
    [select_ref] is the nested [for i, for j, for k] loop over the voxel
    grid.  The file proves them equal on well-formed volumes, and proves
    the selection sound, complete, free of duplicates and sorted, with
    as many points as the data has values passing the criterion. *)

From S2P Require Import Prelude Volume.
From Stdlib Require Import Sorted.

(** ** Criteria *)

(** The comparison [setIndexCrit(op, thresh)] stores. *)
Inductive crit_op : Type := CGt | CGe | CLt | CLe | CEq.

Record crit : Type := mkCrit { c_op : crit_op; c_thresh : Z }.

Definition crit_holds (c : crit) (x : Z) : bool :=
  match c_op c with
  | CGt => bool_decide (c_thresh c < x)
  | CGe => bool_decide (c_thresh c <= x)
  | CLt => bool_decide (x < c_thresh c)
  | CLe => bool_decide (x <= c_thresh c)
  | CEq => bool_decide (x = c_thresh c)
  end.

(** ** The reference: nested loops over the grid *)

Definition voxels (v : vol3) : list vox :=
  flat_map (fun i =>
    flat_map (fun j =>
      map (fun k => (Z.of_nat i, Z.of_nat j, Z.of_nat k)) (seq 0 (vz v)))
      (seq 0 (vy v)))
    (seq 0 (vx v)).

Definition select_ref (c : crit) (v : vol3) : list vox :=
  List.filter (fun p => crit_holds c (vget v p)) (voxels v).

(** ** The implementation: one pass over the flat data *)

Fixpoint scan (c : crit) (n : nat) (l : list Z) : list nat :=
  match l with
  | [] => []
  | x :: l' => if crit_holds c x then n :: scan c (S n) l' else scan c (S n) l'
  end.

Definition select_flat (c : crit) (v : vol3) : list vox :=
  map (coords_of v) (scan c 0 (vdata v)).

(** [genIndexMNI]: the selected voxels in millimetres. *)
Definition genIndexMNI {A} `{AffineSpace A} (a : A) (c : crit) (v : vol3) : list mm :=
  map (to_mm a) (select_flat c v).

(** ** Index arithmetic *)

Lemma seq_mul (a b : nat) :
  seq 0 (a * b) = flat_map (fun i => seq (i * b) b) (seq 0 a).
Proof.
  induction a as [|a IH]; [done|].
  replace (S a * b)%nat with (a * b + b)%nat by lia.
  rewrite seq_app, IH, seq_S, flat_map_app. simpl. now rewrite app_nil_r.
Qed.

Lemma seq_shift_add (s n : nat) : seq s n = map (fun j => s + j)%nat (seq 0 n).
Proof.
  revert s. induction n as [|n IH]; intros s; [done|].
  rewrite !seq_S, map_app, IH; simpl; f_equal; f_equal; lia.
Qed.

Lemma coords_of_index (v : vol3) (i j k : nat) :
  (j < vy v)%nat -> (k < vz v)%nat ->
  coords_of v ((i * (vy v * vz v)) + (j * vz v + k))%nat =
  (Z.of_nat i, Z.of_nat j, Z.of_nat k).
Proof.
  intros Hj Hk. unfold coords_of.
  set (Y := vy v) in *. set (Zd := vz v) in *.
  assert (Hq : ((i * (Y * Zd) + (j * Zd + k)) / (Y * Zd))%nat = i).
  { symmetry. apply (Nat.div_unique _ _ _ (j * Zd + k)); nia. }
  assert (Hz : ((i * (Y * Zd) + (j * Zd + k)) / Zd)%nat = (i * Y + j)%nat).
  { symmetry. apply (Nat.div_unique _ _ _ k); nia. }
  assert (Hy : ((i * Y + j) mod Y)%nat = j).
  { symmetry. apply (Nat.mod_unique _ _ i); nia. }
  assert (Hm : ((i * (Y * Zd) + (j * Zd + k)) mod Zd)%nat = k).
  { symmetry. apply (Nat.mod_unique _ _ (i * Y + j)); nia. }
  by rewrite Hq, Hz, Hy, Hm.
Qed.

(** The grid enumerated in C order is the data's positions decoded. *)
Lemma voxels_coords (v : vol3) :
  voxels v = map (coords_of v) (seq 0 (vx v * vy v * vz v)).
Proof.
  rewrite <- Nat.mul_assoc, seq_mul, flat_map_concat_map, concat_map, List.map_map.
  unfold voxels. rewrite flat_map_concat_map. f_equal. apply map_ext_in.
  intros i _. rewrite (seq_shift_add (i * _)), List.map_map, seq_mul, !flat_map_concat_map.
  rewrite concat_map, List.map_map. f_equal.
  apply map_ext_in. intros j Hj%in_seq.
  rewrite (seq_shift_add (j * _)), !List.map_map. apply map_ext_in. intros k Hk%in_seq.
  rewrite coords_of_index; [done|lia|lia].
Qed.

Lemma scan_spec (c : crit) (s : nat) (l : list Z) :
  scan c s l = List.filter (fun n => crit_holds c (nth (n - s) l 0)) (seq s (length l)).
Proof.
  revert s. induction l as [|x l IH]; intros s; [done|]. cbn [scan length seq List.filter]. 
  rewrite Nat.sub_diag, IH. 
  assert (Hf : List.filter (fun n => crit_holds c (nth (n - S s) l 0)) (seq (S s) (length l)) =
               List.filter (fun n => crit_holds c (nth (n - s) (x :: l) 0)) (seq (S s) (length l))).
  { apply filter_ext_in. intros n Hn%in_seq. by replace (n - s)%nat with (S (n - S s)) by lia. }
  by rewrite Hf.
Qed.

Lemma filter_map_comm {X Y} (P : Y -> bool) (f : X -> Y) (l : list X) :
  List.filter P (map f l) = map f (List.filter (fun x => P (f x)) l).
Proof. induction l as [|x l IH]; simpl; [done|]. destruct (P (f x)); simpl; congruence. Qed.

(** Every position of the data decodes to an in-bounds voxel that encodes
    back to it. *)
Lemma coords_of_decode (v : vol3) (n : nat) :
  (n < vx v * vy v * vz v)%nat ->
  in_bounds v (coords_of v n) = true /\ flat_index v (coords_of v n) = n.
Proof.
  intros Hn. set (Y := vy v) in *. set (Zd := vz v) in *.
  assert (HY : (0 < Y)%nat) by (destruct Y; lia).
  assert (HZ : (0 < Zd)%nat) by (destruct Zd; lia).
  pose (i := (n / (Y * Zd))%nat). pose (m := (n mod (Y * Zd))%nat).
  assert (Hm : (m < Y * Zd)%nat) by (apply Nat.mod_upper_bound; lia).
  assert (Hi : (i < vx v)%nat) by (apply Nat.Div0.div_lt_upper_bound; lia).
  assert (Hn' : n = (i * (Y * Zd) + (m / Zd * Zd + m mod Zd))%nat).
  { pose proof (Nat.div_mod_eq m Zd). pose proof (Nat.div_mod_eq n (Y * Zd)).
    unfold m, i in *. lia. }
  assert (Hj : (m / Zd < Y)%nat) by (apply Nat.Div0.div_lt_upper_bound; lia).
  assert (Hk : (m mod Zd < Zd)%nat) by (apply Nat.mod_upper_bound; lia).
  rewrite Hn', coords_of_index by done. simpl. split.
  - repeat (apply andb_true_intro; split); apply bool_decide_eq_true; lia.
  - fold Y Zd. lia.
Qed.

Lemma vget_coords (v : vol3) (n : nat) :
  (n < vx v * vy v * vz v)%nat -> vget v (coords_of v n) = nth n (vdata v) 0.
Proof.
  intros Hn. destruct (coords_of_decode v n Hn) as [Hb Hf].
  unfold vget. by rewrite Hb, Hf.
Qed.

(** ** The single pass computes the nested loops *)

Theorem select_flat_ref (c : crit) (v : vol3) :
  vol3_wf v -> select_flat c v = select_ref c v.
Proof.
  intros Hwf. unfold select_flat, select_ref.
  rewrite voxels_coords, filter_map_comm, scan_spec, Hwf. f_equal.
  apply filter_ext_in. intros n Hn%in_seq. by rewrite vget_coords, Nat.sub_0_r by lia.
Qed.

Lemma ssorted_lt_nodup (l : list nat) : StronglySorted Nat.lt l -> NoDup l.
Proof.
  induction 1 as [|a l _ IH Hf]; constructor; [|done].
  intros Hin. rewrite Forall_forall in Hf. specialize (Hf a Hin). lia.
Qed.

(** ** What is selected *)

Lemma in_voxels (v : vol3) (p : vox) : In p (voxels v) <-> in_bounds v p = true.
Proof.
  destruct p as [[i j] k]. unfold voxels, in_bounds.
  rewrite !andb_true_iff, !bool_decide_eq_true, in_flat_map. split.
  - intros (i' & Hi%in_seq & Hj). apply in_flat_map in Hj as (j' & Hj%in_seq & Hk).
    apply in_map_iff in Hk as (k' & [= <- <- <-] & Hk%in_seq). lia.
  - intros [[Hi Hj] Hk]. exists (Z.to_nat i). split; [apply in_seq; lia|].
    apply in_flat_map. exists (Z.to_nat j). split; [apply in_seq; lia|].
    apply in_map_iff. exists (Z.to_nat k). split; [|apply in_seq; lia].
    f_equal; [f_equal|]; lia.
Qed.

Lemma in_select_ref (c : crit) (v : vol3) (p : vox) :
  In p (select_ref c v) <-> in_bounds v p = true /\ crit_holds c (vget v p) = true.
Proof. unfold select_ref. by rewrite filter_In, in_voxels. Qed.

Lemma scan_sorted (c : crit) (s : nat) (l : list Z) :
  StronglySorted Nat.lt (scan c s l) /\ Forall (fun n => s <= n)%nat (scan c s l).
Proof.
  revert s. induction l as [|x l IH]; intros s; simpl; [split; constructor|].
  destruct (IH (S s)) as [Hs Hf]. destruct (crit_holds c x).
  - split; [constructor; [done|]|constructor; [lia|]];
      eapply Forall_impl; eauto; simpl; lia.
  - split; [done|]. eapply Forall_impl; eauto; simpl; lia.
Qed.

(** The selection is listed in increasing position of the C-order data:
    the order of the index set is the volume's own voxel order. *)
Lemma select_flat_positions (c : crit) (v : vol3) :
  vol3_wf v -> map (flat_index v) (select_flat c v) = scan c 0 (vdata v).
Proof.
  intros Hwf. unfold select_flat. rewrite List.map_map.
  rewrite <- (map_id (scan c 0 (vdata v))) at 2. apply map_ext_in.
  intros n Hn. rewrite scan_spec, filter_In, in_seq, Hwf in Hn.
  apply coords_of_decode. lia.
Qed.

Lemma select_flat_nodup (c : crit) (v : vol3) :
  vol3_wf v -> NoDup (select_flat c v).
Proof.
  intros Hwf. apply NoDup_ListNoDup, (NoDup_map_inv (flat_index v)).
  rewrite select_flat_positions by done.
  apply NoDup_ListNoDup, ssorted_lt_nodup, scan_sorted.
Qed.

Section InMillimetres.
Context {A : Type} `{AffineSpaceLaws A}.

Lemma in_genIndexMNI (a : A) (c : crit) (v : vol3) (q : mm) :
  vol3_wf v ->
  In q (genIndexMNI a c v) <->
  exists p, q = to_mm a p /\ in_bounds v p = true /\ crit_holds c (vget v p) = true.
Proof.
  intros Hwf. unfold genIndexMNI. rewrite select_flat_ref by done.
  rewrite in_map_iff. setoid_rewrite in_select_ref. naive_solver.
Qed.

Lemma genIndexMNI_nodup (a : A) (c : crit) (v : vol3) :
  vol3_wf v -> NoDup (genIndexMNI a c v).
Proof.
  intros Hwf. apply NoDup_ListNoDup, Finite.Injective_map_NoDup.
  - intros p q. apply to_mm_inj.
  - by apply NoDup_ListNoDup, select_flat_nodup.
Qed.
End InMillimetres.

(** The index set has one coordinate per data value passing the criterion. *)
Lemma scan_length (c : crit) (n : nat) (l : list Z) :
  length (scan c n l) = length (List.filter (crit_holds c) l).
Proof.
  revert n. induction l as [|x l IH]; intros n; simpl; [done|].
  destruct (crit_holds c x); simpl; by rewrite IH.
Qed.

Lemma genIndexMNI_length {A} `{AffineSpace A} (a : A) (c : crit) (v : vol3) :
  length (genIndexMNI a c v) = length (List.filter (crit_holds c) (vdata v)).
Proof. unfold genIndexMNI, select_flat. by rewrite !length_map, scan_length. Qed.

