(* ===== verification/Scorer.v ===== *)
(** * The Overlap Scorer (MRtools [Match.matchOverlap])

    Spec 4.2: for each millimetre coordinate of the index set, map it
    back through the candidate's own affine, read the candidate's value
    there (0 off the grid or outside the volume), and add the values up,
    signed or in absolute value.  [matchOverlap] is the accumulator loop
    [acc = 0; for q in indexes: acc += f(value(q))]; [overlap_ref] is the
    direct sum.  The file proves them equal, proves the score invariant
    under any permutation of the index set (a [Proper] instance for
    [≡ₚ], the coarser equivalence the index set is compared under), and
    the bounds relating the two modes, the template's self score, a
    scaled template's score, and the bound of an absolute score by the
    size of the index set times a bound on the candidate's values. *)

From S2P Require Import Prelude Volume IndexSelector.

Inductive score_mode : Type := Signed | Absolute.

#[export] Instance score_mode_eq_dec : EqDecision score_mode.
Proof. solve_decision. Defined.

Definition contrib (mode : score_mode) (x : Z) : Z :=
  match mode with Signed => x | Absolute => Z.abs x end.

Section Scoring.
Context {A : Type} `{AffineSpace A}.

(** The candidate's value at a millimetre coordinate. *)
Definition lookup_mm (a : A) (v : vol3) (q : mm) : Z :=
  match to_vox a q with
  | Some p => vget v p
  | None => 0
  end.

Definition matchOverlap (mode : score_mode) (a : A) (v : vol3) (idx : list mm) : Z :=
  fold_left (fun acc q => acc + contrib mode (lookup_mm a v q)) idx 0.

Definition overlap_ref (mode : score_mode) (a : A) (v : vol3) (idx : list mm) : Z :=
  sumZ (map (fun q => contrib mode (lookup_mm a v q)) idx).
End Scoring.

(** The score of an MRtools [Data] object against an index set. *)
Definition score_data (mode : score_mode) (idx : list mm) (d : data) : Z :=
  matchOverlap mode (d_affine d) (d_vol d) idx.

(** A volume with every value multiplied by [k]. *)
Definition scale_vol (k : Z) (v : vol3) : vol3 :=
  mkVol3 (vx v) (vy v) (vz v) (map (Z.mul k) (vdata v)).

(** ** The loop is the sum *)

Section ScoringFacts.
Context {A : Type} `{AffineSpaceLaws A}.

Lemma matchOverlap_ref (mode : score_mode) (a : A) (v : vol3) (idx : list mm) :
  matchOverlap mode a v idx = overlap_ref mode a v idx.
Proof. unfold matchOverlap, overlap_ref. by rewrite fold_left_add_sumZ. Qed.

#[export] Instance overlap_ref_perm (mode : score_mode) (a : A) (v : vol3) :
  Proper ((≡ₚ) ==> eq) (overlap_ref mode a v).
Proof. intros l1 l2 Hp. unfold overlap_ref. by rewrite Hp. Qed.

#[export] Instance matchOverlap_perm (mode : score_mode) (a : A) (v : vol3) :
  Proper ((≡ₚ) ==> eq) (matchOverlap mode a v).
Proof. intros l1 l2 Hp. rewrite !matchOverlap_ref. by rewrite Hp. Qed.

Lemma overlap_abs_nonneg (a : A) (v : vol3) (idx : list mm) :
  0 <= overlap_ref Absolute a v idx.
Proof. apply sumZ_map_nonneg. intros. simpl. lia. Qed.

Lemma overlap_abs_ge_signed (a : A) (v : vol3) (idx : list mm) :
  Z.abs (overlap_ref Signed a v idx) <= overlap_ref Absolute a v idx.
Proof. apply sumZ_map_abs. Qed.

(** The index set read back through the affine it came from lands on
    the voxels it was built from. *)
Lemma lookup_mm_to_mm (a : A) (v : vol3) (p : vox) : lookup_mm a v (to_mm a p) = vget v p.
Proof. unfold lookup_mm. by rewrite to_vox_to_mm. Qed.

(** A candidate scored against a template's index set: the sum over the
    selected template voxels of the candidate's value at the same
    millimetre coordinate. *)
Lemma overlap_genIndex_mm (mode : score_mode) (a b : A) (c : crit) (v w : vol3) :
  vol3_wf v ->
  overlap_ref mode b w (genIndexMNI a c v) =
  sumZ (map (fun p => contrib mode (lookup_mm b w (to_mm a p))) (select_ref c v)).
Proof.
  intros Hwf. unfold overlap_ref, genIndexMNI. rewrite select_flat_ref by done.
  by rewrite List.map_map.
Qed.

(** On a shared affine, the same voxels. *)
Lemma overlap_genIndex (mode : score_mode) (a : A) (c : crit) (v w : vol3) :
  vol3_wf v ->
  overlap_ref mode a w (genIndexMNI a c v) =
  sumZ (map (fun p => contrib mode (vget w p)) (select_ref c v)).
Proof.
  intros Hwf. rewrite overlap_genIndex_mm by done. f_equal. apply map_ext. intros p.
  by rewrite lookup_mm_to_mm.
Qed.

Lemma vget_scale (k : Z) (v : vol3) (p : vox) : vget (scale_vol k v) p = k * vget v p.
Proof.
  unfold vget, scale_vol. simpl. destruct (in_bounds _ p) eqn:E.
  - change (in_bounds v p) with (in_bounds (mkVol3 (vx v) (vy v) (vz v) (vdata v)) p).
    replace (in_bounds (mkVol3 _ _ _ (vdata v)) p) with true by (symmetry; exact E).
    unfold flat_index. simpl. rewrite <- (Z.mul_0_r k) at 1. by rewrite map_nth.
  - change (in_bounds v p) with (in_bounds (mkVol3 (vx v) (vy v) (vz v) (vdata v)) p).
    replace (in_bounds (mkVol3 _ _ _ (vdata v)) p) with false by (symmetry; exact E). lia.
Qed.

(** The signed score is linear in the candidate: a copy of a volume
    scaled by [k] scores [k] times the volume's score. *)
Lemma overlap_scale (a : A) (k : Z) (v : vol3) (idx : list mm) :
  overlap_ref Signed a (scale_vol k v) idx = k * overlap_ref Signed a v idx.
Proof.
  unfold overlap_ref. rewrite <- sumZ_map_scale. f_equal. apply map_ext.
  intros q. unfold lookup_mm. simpl. destruct (to_vox a q); [apply vget_scale|lia].
Qed.
(** The absolute score too, for a nonnegative factor. *)
Lemma overlap_scale_abs (a : A) (k : Z) (v : vol3) (idx : list mm) :
  0 <= k -> overlap_ref Absolute a (scale_vol k v) idx = k * overlap_ref Absolute a v idx.
Proof.
  intros Hk. unfold overlap_ref. rewrite <- sumZ_map_scale. f_equal. apply map_ext.
  intros q. unfold lookup_mm. simpl. destruct (to_vox a q); [|lia].
  rewrite vget_scale, Z.abs_mul. by rewrite (Z.abs_eq k).
Qed.
End ScoringFacts.

(** ** Bounds *)

Section Bounds.
Context {A : Type} `{AffineSpace A}.

Lemma overlap_abs_le (a : A) (v : vol3) (idx : list mm) (B : Z) :
  0 <= B -> Forall (fun z => Z.abs z <= B) (vdata v) ->
  overlap_ref Absolute a v idx <= Z.of_nat (length idx) * B.
Proof.
  intros HB Hv. unfold overlap_ref. rewrite <- (sumZ_map_const B idx).
  apply sumZ_map_le. intros q _. simpl. unfold lookup_mm.
  destruct (to_vox a q); [by apply vget_bound|simpl; lia].
Qed.
End Bounds.
