(* ===== verification/MatchSession.v ===== *)
(** * The Match Aggregator (MRtools [Match] object)

    Spec 4.3.  A [Match] object holds the template, the criterion set by
    [setIndexCrit], the index set computed by [genIndexMNI] and the list
    of components added since the last [reset].  [matchOverlapMatrix]
    scores every component against the index set (absolute mode, the
    mode the active code path uses; [matchOverlapMatrix_mode] keeps the
    signed one selectable) into a dict keyed by the component's name.

    The session's life cycle is the labelled step relation [sstep] over
    [Idle], [Loaded], [Accumulating] and [Scored]; [sess_inv] is its
    invariant, proved over every run by rule induction.  The abstract
    specification of one subject's matching is [fresh_scores]: the dict a
    newly built session would produce from the index set and that
    subject's candidates alone; [matchOverlapMatrix_after_reset] shows a
    reset session computes exactly it.  [events_of] and [emitted_of] give
    the events and score dicts of one subject, the vocabulary in which
    [PyMatch] states that the script's loop is a run of [sstep].  The
    progress lemmas ([ssteps_active], [ssteps_indexes],
    [session_can_score]) show that an active session can always reach
    [Scored] again.
    [match_equiv] relates objects whose index sets differ only in order;
    [addComp], [reset] and [matchOverlapMatrix] respect it. *)

From S2P Require Import Prelude PyLib Volume IndexSelector Scorer.

(** ** The object and its methods *)

Record Match : Type := mkMatch {
  m_template : data;
  m_crit : option crit;
  m_indexes : list mm;
  m_components : list data
}.

(** [MRtools.Match(Template)]. *)
Definition Match_init (T : data) : Match := mkMatch T None [] [].

Definition setIndexCrit (op : crit_op) (t : Z) (M : Match) : Match :=
  mkMatch (m_template M) (Some (mkCrit op t)) (m_indexes M) (m_components M).

(** [genIndexMNI()]: fails when no criterion was set. *)
Definition genIndex (M : Match) : option Match :=
  match m_crit M with
  | Some c =>
      let T := m_template M in
      Some (mkMatch T (Some c) (genIndexMNI (d_affine T) c (d_vol T)) (m_components M))
  | None => None
  end.

Definition addComp (d : data) (M : Match) : Match :=
  mkMatch (m_template M) (m_crit M) (m_indexes M) (m_components M ++ [d]).

Definition reset (M : Match) : Match :=
  mkMatch (m_template M) (m_crit M) (m_indexes M) [].

(** The abstract specification: the dict of scores of [ds] against [idx]. *)
Definition fresh_scores (mode : score_mode) (idx : list mm) (ds : list data) : pydict string Z :=
  fold_left (fun acc d => dict_set (d_name d) (score_data mode idx d) acc) ds [].

Definition matchOverlapMatrix_mode (mode : score_mode) (M : Match) : pydict string Z :=
  fresh_scores mode (m_indexes M) (m_components M).

Definition matchOverlapMatrix (M : Match) : pydict string Z :=
  matchOverlapMatrix_mode Absolute M.

(** ** The session life cycle *)

Inductive phase : Type := Idle | Loaded | Accumulating | Scored.

Record session : Type := mkSession {
  s_phase : phase;
  s_match : option Match;
  s_emitted : list (pydict string Z)
}.

Inductive event : Type :=
| EvLoad (T : data)
| EvAdd (d : data)
| EvMatchAll
| EvReset.

(** The criterion pyMatch sets: [setIndexCrit('>', 0)]. *)
Definition pos_crit : crit := mkCrit CGt 0.

Inductive sstep : session -> event -> session -> Prop :=
| sstep_load T M em :
    genIndex (setIndexCrit CGt 0 (Match_init T)) = Some M ->
    sstep (mkSession Idle None em) (EvLoad T) (mkSession Loaded (Some M) em)
| sstep_add ph M d em :
    ph <> Idle ->
    sstep (mkSession ph (Some M) em) (EvAdd d) (mkSession Accumulating (Some (addComp d M)) em)
| sstep_match M em :
    sstep (mkSession Accumulating (Some M) em) EvMatchAll
          (mkSession Scored (Some M) (em ++ [matchOverlapMatrix M]))
| sstep_reset ph M em :
    ph = Scored \/ ph = Loaded ->
    sstep (mkSession ph (Some M) em) EvReset (mkSession Loaded (Some (reset M)) em).

Inductive ssteps : session -> list event -> session -> Prop :=
| ssteps_nil s : ssteps s [] s
| ssteps_cons s e s' evs s'' : sstep s e s' -> ssteps s' evs s'' -> ssteps s (e :: evs) s''.

Definition session_init : session := mkSession Idle None [].

(** The events of one subject with components [ds], and the score dicts
    it emits: none when it has no component. *)
Definition emitted_of (idx : list mm) (ds : list data) : list (pydict string Z) :=
  if bool_decide (ds = []) then [] else [fresh_scores Absolute idx ds].

Definition events_of (ds : list data) : list event :=
  if bool_decide (ds = []) then [] else map EvAdd ds ++ [EvMatchAll; EvReset].

(** What every reachable session satisfies. *)
Definition sess_inv (s : session) : Prop :=
  match s_phase s, s_match s with
  | Idle, None => True
  | Idle, Some _ => False
  | _, None => False
  | ph, Some M =>
      m_crit M = Some pos_crit /\
      m_indexes M = genIndexMNI (d_affine (m_template M)) pos_crit (d_vol (m_template M)) /\
      (ph = Loaded -> m_components M = []) /\
      (ph = Accumulating -> m_components M <> [])
  end.

(** ** Lemmas *)

Lemma fresh_scores_app (mode : score_mode) (idx : list mm) (ds1 ds2 : list data) :
  fresh_scores mode idx (ds1 ++ ds2) =
  fold_left (fun acc d => dict_set (d_name d) (score_data mode idx d) acc) ds2
            (fresh_scores mode idx ds1).
Proof. unfold fresh_scores. by rewrite fold_left_app. Qed.

Lemma fresh_scores_get_notin (mode : score_mode) (idx : list mm) (ds : list data)
    (acc : pydict string Z) (k : string) :
  k ∉ map d_name ds ->
  dict_get k (fold_left (fun acc d => dict_set (d_name d) (score_data mode idx d) acc) ds acc) =
  dict_get k acc.
Proof.
  revert acc. induction ds as [|d ds IH]; intros acc Hk; simpl; [done|].
  rewrite IH by set_solver. apply dict_get_set_ne. set_solver.
Qed.

(** With distinct names, each component's entry is its own score. *)
Lemma fresh_scores_get (mode : score_mode) (idx : list mm) (ds : list data) (d : data) :
  NoDup (map d_name ds) -> d ∈ ds ->
  dict_get (d_name d) (fresh_scores mode idx ds) = Some (score_data mode idx d).
Proof.
  unfold fresh_scores. generalize (@nil (string * Z)).
  induction ds as [|d0 ds IH]; intros acc Hnd Hd; [by apply elem_of_nil in Hd|].
  simpl. apply NoDup_cons in Hnd as [Hn0 Hnd]. apply elem_of_cons in Hd as [->|Hd].
  - rewrite fresh_scores_get_notin by done. apply dict_get_set_eq.
  - by apply IH.
Qed.

Lemma fresh_scores_keys_acc (mode : score_mode) (idx : list mm) (ds : list data)
    (acc : pydict string Z) (k : string) :
  k ∈ (fold_left (fun acc d => dict_set (d_name d) (score_data mode idx d) acc) ds acc).*1 <->
  k ∈ acc.*1 \/ k ∈ map d_name ds.
Proof.
  revert acc. induction ds as [|d ds IH]; intros acc; simpl.
  - set_solver.
  - rewrite IH, dict_set_keys, elem_of_cons. tauto.
Qed.

Lemma fresh_scores_keys (mode : score_mode) (idx : list mm) (ds : list data) (k : string) :
  k ∈ (fresh_scores mode idx ds).*1 <-> k ∈ map d_name ds.
Proof. unfold fresh_scores. rewrite fresh_scores_keys_acc. set_solver. Qed.

(** Adding components one by one appends them and changes nothing else. *)
Lemma add_all_eq (ds : list data) (M : Match) :
  fold_left (fun M d => addComp d M) ds M =
  mkMatch (m_template M) (m_crit M) (m_indexes M) (m_components M ++ ds).
Proof.
  revert M. induction ds as [|d ds IH]; intros [T c idx cs]; simpl.
  - by rewrite app_nil_r.
  - rewrite IH. simpl. by rewrite <- app_assoc.
Qed.

Lemma add_all_components (ds : list data) (M : Match) :
  m_components (fold_left (fun M d => addComp d M) ds M) = m_components M ++ ds.
Proof.
  revert M. induction ds as [|d ds IH]; intros M; simpl; [by rewrite app_nil_r|].
  rewrite IH. simpl. by rewrite <- app_assoc.
Qed.

Lemma add_all_indexes (ds : list data) (M : Match) :
  m_indexes (fold_left (fun M d => addComp d M) ds M) = m_indexes M.
Proof. revert M. induction ds as [|d ds IH]; intros M; simpl; [done|]. by rewrite IH. Qed.

(** After a reset the scores depend on the components added since, and on
    nothing added before. *)
Lemma matchOverlapMatrix_after_reset (mode : score_mode) (M : Match) (ds : list data) :
  matchOverlapMatrix_mode mode (fold_left (fun M d => addComp d M) ds (reset M)) =
  fresh_scores mode (m_indexes M) ds.
Proof.
  unfold matchOverlapMatrix_mode. by rewrite add_all_components, add_all_indexes.
Qed.

Lemma sstep_inv (s : session) (e : event) (s' : session) :
  sstep s e s' -> sess_inv s -> sess_inv s'.
Proof.
  intros Hs. destruct Hs as [T M em Hg|ph M d em Hph|M em|ph M em Hph]; simpl.
  - intros _. unfold genIndex in Hg. simpl in Hg. injection Hg as <-. simpl.
    split; [done|]. split; [done|]. split; [done|]. done.
  - intros Hinv. assert (Hb : m_crit M = Some pos_crit /\
      m_indexes M = genIndexMNI (d_affine (m_template M)) pos_crit (d_vol (m_template M))).
    { destruct ph; [done| | |]; unfold sess_inv in Hinv; simpl in Hinv; tauto. }
    destruct Hb as [Hc Hi]. simpl. split; [done|]. split; [done|].
    split; [done|]. intros _ Hnil. apply app_eq_nil in Hnil as [_ Hd]. discriminate.
  - intros (Hc & Hi & _ & _). repeat split; done.
  - destruct Hph as [-> | ->]; intros (Hc & Hi & _ & _); repeat split; done.
Qed.

Lemma ssteps_inv (s : session) (evs : list event) (s' : session) :
  ssteps s evs s' -> sess_inv s -> sess_inv s'.
Proof. induction 1; eauto using sstep_inv. Qed.

Lemma ssteps_app (s s' s'' : session) (l1 l2 : list event) :
  ssteps s l1 s' -> ssteps s' l2 s'' -> ssteps s (l1 ++ l2) s''.
Proof. induction 1 as [|s0 e s1 evs s2 Hst Hrest IH]; simpl; [done|]. intros H2. econstructor; eauto. Qed.

Lemma ssteps_adds (ph : phase) (M : Match) (ds : list data) (em : list (pydict string Z)) :
  ph <> Idle -> ds <> [] ->
  ssteps (mkSession ph (Some M) em) (map EvAdd ds)
         (mkSession Accumulating (Some (fold_left (fun M d => addComp d M) ds M)) em).
Proof.
  revert ph M. induction ds as [|d ds IH]; intros ph M Hph Hds; [done|]. simpl.
  econstructor; [by constructor|].
  destruct ds as [|d' ds']; [constructor|]. apply IH; done.
Qed.

(** ** Progress of the session *)

(** A step never returns to [Idle]. *)
Lemma sstep_active (s : session) (e : event) (s' : session) :
  sstep s e s' -> s_phase s' <> Idle.
Proof. by destruct 1. Qed.

Lemma ssteps_active (s : session) (evs : list event) (s' : session) :
  ssteps s evs s' -> s_phase s <> Idle -> s_phase s' <> Idle.
Proof. induction 1 as [|? ? ? ? ? Hst]; [done|]. intros _. eauto using sstep_active. Qed.

(** Once an object is loaded, steps keep an object with the same index set. *)
Lemma ssteps_indexes (s : session) (evs : list event) (s' : session) (M : Match) :
  ssteps s evs s' -> s_match s = Some M ->
  exists M', s_match s' = Some M' /\ m_indexes M' = m_indexes M.
Proof.
  intros Hs. revert M. induction Hs as [s|s e s1 evs s2 Hst _ IH]; intros M HM; [by eauto|].
  destruct Hst; simplify_eq/=; edestruct IH as (M' & ? & ?); eauto; by eexists.
Qed.

(** From an active session, at most two steps reach [Loaded] with the
    components cleared: [EvReset], preceded by [EvMatchAll] when
    accumulating. *)
Lemma session_to_loaded (ph : phase) (M : Match) (em : list (pydict string Z)) :
  ph <> Idle -> exists evs em',
    ssteps (mkSession ph (Some M) em) evs (mkSession Loaded (Some (reset M)) em').
Proof.
  intros Hph. destruct ph; [done| | |].
  - exists [EvReset], em. econstructor; [by constructor; right|constructor].
  - exists [EvMatchAll; EvReset], (em ++ [matchOverlapMatrix M]).
    econstructor; [constructor|]. econstructor; [by constructor; left|constructor].
  - exists [EvReset], em. econstructor; [by constructor; left|constructor].
Qed.

(** From an active session with index set [idx], the components [ds] can
    always be scored afresh: the session reaches [Scored] and its last
    emitted dict is [fresh_scores Absolute idx ds]. *)
Lemma session_can_score (s : session) (M : Match) (ds : list data) :
  s_phase s <> Idle -> s_match s = Some M -> ds <> [] ->
  exists evs s', ssteps s evs s' /\ s_phase s' = Scored /\
    last (s_emitted s') = Some (fresh_scores Absolute (m_indexes M) ds).
Proof.
  destruct s as [ph sm em]; simpl. intros Hph -> Hds.
  destruct (session_to_loaded ph M em Hph) as (evs & em' & Hl).
  set (M' := fold_left (fun M d => addComp d M) ds (reset M)).
  exists (evs ++ map EvAdd ds ++ [EvMatchAll]),
    (mkSession Scored (Some M') (em' ++ [matchOverlapMatrix M'])).
  split; [|split; [reflexivity|]].
  - eapply ssteps_app; [exact Hl|]. eapply ssteps_app; [by apply ssteps_adds|].
    econstructor; [constructor|constructor].
  - simpl. rewrite last_snoc. unfold matchOverlapMatrix, M'.
    by rewrite matchOverlapMatrix_after_reset.
Qed.

(** ** Index sets up to order *)

(** Two [Match] objects that differ only in the order of their index sets. *)
Definition match_equiv (M M' : Match) : Prop :=
  m_template M = m_template M' /\ m_crit M = m_crit M' /\
  m_indexes M ≡ₚ m_indexes M' /\ m_components M = m_components M'.

#[export] Instance match_equiv_equiv : Equivalence match_equiv.
Proof.
  split.
  - intros M. unfold match_equiv. done.
  - intros M M' (? & ? & ? & ?). unfold match_equiv. done.
  - intros M1 M2 M3 (? & ? & ? & ?) (? & ? & ? & ?). unfold match_equiv.
    split; [congruence|]. split; [congruence|]. split; [by etrans|congruence].
Qed.

#[export] Instance addComp_proper (d : data) : Proper (match_equiv ==> match_equiv) (addComp d).
Proof. intros M M' (? & ? & ? & Hc). unfold match_equiv. simpl. by rewrite Hc. Qed.

#[export] Instance reset_proper : Proper (match_equiv ==> match_equiv) reset.
Proof. intros M M' (? & ? & ? & ?). unfold match_equiv. done. Qed.

#[export] Instance score_data_perm (mode : score_mode) :
  Proper ((≡ₚ) ==> eq ==> eq) (score_data mode).
Proof. intros idx idx' Hp d ? <-. unfold score_data. by rewrite Hp. Qed.

#[export] Instance fresh_scores_perm (mode : score_mode) :
  Proper ((≡ₚ) ==> eq ==> eq) (fresh_scores mode).
Proof.
  intros idx idx' Hp ds ? <-. unfold fresh_scores. generalize (@nil (string * Z)).
  induction ds as [|d ds IH]; intros acc; simpl; [done|]. by rewrite IH, Hp.
Qed.

#[export] Instance matchOverlapMatrix_proper : Proper (match_equiv ==> eq) matchOverlapMatrix.
Proof.
  intros M M' (_ & _ & Hp & Hc). unfold matchOverlapMatrix, matchOverlapMatrix_mode.
  by rewrite Hp, Hc.
Qed.
