(* ===== verification/PyIO.v ===== *)
(** * The script's I/O: [src/pyMatch.py] lines 51-137

    The world the script runs in and the functions of [pyMatch.py] that
    touch it: the [pyMatchRes] class (report path, [getFullPath],
    [getImPath], [writeHeader], [addResult], [addImages]), [readInput] and [checkInput].  The world holds the text
    files [open(f)] can read, the paths [os.path.isfile] accepts, the
    images MRtools can load, the working directory, the paths
    [open(p, 'w'/'a')] refuses, the files the script writes and the
    lines it prints.  Every function is a computation of the monad
    [stexn world pyexn]: a Python exception is [Raise], and the world it
    leaves (files written so far, lines printed) is kept, as in CPython.

    The theorems: [writeHeader] on a list (C2); [checkInput]'s exit and
    its dict (C4, C22, C23); [readInput]'s round trip (C20) and the
    cleanliness of what it returns (C32); the report path (C21);
    [getImPath] and [addImages] raising [AttributeError] on the
    attribute [imagepath] that is never set (C34); and the frame
    lemmas the proofs of [main] use, among them [writes_within P], the preorder of a world whose
    new files all have paths in [P]. *)

From S2P Require Import Prelude PyLib Volume IndexSelector Scorer MatchSession.
From Stdlib Require Import Ascii.

Local Open Scope string_scope.
Local Open Scope mr_scope.

(** ** The world *)

Record world : Type := mkWorld {
  w_texts : gmap string string;
  w_isfile : gset string;
  w_images : gmap string image;
  w_cwd : string;
  w_unwritable : gset string;
  w_out : gmap string string;
  w_stdout : list string
}.

Abbreviation PY := (stexn world pyexn).

Definition set_out (o : gmap string string) (w : world) : world :=
  mkWorld (w_texts w) (w_isfile w) (w_images w) (w_cwd w) (w_unwritable w) o (w_stdout w).

Definition set_stdout (l : list string) (w : world) : world :=
  mkWorld (w_texts w) (w_isfile w) (w_images w) (w_cwd w) (w_unwritable w) (w_out w) l.

(** [print s]. *)
Definition py_print (s : string) : PY unit :=
  smodify (fun w => set_stdout (app (w_stdout w) [s]) w).

(** [sys.exit()] is [SystemExit(None)]: exit status 0. *)
Definition py_exit (code : option Z) : PY unit := sthrow (SystemExit code).

(** [open(p, 'w')] truncates, [open(p, 'a')] creates if missing. *)
Definition py_open_write (p : string) (append : bool) : PY unit :=
  w <- sget ;;
  if bool_decide (p ∈ w_unwritable w) then sthrow (IOError p)
  else smodify (fun w => set_out (<[p := if append then default "" (w_out w !! p) else ""]> (w_out w)) w).

(** [f.write(x)]: [x] must be a [str]. *)
Definition py_write (p : string) (x : pyval) : PY unit :=
  match x with
  | PStr s => smodify (fun w => set_out (<[p := default "" (w_out w !! p) +:+ s]> (w_out w)) w)
  | _ => sthrow TypeError
  end.

(** [a + b], raising [TypeError]. *)
Definition py_plus (a b : pyval) : PY pyval :=
  match py_add a b with Some v => sret v | None => sthrow TypeError end.

(** A local variable read: [UnboundLocalError] when never assigned. *)
Definition get_var (name : string) (o : option string) : PY string :=
  match o with Some s => sret s | None => sthrow (NameError name) end.

(** [MRtools.Data(path, '3D')]. *)
Definition mr_Data (path : string) : PY data :=
  w <- sget ;;
  match w_images w !! path with
  | Some img => match load_data path img with
                | Some d => sret d
                | None => sthrow (MRtoolsError path)
                end
  | None => sthrow (MRtoolsError path)
  end.

(** ** The [pyMatchRes] class *)

(** The instance attributes.  [r_imagepath] is the attribute [imagepath]
    that [getImPath] and [addImages] read: [None] while the instance has
    no such attribute. *)
Record pyMatchRes : Type := mkRes {
  r_output : string;
  r_file : string;
  r_name : string;
  r_fullpath : string;
  r_imagepath : option string
}.

Definition setPath (r : pyMatchRes) : pyMatchRes :=
  let '(base, _) := py_splitext (py_basename (r_file r)) in
  mkRes (r_output r) (r_file r) base (r_output r +:+ "/" +:+ base +:+ "_beststats.txt")
    (r_imagepath r).

(** [pyMatchRes(output, filename)]: [__init__] assigns [output], [file],
    [name] and [fullpath] ([name] and [fullpath] start as [None], and
    [setPath] sets both); it does not assign [imagepath]. *)
Definition pyMatchRes_new (output filename : string) : pyMatchRes :=
  setPath (mkRes output filename "" "" None).

(** [getFullPath()]. *)
Definition getFullPath (r : pyMatchRes) : PY string := sret (r_fullpath r).

(** [self.imagepath]: an attribute read, raising [AttributeError] when the
    instance has no such attribute. *)
Definition get_imagepath (r : pyMatchRes) : PY string :=
  match r_imagepath r with
  | Some p => sret p
  | None => sthrow (AttributeError "imagepath")
  end.

(** [getImPath()]. *)
Definition getImPath (r : pyMatchRes) : PY string := get_imagepath r.

(** [addImages(imagelist)]: append [str(imgname) + "\n"] per image. *)
Definition addImages (r : pyMatchRes) (imagelist : list string) : PY unit :=
  p <- get_imagepath r ;;
  py_open_write p true ;;;
  sfor imagelist (fun imgname => py_write p (PStr (imgname +:+ nl))).

Definition cannot_write (r : pyMatchRes) : PY unit :=
  py_print ("Cannot write file " +:+ r_fullpath r +:+ ". Exiting") ;;; py_exit None.

Definition writeHeader (r : pyMatchRes) (header : pyval) : PY unit :=
  stry (py_open_write (r_fullpath r) false ;;;
        s <- py_plus header (PStr nl) ;;
        py_write (r_fullpath r) s)
       (fun _ => cannot_write r).

Definition addResult (r : pyMatchRes) (result : pyval) : PY unit :=
  stry (py_open_write (r_fullpath r) true ;;;
        py_write (r_fullpath r) result ;;;
        py_write (r_fullpath r) (PStr nl))
       (fun _ => cannot_write r).

(** ** [readInput] and [checkInput] *)

(** [line.rstrip("\n").rstrip()]. *)
Definition strip_line (line : string) : string := py_rstrip (py_rstrip_nl line).

Definition readInput (f : string) : PY (list string) :=
  py_print ("Reading input file " +:+ f) ;;;
  stry (w <- sget ;;
        match w_texts w !! f with
        | Some contents => sret (map strip_line (py_lines contents))
        | None => sthrow (IOError f)
        end)
       (fun _ => py_print ("Cannot open file " +:+ f +:+ ". Exiting") ;;;
                 py_exit None ;;; sret []).

(** The component paths of one subject that exist, in the list's order,
    and the running count. *)
Definition check_comp (sub : string) (acc : list string * Z) (comp : string) :
    PY (list string * Z) :=
  w <- sget ;;
  let p := sub +:+ "/" +:+ comp in
  if bool_decide (p ∈ w_isfile w) then sret (app (fst acc) [p], snd acc + 1) else sret acc.

Definition check_sub (comps : list string) (acc : pydict string (list string) * Z)
    (sub : string) : PY (pydict string (list string) * Z) :=
  if bool_decide (sub = "") then sret acc
  else r <- sfold comps (check_comp sub) ([], snd acc) ;;
       py_print ("Found " +:+ py_str_Z (Z.of_nat (length (fst r))) +:+
                 " components for subject " +:+ sub +:+ "!") ;;;
       sret (dict_set sub (fst r) (fst acc), snd r).

Definition checkInput (subinput compinput : list string) : PY (pydict string (list string)) :=
  py_print "Checking for all components images for each output/subject..." ;;;
  r <- sfold subinput (check_sub compinput) ([], 0) ;;
  if bool_decide (snd r = 0) then
    py_print "No subject images found - analysis will not be continued." ;;;
    py_exit (Some 32) ;;; sret (fst r)
  else sret (fst r).

(** ** Frame conditions of the script's functions *)

(** The part of the world the script only reads. *)
Definition env_of (w : world) : gmap string string * gset string * gmap string image * string *
    gset string :=
  (w_texts w, w_isfile w, w_images w, w_cwd w, w_unwritable w).

Lemma set_out_set_out (o o' : gmap string string) (w : world) :
  set_out o (set_out o' w) = set_out o w.
Proof. reflexivity. Qed.

(** Writing a file twice keeps the last contents. *)
Lemma out_insert_insert (o : gmap string string) (p a b : string) :
  <[p:=a]> (<[p:=b]> o) = <[p:=a]> o.
Proof. apply insert_insert_eq. Qed.

Lemma py_print_env (s : string) : stable env_of (py_print s).
Proof. by apply stable_modify. Qed.

Lemma py_print_out (s : string) : stable w_out (py_print s).
Proof. by apply stable_modify. Qed.

Lemma py_open_write_env (p : string) (b : bool) : stable env_of (py_open_write p b).
Proof. unfold py_open_write. solve_stable. by apply stable_modify. Qed.

Lemma py_write_env (p : string) (x : pyval) : stable env_of (py_write p x).
Proof. unfold py_write. solve_stable. by apply stable_modify. Qed.

#[export] Hint Resolve py_print_env py_print_out py_open_write_env py_write_env : stable.

Lemma readInput_out (f : string) : stable w_out (readInput f).
Proof. unfold readInput, py_exit. solve_stable. Qed.

(** Reading a readable list: one line printed, the stripped lines returned. *)
Lemma readInput_ok (f c : string) (w : world) :
  w_texts w !! f = Some c ->
  readInput f w = (Ok (map strip_line (py_lines c)),
                   set_stdout (app (w_stdout w) ["Reading input file " +:+ f]) w).
Proof. intros Hc. unfold readInput, sbind, py_print, smodify, stry, sget. simpl. by rewrite Hc. Qed.

(** An unreadable list: both messages printed, then [sys.exit()]. *)
Lemma readInput_fail (f : string) (w : world) :
  w_texts w !! f = None ->
  readInput f w = (Raise (SystemExit None),
    set_stdout (app (w_stdout w) ["Reading input file " +:+ f; "Cannot open file " +:+ f +:+ ". Exiting"]) w).
Proof.
  intros Hf. unfold readInput, sbind, py_print, smodify, stry, sget, py_exit, sthrow. simpl.
  rewrite Hf. simpl. by rewrite <- app_assoc.
Qed.

Lemma checkInput_out (subs comps : list string) : stable w_out (checkInput subs comps).
Proof. unfold checkInput, check_sub, check_comp, py_exit. solve_stable. Qed.


Lemma mr_Data_out (p : string) : stable w_out (mr_Data p).
Proof. unfold mr_Data. solve_stable. Qed.

Lemma get_var_out (n : string) (o : option string) : stable w_out (get_var n o).
Proof. unfold get_var. solve_stable. Qed.

#[export] Hint Resolve readInput_out checkInput_out mr_Data_out get_var_out : stable.

(** ** Which files a computation creates

    [writes_within P w w']: every file written in [w'] was already written
    in [w] or has a path satisfying [P]. *)
Definition writes_within (P : string -> Prop) (w w' : world) : Prop :=
  forall p, is_Some (w_out w' !! p) -> is_Some (w_out w !! p) \/ P p.

#[export] Instance writes_within_preorder (P : string -> Prop) : PreOrder (writes_within P).
Proof.
  split; [by intros w p; left|].
  intros w1 w2 w3 H12 H23 p Hp. destruct (H23 p Hp) as [H|]; [by apply H12|by right].
Qed.

Lemma writes_within_out (P : string -> Prop) (w w' : world) :
  w_out w' = w_out w -> writes_within P w w'.
Proof. intros Ho p. rewrite Ho. by left. Qed.

Lemma py_open_write_within (P : string -> Prop) (p : string) (b : bool) :
  P p -> preserves (writes_within P) (py_open_write p b).
Proof.
  intros HP w q. unfold py_open_write, sbind, sget, smodify.
  case_bool_decide; simpl; [by left|]. rewrite lookup_insert_is_Some'.
  intros [<-|]; [by right|by left].
Qed.

Lemma py_write_within (P : string -> Prop) (p : string) (x : pyval) :
  P p -> preserves (writes_within P) (py_write p x).
Proof.
  intros HP w q. destruct x; simpl; try by left.
  rewrite lookup_insert_is_Some'. intros [<-|]; [by right|by left].
Qed.

#[export] Hint Extern 2 (preserves (writes_within _) _) =>
  apply (preserves_stable _ w_out); [apply writes_within_out|solve_stable] : preserves.

Lemma writeHeader_within (P : string -> Prop) (r : pyMatchRes) (h : pyval) :
  P (r_fullpath r) -> preserves (writes_within P) (writeHeader r h).
Proof.
  intros HP. unfold writeHeader, cannot_write, py_exit, py_plus.
  solve_preserves; by apply py_open_write_within || apply py_write_within.
Qed.

Lemma addResult_within (P : string -> Prop) (r : pyMatchRes) (x : pyval) :
  P (r_fullpath r) -> preserves (writes_within P) (addResult r x).
Proof.
  intros HP. unfold addResult, cannot_write, py_exit.
  solve_preserves; by apply py_open_write_within || apply py_write_within.
Qed.

(** ** The header is never written *)

(** C2.  [writeHeader] is called with a list; [list + str] raises [TypeError]
    inside the [try], whose bare [except] prints and calls [sys.exit()]:
    the report is truncated (when it can be opened) and the run ends with
    status 0. *)
Lemma writeHeader_list (r : pyMatchRes) (l : list pyval) (w : world) :
  writeHeader r (PList l) w =
  (Raise (SystemExit None),
   set_stdout (app (w_stdout w) ["Cannot write file " +:+ r_fullpath r +:+ ". Exiting"])
     (if bool_decide (r_fullpath r ∈ w_unwritable w) then w
      else set_out (<[r_fullpath r := ""]> (w_out w)) w)).
Proof. unfold writeHeader, py_open_write, stry, sbind, sget. case_bool_decide; reflexivity. Qed.


(** ** Loading, appending and their lemmas *)

Definition data_of (w : world) (path : string) : option data :=
  w_images w !! path ≫= load_data path.

(** The components of [imgs] MRtools loads, in order: the non-empty
    names it can read (line 208 skips empty names). *)
Fixpoint loaded (w : world) (imgs : list string) : list data :=
  match imgs with
  | [] => []
  | img :: imgs' =>
      if bool_decide (img = "") then loaded w imgs'
      else match data_of w img with
           | Some d => d :: loaded w imgs'
           | None => loaded w imgs'
           end
  end.

Definition score_lines (l : list (string * Z)) : string :=
  foldr String.append "" (map (fun '(i, s) => i +:+ tab +:+ py_str_Z s +:+ nl) l).

(** [w'] is [w] with [s] appended to file [p] and nothing else written. *)
Definition appended (p s : string) (w w' : world) : Prop :=
  env_of w' = env_of w /\
  (forall q, q <> p -> w_out w' !! q = w_out w !! q) /\
  default "" (w_out w' !! p) = default "" (w_out w !! p) +:+ s.

Lemma appended_refl (p : string) (w w' : world) :
  env_of w' = env_of w -> w_out w' = w_out w -> appended p "" w w'.
Proof. intros He Ho. split; [done|]. rewrite Ho. split; [done|]. by rewrite string_app_nil_r. Qed.

Lemma appended_trans (p s1 s2 : string) (w1 w2 w3 : world) :
  appended p s1 w1 w2 -> appended p s2 w2 w3 -> appended p (s1 +:+ s2) w1 w3.
Proof.
  intros (He1 & Ho1 & Hp1) (He2 & Ho2 & Hp2). split; [congruence|]. split.
  - intros q Hq. by rewrite Ho2, Ho1.
  - by rewrite Hp2, Hp1, string_app_assoc.
Qed.

Lemma data_of_env (w w' : world) (p : string) : env_of w' = env_of w -> data_of w' p = data_of w p.
Proof. unfold env_of, data_of. intros [= _ _ -> _ _]. done. Qed.

Lemma unwritable_env (w w' : world) : env_of w' = env_of w -> w_unwritable w' = w_unwritable w.
Proof. unfold env_of. by intros [= _ _ _ _ ->]. Qed.

Lemma mr_Data_ok (w : world) (p : string) (d : data) :
  data_of w p = Some d -> mr_Data p w = (Ok d, w).
Proof.
  unfold data_of, mr_Data, sbind, sget. intros H.
  destruct (w_images w !! p) as [img|]; simpl in *; [|done].
  by rewrite H.
Qed.

Lemma mr_Data_fail (w : world) (p : string) :
  data_of w p = None -> mr_Data p w = (Raise (MRtoolsError p), w).
Proof.
  unfold data_of, mr_Data, sbind, sget. intros H.
  destruct (w_images w !! p) as [img|]; simpl in *; [|done].
  by rewrite H.
Qed.

Lemma cwd_env (w w' : world) : env_of w' = env_of w -> w_cwd w' = w_cwd w.
Proof. unfold env_of. by intros [= _ _ _ -> _]. Qed.

Lemma loaded_env (w w' : world) (imgs : list string) :
  env_of w' = env_of w -> loaded w' imgs = loaded w imgs.
Proof.
  intros He. induction imgs as [|img imgs IH]; simpl; [done|].
  by rewrite (data_of_env w w'), IH.
Qed.

Lemma data_of_name (w : world) (p : string) (d : data) : data_of w p = Some d -> d_name d = p.
Proof.
  unfold data_of, load_data. destruct (w_images w !! p) as [img|]; simpl; [|done].
  destruct (resolve3D _); [|done]. by intros [= <-].
Qed.

Lemma loaded_names (w : world) (imgs : list string) (k : string) :
  k ∈ map d_name (loaded w imgs) <-> k ∈ imgs /\ k <> "" /\ is_Some (data_of w k).
Proof.
  induction imgs as [|img imgs IH]; simpl; [set_solver|].
  rewrite elem_of_cons. case_bool_decide as Hi.
  - rewrite IH. subst. naive_solver.
  - destruct (data_of w img) as [d|] eqn:Ed; simpl.
    + rewrite elem_of_cons, IH, (data_of_name w img d Ed).
      split; [intros [->|H]; [rewrite Ed; eauto|tauto]|].
      intros [[->|Hin] Hk]; [by left|by right].
    + rewrite IH. split; [tauto|]. intros [[->|Hin] [Hk Hs]]; [|tauto].
      rewrite Ed in Hs. by destruct Hs.
Qed.

Lemma addResult_ok (r : pyMatchRes) (s : string) (w : world) :
  r_fullpath r ∉ w_unwritable w ->
  exists w', addResult r (PStr s) w = (Ok tt, w') /\ appended (r_fullpath r) (s +:+ nl) w w'.
Proof.
  intros Hw. unfold addResult, py_open_write, py_write, stry, sbind, sget, smodify. cbv beta.
  rewrite bool_decide_false by done. eexists. split; [reflexivity|].
  unfold appended, set_out; simpl. split; [done|]. split.
  - intros q Hq. rewrite !lookup_insert_ne; congruence.
  - rewrite !lookup_insert_eq. simpl. by rewrite string_app_assoc.
Qed.

Lemma appended_after (p s : string) (w w1 w2 : world) :
  env_of w1 = env_of w -> w_out w1 = w_out w -> appended p s w1 w2 -> appended p s w w2.
Proof. intros He Ho Ha. apply (appended_trans p "" s w w1 w2); [by apply appended_refl|done]. Qed.


(** ** [checkInput] as a function *)

(** The paths [sub/comp] that exist, in the order of [comps]. *)
Definition sub_paths (w : world) (sub : string) (comps : list string) : list string :=
  List.filter (fun p => bool_decide (p ∈ w_isfile w)) (map (fun comp => sub +:+ "/" +:+ comp) comps).

Definition found_step (w : world) (comps : list string) (d : pydict string (list string))
    (sub : string) : pydict string (list string) :=
  if bool_decide (sub = "") then d else dict_set sub (sub_paths w sub comps) d.

(** The dict [checkInput] returns: every non-empty subject, with the
    paths of its components that exist (possibly none). *)
Definition found_of (w : world) (subs comps : list string) : pydict string (list string) :=
  fold_left (found_step w comps) subs [].

Definition count_step (w : world) (comps : list string) (sub : string) : Z :=
  if bool_decide (sub = "") then 0 else Z.of_nat (length (sub_paths w sub comps)).

Lemma check_comps_ok (w : world) (sub : string) (comps : list string) (tmp : list string) (n : Z) :
  sfold comps (check_comp sub) (tmp, n) w =
  (Ok (app tmp (sub_paths w sub (comps)), n + Z.of_nat (length (sub_paths w sub comps))), w).
Proof.
  revert tmp n. induction comps as [|c comps IH]; intros tmp n; simpl.
  - unfold sub_paths, sret. simpl. by rewrite app_nil_r, Z.add_0_r.
  - unfold sbind at 1, check_comp, sbind, sget. cbv beta. unfold sub_paths. cbn [map List.filter].
    case_bool_decide; unfold sret; rewrite IH; unfold sub_paths; [|done].
    simpl. rewrite <- app_assoc. simpl.
    assert (Hz : forall k : nat, n + 1 + Z.of_nat k = n + Z.of_nat (S k)) by lia. by rewrite Hz.
Qed.

Lemma check_subs_ok (w : world) (subs comps : list string) (d : pydict string (list string)) (n : Z) :
  exists w', sfold subs (check_sub comps) (d, n) w =
    (Ok (fold_left (found_step w comps) subs d, n + sumZ (map (count_step w comps) subs)), w') /\
    env_of w' = env_of w /\ w_out w' = w_out w.
Proof.
  revert d n w. induction subs as [|sub subs IH]; intros d n w; cbn [sfold fold_left map].
  - exists w. unfold sret, sumZ. simpl. by rewrite Z.add_0_r.
  - rewrite sumZ_cons. unfold check_sub at 1, found_step at 2, count_step at 1.
    case_bool_decide.
    + rewrite sbind_ret_l, Z.add_0_l. apply IH.
    + rewrite sbind_assoc. unfold sbind at 1. rewrite check_comps_ok. cbv beta.
      rewrite sbind_assoc. unfold sbind at 1, py_print, smodify. cbv beta.
      rewrite sbind_ret_l. cbn [fst snd app].
      match goal with |- context [sfold subs _ _ ?W] => set (w1 := W) end.
      destruct (IH (dict_set sub (sub_paths w sub comps) d)
                   (n + Z.of_nat (length (sub_paths w sub comps))) w1) as (w' & Hr & He & Ho).
      exists w'. split; [|done]. rewrite Hr. simpl. by rewrite Z.add_assoc.
Qed.


Lemma checkInput_run (subs comps : list string) (w : world) :
  exists w', env_of w' = env_of w /\ w_out w' = w_out w /\
    checkInput subs comps w =
    (if bool_decide (sumZ (map (count_step w comps) subs) = 0)
     then Raise (SystemExit (Some 32)) else Ok (found_of w subs comps), w').
Proof.
  unfold checkInput. unfold sbind at 1, py_print at 1, smodify at 1. cbv beta iota.
  set (w1 := set_stdout _ w).
  destruct (check_subs_ok w1 subs comps [] 0) as (w2 & Hr & He & Ho).
  unfold sbind at 1. cbv beta. rewrite Hr. cbn [fst snd]. rewrite Z.add_0_l.
  change (count_step w1 comps) with (count_step w comps).
  change (fold_left (found_step w1 comps) subs []) with (found_of w subs comps).
  case_bool_decide.
  - unfold sbind, py_print, smodify, py_exit, sthrow. eexists.
    split; [|split]; cycle 2; [reflexivity|exact He|exact Ho].
  - unfold sret. eexists. split; [|split]; cycle 2; [reflexivity|exact He|exact Ho].
Qed.

Lemma count_zero (w : world) (subs comps : list string) :
  sumZ (map (count_step w comps) subs) = 0 <->
  forall sub, sub ∈ subs -> sub <> "" -> sub_paths w sub comps = [].
Proof.
  rewrite sumZ_map_zero; [|intros sub _; unfold count_step; case_bool_decide; lia].
  split.
  - intros H sub Hs Hne. specialize (H sub Hs). unfold count_step in H.
    rewrite bool_decide_false in H by done. apply nil_length_inv. lia.
  - intros H sub Hs. unfold count_step. case_bool_decide; [done|]. by rewrite H.
Qed.

(** C4.  [checkInput] writes nothing, and exits with status 32 exactly
    when no listed component exists under any non-empty subject; otherwise
    it returns every non-empty subject with the paths of its components
    that exist, in the order of the component list (an empty list for a
    subject with none). *)
Theorem checkInput_spec (subs comps : list string) (w : world) :
  w_out (snd (checkInput subs comps w)) = w_out w /\
  ((forall sub, sub ∈ subs -> sub <> "" -> sub_paths w sub comps = []) ->
     fst (checkInput subs comps w) = Raise (SystemExit (Some 32))) /\
  ((exists sub, sub ∈ subs /\ sub <> "" /\ sub_paths w sub comps <> []) ->
     fst (checkInput subs comps w) = Ok (found_of w subs comps)).
Proof.
  destruct (checkInput_run subs comps w) as (w' & _ & Ho & ->). simpl.
  split; [done|]. split.
  - intros H. by rewrite bool_decide_true by (by apply count_zero).
  - intros (sub & Hs & Hne & Hp). rewrite bool_decide_false; [done|].
    rewrite count_zero. intros H. by apply Hp, H.
Qed.

(** ** Round trips and the found dict *)

(** A file written as one line per entry, each followed by ["\n"]. *)
Definition unlines (ls : list string) : string := foldr (fun l acc => l +:+ nl +:+ acc) "" ls.

(** C20.  [readInput] reads back a list written one entry per line: for
    entries with no newline and no trailing whitespace, the stripped lines
    of the file are the entries. *)
Theorem readInput_roundtrip (f : string) (ls : list string) (w : world) :
  Forall (fun l => has_char "010"%char l = false /\ py_rstrip l = l) ls ->
  w_texts w !! f = Some (unlines ls) ->
  readInput f w = (Ok ls, set_stdout (app (w_stdout w) ["Reading input file " +:+ f]) w).
Proof.
  intros Hls Hf. rewrite (readInput_ok f (unlines ls) w Hf). do 2 f_equal.
  clear Hf. induction Hls as [|l ls [Hn Hs] _ IH]; [done|]. simpl.
  rewrite py_lines_line by done. cbn [map]. f_equal; [|exact IH].
  unfold strip_line. by rewrite py_rstrip_nl_nl, py_rstrip_nl_id.
Qed.

Lemma strip_line_clean (c l : string) :
  l ∈ py_lines c -> has_char "010"%char (strip_line l) = false /\ py_rstrip (strip_line l) = strip_line l.
Proof.
  intros Hl. destruct (py_lines_shape c l Hl) as (s & Hs & [-> | ->]); unfold strip_line;
    rewrite ?py_rstrip_nl_nl, py_rstrip_nl_id by done;
    split; [by apply has_char_rstrip|apply rstrip_by_idem|by apply has_char_rstrip|apply rstrip_by_idem].
Qed.

(** C32.  What [readInput] returns is a list of clean names: no entry holds
    a newline or ends in whitespace (the converse of C20). *)
Theorem readInput_clean (f : string) (w w' : world) (l : list string) :
  readInput f w = (Ok l, w') ->
  Forall (fun s => has_char "010"%char s = false /\ py_rstrip s = s) l.
Proof.
  destruct (w_texts w !! f) as [c|] eqn:Hf.
  - rewrite (readInput_ok f c w Hf). intros [= <- _].
    apply Forall_forall. intros s (l0 & -> & Hl0)%list_elem_of_fmap.
    by apply (strip_line_clean c).
  - unfold readInput, sbind, py_print, smodify, stry, sget, py_exit, sthrow, sret. simpl.
    rewrite Hf. simpl. intros H. inversion H; subst; constructor.
Qed.

Lemma setPath_imagepath (r : pyMatchRes) : r_imagepath (setPath r) = r_imagepath r.
Proof. unfold setPath. by destruct (py_splitext _). Qed.

(** C34.  [pyMatchRes.__init__] (through [setPath]) never assigns
    [self.imagepath], so on every object [pyMatchRes(output, filename)]
    builds, for every image list and every world, [getImPath()] and
    [addImages(imagelist)] raise [AttributeError] before opening any
    file: the world is left unchanged. *)
Theorem addImages_raises (output filename : string) (imagelist : list string) (w : world) :
  getImPath (pyMatchRes_new output filename) w = (Raise (AttributeError "imagepath"), w) /\
  addImages (pyMatchRes_new output filename) imagelist w = (Raise (AttributeError "imagepath"), w).
Proof.
  unfold getImPath, addImages, get_imagepath, pyMatchRes_new.
  rewrite setPath_imagepath. split; reflexivity.
Qed.

(** C21.  The report path: [setPath] names the report
    [<output>/<base>_beststats.txt], where [base] is the template's file
    name without its last extension ([base] followed by that extension is
    the file name) and holds no ['/']. *)
Theorem pyMatchRes_new_path (output file : string) :
  r_fullpath (pyMatchRes_new output file) =
    output +:+ "/" +:+ r_name (pyMatchRes_new output file) +:+ "_beststats.txt" /\
  r_name (pyMatchRes_new output file) +:+ snd (py_splitext (py_basename file)) = py_basename file /\
  has_char "/"%char (r_name (pyMatchRes_new output file)) = false.
Proof.
  unfold pyMatchRes_new, setPath. simpl.
  pose proof (py_splitext_app (py_basename file)) as Happ.
  pose proof (py_basename_no_slash file) as Hb.
  destruct (py_splitext (py_basename file)) as [base ext]. simpl in *.
  split; [done|]. split; [done|].
  rewrite <- Happ, has_char_app in Hb. by apply orb_false_iff in Hb as [-> _].
Qed.

Section Found.
Context (w : world) (comps : list string).

Lemma found_keys_acc (subs : list string) (acc : pydict string (list string)) (k : string) :
  k ∈ (fold_left (found_step w comps) subs acc).*1 <-> k ∈ acc.*1 \/ (k ∈ subs /\ k <> "").
Proof.
  revert acc. induction subs as [|sub subs IH]; intros acc; simpl; [set_solver|].
  rewrite IH. unfold found_step. case_bool_decide; [subst; set_solver|].
  rewrite dict_set_keys. set_solver.
Qed.

Lemma found_nodup_acc (subs : list string) (acc : pydict string (list string)) :
  NoDup acc.*1 -> NoDup (fold_left (found_step w comps) subs acc).*1.
Proof.
  revert acc. induction subs as [|sub subs IH]; intros acc Hnd; simpl; [done|].
  apply IH. unfold found_step. case_bool_decide; [done|]. by apply dict_set_nodup.
Qed.

Lemma found_get_notin (subs : list string) (acc : pydict string (list string)) (k : string) :
  k ∉ subs -> dict_get k (fold_left (found_step w comps) subs acc) = dict_get k acc.
Proof.
  revert acc. induction subs as [|sub subs IH]; intros acc Hk; simpl; [done|].
  rewrite IH by set_solver. unfold found_step. case_bool_decide; [done|].
  apply dict_get_set_ne. set_solver.
Qed.

Lemma found_get (subs : list string) (acc : pydict string (list string)) (sub : string) :
  sub ∈ subs -> sub <> "" ->
  dict_get sub (fold_left (found_step w comps) subs acc) = Some (sub_paths w sub comps).
Proof.
  revert acc. induction subs as [|s subs IH]; intros acc Hin Hne; [set_solver|]. simpl.
  destruct (decide (sub ∈ subs)) as [Hs|Hs]; [by apply IH|].
  apply elem_of_cons in Hin as [->|]; [|done].
  rewrite found_get_notin by done. unfold found_step.
  rewrite bool_decide_false by done. apply dict_get_set_eq.
Qed.

Lemma found_get_inv (subs : list string) (acc : pydict string (list string)) (k : string)
    (ps : list string) :
  dict_get k (fold_left (found_step w comps) subs acc) = Some ps ->
  dict_get k acc = Some ps \/ ps = sub_paths w k comps.
Proof.
  revert acc. induction subs as [|sub subs IH]; intros acc Hg; simpl in *; [by left|].
  destruct (IH _ Hg) as [Hacc|]; [|by right]. unfold found_step in Hacc.
  case_bool_decide; [by left|]. destruct (decide (sub = k)) as [->|Hne].
  - rewrite dict_get_set_eq in Hacc. right. congruence.
  - rewrite dict_get_set_ne in Hacc by done. by left.
Qed.

Lemma sub_paths_spec (sub p : string) :
  p ∈ sub_paths w sub comps <->
  p ∈ w_isfile w /\ exists comp, comp ∈ comps /\ p = sub +:+ "/" +:+ comp.
Proof.
  unfold sub_paths. rewrite list_elem_of_In, filter_In, in_map_iff, bool_decide_eq_true.
  setoid_rewrite list_elem_of_In. naive_solver.
Qed.
End Found.

(** What a normal return of [checkInput] holds for a non-empty listed subject. *)
Lemma checkInput_ok_get (subs comps : list string) (w w' : world)
    (found : pydict string (list string)) (sub : string) :
  checkInput subs comps w = (Ok found, w') -> sub ∈ subs -> sub <> "" ->
  dict_get sub found = Some (sub_paths w sub comps).
Proof.
  destruct (checkInput_run subs comps w) as (w1 & _ & _ & ->).
  case_bool_decide; [discriminate|]. intros [= <- _] Hs Hne. by apply found_get.
Qed.

(** C22.  The dict [checkInput] returns holds each non-empty subject of
    the list once, mapped to the paths [sub + "/" + comp] of the listed
    components that exist, and nothing else. *)
Theorem checkInput_found (subs comps : list string) (w w' : world)
    (found : pydict string (list string)) :
  checkInput subs comps w = (Ok found, w') ->
  (forall sub, sub ∈ found.*1 <-> sub ∈ subs /\ sub <> "") /\ NoDup found.*1 /\
  (forall sub, sub ∈ subs -> sub <> "" -> dict_get sub found = Some (sub_paths w sub comps)) /\
  (forall sub ps p, dict_get sub found = Some ps ->
     p ∈ ps <-> p ∈ w_isfile w /\ exists comp, comp ∈ comps /\ p = sub +:+ "/" +:+ comp).
Proof.
  destruct (checkInput_run subs comps w) as (w1 & _ & _ & ->).
  case_bool_decide; [discriminate|]. intros [= <- _]. unfold found_of.
  split; [intros sub; rewrite found_keys_acc; set_solver|].
  split; [apply found_nodup_acc; constructor|].
  split; [intros sub Hs Hne; by apply found_get|].
  intros sub ps p Hg. rewrite <- sub_paths_spec.
  apply found_get_inv in Hg as [Hg| ->]; [done|reflexivity].
Qed.

(** C23.  [checkInput] joins a subject and a component by plain string
    concatenation [sub + "/" + comp], so one existing file can belong to
    two listed subjects: whenever [a + "/" + ca] and [b + "/" + cb] are the
    same existing path (["a"] with ["b/c"] and ["a/b"] with ["c"], say),
    the returned dict lists that path under both [a] and [b], and the
    subject loop scores it once for each. *)
Theorem checkInput_shared_path (subs comps : list string) (w w' : world)
    (found : pydict string (list string)) (a b ca cb : string) :
  checkInput subs comps w = (Ok found, w') ->
  a ∈ subs -> b ∈ subs -> a <> "" -> b <> "" -> ca ∈ comps -> cb ∈ comps ->
  a +:+ "/" +:+ ca = b +:+ "/" +:+ cb -> a +:+ "/" +:+ ca ∈ w_isfile w ->
  exists pa pb, dict_get a found = Some pa /\ dict_get b found = Some pb /\
    a +:+ "/" +:+ ca ∈ pa /\ a +:+ "/" +:+ ca ∈ pb.
Proof.
  intros Hc Ha Hb Ha0 Hb0 Hca Hcb Heq Hf.
  exists (sub_paths w a comps), (sub_paths w b comps).
  split; [by eapply checkInput_ok_get|]. split; [by eapply checkInput_ok_get|].
  rewrite !sub_paths_spec. split; split; [done|by eauto|done|]. rewrite Heq. by eauto.
Qed.

Lemma checkInput_shared_path_witness :
  checkInput ["a"; "a/b"] ["b/c"; "c"] (mkWorld ∅ {[ "a/b/c" ]} ∅ "/" ∅ ∅ []) =
    (Ok [("a", ["a/b/c"]); ("a/b", ["a/b/c"])],
     snd (checkInput ["a"; "a/b"] ["b/c"; "c"] (mkWorld ∅ {[ "a/b/c" ]} ∅ "/" ∅ ∅ []))) /\
  exists pa pb, dict_get "a" [("a", ["a/b/c"]); ("a/b", ["a/b/c"])] = Some pa /\
    dict_get "a/b" [("a", ["a/b/c"]); ("a/b", ["a/b/c"])] = Some pb /\
    "a" +:+ "/" +:+ "b/c" ∈ pa /\ "a" +:+ "/" +:+ "b/c" ∈ pb.
Proof.
  assert (Hc : checkInput ["a"; "a/b"] ["b/c"; "c"] (mkWorld ∅ {[ "a/b/c" ]} ∅ "/" ∅ ∅ []) =
    (Ok [("a", ["a/b/c"]); ("a/b", ["a/b/c"])],
     snd (checkInput ["a"; "a/b"] ["b/c"; "c"] (mkWorld ∅ {[ "a/b/c" ]} ∅ "/" ∅ ∅ []))))
    by (vm_compute; reflexivity).
  split; [exact Hc|].
  apply (checkInput_shared_path _ _ _ _ _ "a" "a/b" "b/c" "c" Hc);
    try set_solver; try done; vm_compute; set_solver.
Defined.
