(* ===== verification/PyMatch.v ===== *)
(** * The script's [main]: [src/pyMatch.py] lines 140-269

    The option loop, the template work (lines 181-183), the subject loop
    (lines 201-266) and [main].  [main] starts from the option list
    [getopt.getopt] returns, or [None] for a [GetoptError].  The two
    [iteritems] loops iterate in the order given by a [DictOrder]; every
    general theorem holds for every such order.

    The theorems: [main] never writes a score (C1) and each of its exits
    (C5, C9 to C12, C16), with [main_exit_codes]: [sys.exit] is only
    ever called with 2, 32 or no argument; the option loop (C15); the
    template work (C6 to C8, C14, C24) and the bounds on a score (C33);
    the liveness of the session after the template work (C35);
    [main_within], the report being the only file [main] creates; the
    subject loop as a refinement of fresh per-subject scoring (C3) and
    as a run of the session machine of [MatchSession] (C18, C19), its
    load failure (C13) and its report lines (C25); and spec 8's
    scenario, on which the witnesses run. *)

From S2P Require Import Prelude PyLib Volume IndexSelector Scorer MatchSession PyIO.
From Stdlib Require Import Sorted Ascii.

Local Open Scope string_scope.
Local Open Scope mr_scope.

(** ** [main] *)

(** The local variables the option loop assigns; [None] is unassigned. *)
Record env : Type := mkEnv {
  e_input1 : option string;
  e_input2 : option string;
  e_sublist : option string;
  e_output : option string
}.

Definition env0 : env := mkEnv None None None None.

(** Lines 3-35: the module docstring [__doc__], which [usage] prints: a
    newline (the one after the opening quotes), then lines 4 to 34 each
    followed by a newline. *)
Definition pm_doc : string :=
  nl +:+ unlines
  ["";
   "pyMatch Component --> Template Matching in Python";
   "";
   "This python script uses MRtools to read in a nifti image template (Data class), and match";
   "a list of user specified images to the template (Match class).  Usage could be to match";
   "components (individual functional networks) from an individual ica analysis to the ";
   "most similar component from a group ica (group networks) analysis, OR to match a group ";
   "significant result from one modality to group networks.  The images used for matching";
   "will first be filtered (getting rid of high frequency components) and then matched.";
   "Inputs should be as follows:";
   "";
   "INPUT:";
   "-h, --help      Print this usage";
   "-s --subs=      Single column text file w/ list of subject (or group) folders containing components";
   "-t --template=  The template image to match, such as a group network";
   "-i --images =   Single column text file with a list of component images in folders";
   "-o --output=    Name of output folder.  If not specified, will use pwd";
   "";
   "If you input a list of subjects longer than one, keep in mind that each should have the";
   "corresponding component images in the designated folder.  Whether 3D or 4D, the first";
   "timepoint will be used by default to extract data.  If an image's first timepoint is";
   "empty, the script will try the second.  If the second is also empty, it will exit with";
   "error, because there is something wrong with your template or image!";
   "";
   "USAGE: python pyMatch.py --subs=sublist.txt --template=/path/to/image.nii.gz --images=imagelist.txt --output=/path/for/outfile";
   "";
   "Intended usage is for one template for 1+ subjects/groups with a list of component images.  ";
   "Currently only supports matching 3D images (if 4D input, first timepoint will be used)";
   "";
   "OUTPUT: (template_name)_bestcomps.txt and (template_name)_beststats.txt w/ top 3 components for each subject/group";
   ""].

(** Lines 101-102: [print __doc__]. *)
Definition usage : PY unit := py_print pm_doc.

(** The four independent [if]s of one pass of [for opt, arg in opts] that
    assign the option variables. *)
Definition opt_assign (e : env) (oa : string * string) : env :=
  let '(opt, arg) := oa in
  let e := if bool_decide (opt ∈ ["-t"; "--template"])
           then mkEnv (Some arg) (e_input2 e) (e_sublist e) (e_output e) else e in
  let e := if bool_decide (opt ∈ ["-i"; "--images"])
           then mkEnv (e_input1 e) (Some arg) (e_sublist e) (e_output e) else e in
  let e := if bool_decide (opt ∈ ["-s"; "--subs"])
           then mkEnv (e_input1 e) (e_input2 e) (Some arg) (e_output e) else e in
  if bool_decide (opt ∈ ["-o"; "--output"])
  then mkEnv (e_input1 e) (e_input2 e) (e_sublist e) (Some arg) else e.

(** One pass of the loop: [-h] prints the usage and exits, then the
    assignments. *)
Definition opt_step (e : env) (oa : string * string) : PY env :=
  (if bool_decide (oa.1 ∈ ["-h"; "--help"]) then usage ;;; py_exit None else sret tt) ;;;
  sret (opt_assign e oa).

(** Lines 181-183: [Match = MRtools.Match(Template)],
    [Match.setIndexCrit('>', 0)], [Match.genIndexMNI()]. *)
Definition template_work (T : data) : option Match :=
  genIndex (setIndexCrit CGt 0 (Match_init T)).

(** Lines 207-221: load one component and add it to the [Match] object. *)
Definition load_comp (M : Match) (img : string) : PY Match :=
  if bool_decide (img = "") then sret M
  else py_print img ;;;
       stry (d <- mr_Data img ;; sret (addComp d M))
            (fun _ => py_print ("Problem with " +:+ img +:+ ". Exiting!") ;;;
                      py_exit None ;;; sret M).

(** Lines 260-262: one line [<path>\t<score>] of the report. *)
Definition write_score (r : pyMatchRes) (entry : string * Z) : PY unit :=
  let '(i, score) := entry in
  py_print ("Adding " +:+ i +:+ " " +:+ py_str_Z score) ;;;
  addResult r (PStr (i +:+ tab +:+ py_str_Z score)).

Section Loop.
Context {DO : DictOrder}.

(** Lines 201-266: the body of [for subject, images in found.iteritems()]. *)
Definition subject_body (r : pyMatchRes) (M : Match) (si : string * list string) : PY Match :=
  let '(subject, images) := si in
  py_print ("Processing images for subject " +:+ subject +:+ "...") ;;;
  M <- sfold images load_comp M ;;
  if bool_decide (0 < length (m_components M))%nat then
    sfor (dict_iter (matchOverlapMatrix M)) (write_score r) ;;;
    sret (reset M)
  else py_print ("No matches for " +:+ subject +:+ "!") ;;; sret M.

Definition score_subjects (r : pyMatchRes) (found : pydict string (list string)) (M : Match) :
    PY Match :=
  sfold (dict_iter found) (subject_body r) M.

Definition main (parsed : option (list (string * string))) : PY unit :=
  opts <- (match parsed with
           | Some o => sret o
           | None => usage ;;; py_exit (Some 2) ;;; sret []
           end) ;;
  e <- sfold opts opt_step env0 ;;
  sublist <- get_var "sublist" (e_sublist e) ;;
  subfile <- readInput sublist ;;
  input2 <- get_var "input2" (e_input2 e) ;;
  imgfiles <- readInput input2 ;;
  found <- checkInput subfile imgfiles ;;
  input1 <- get_var "input1" (e_input1 e) ;;
  T <- mr_Data input1 ;;
  output <- get_var "output" (e_output e) ;;
  w <- sget ;;
  let output := if bool_decide (output = "") then w_cwd w else output in
  let r := pyMatchRes_new output (d_name T) in
  writeHeader r (PList [PStr (input1 +:+ ":template")]) ;;;
  M <- (match template_work T with Some M => sret M | None => sthrow (MRtoolsError input1) end) ;;
  py_print "Computing similarity scores..." ;;;
  _ <- score_subjects r found M ;;
  sret tt.
End Loop.

(** The process's exit status: [sys.exit()] is 0, [sys.exit(n)] is [n],
    an uncaught exception is 1. *)
Definition exit_status {A} (o : outcome pyexn A) : Z :=
  match o with
  | Ok _ => 0
  | Raise (SystemExit None) => 0
  | Raise (SystemExit (Some n)) => n
  | Raise _ => 1
  end.

(** The statuses [sys.exit(n)] is called with. *)
Definition exit_code_ok (e : pyexn) : Prop :=
  match e with SystemExit (Some n) => n = 2 \/ n = 32 | _ => True end.

(** ** Frame conditions *)

Lemma opt_step_out (e : env) (oa : string * string) : stable w_out (opt_step e oa).
Proof. unfold opt_step, usage, py_exit. solve_stable. Qed.

#[export] Hint Resolve opt_step_out : stable.

(** ** The report is never written *)

Definition all_empty (o : gmap string string) : Prop := map_Forall (fun _ c => c = "") o.

(** [m] always raises, and leaves every file empty if all were. *)
Definition never_scores {A} (m : PY A) : Prop :=
  forall w, all_empty (w_out w) ->
  (exists e, fst (m w) = Raise e) /\ all_empty (w_out (snd (m w))).

Lemma never_scores_bind_l {A B} (m : PY A) (k : A -> PY B) :
  never_scores m -> never_scores (sbind m k).
Proof.
  intros Hm w Hw. destruct (Hm w Hw) as [[e He] Ho]. unfold sbind.
  destruct (m w) as [o w']. simpl in *. subst. eauto.
Qed.

Lemma never_scores_bind_r {A B} (m : PY A) (k : A -> PY B) :
  stable w_out m -> (forall a, never_scores (k a)) -> never_scores (sbind m k).
Proof.
  intros Hm Hk w Hw. specialize (Hm w). unfold sbind.
  destruct (m w) as [[a|e] w']; simpl in *.
  - apply Hk. by rewrite Hm.
  - split; [eauto|]. by rewrite Hm.
Qed.

Lemma writeHeader_never_scores (r : pyMatchRes) (l : list pyval) :
  never_scores (writeHeader r (PList l)).
Proof.
  intros w Hw. rewrite writeHeader_list. split; [eauto|]. simpl.
  case_bool_decide; simpl; [done|]. by apply map_Forall_insert_2.
Qed.


(** ** [main] writes no score *)

Lemma main_never_scores (DO : DictOrder) (parsed : option (list (string * string))) :
  never_scores (main parsed).
Proof.
  unfold main.
  repeat first [ apply never_scores_bind_l, writeHeader_never_scores
               | apply never_scores_bind_r; [solve [unfold usage, py_exit; solve_stable]|intros] ].
Qed.

(** C1.  Whatever the options and the world, a run that starts with no
    report written ends with an exception and leaves every file it wrote
    empty: the call [writeHeader([...])] always exits before the subject
    loop, so no score line is ever written. *)
Theorem main_writes_no_score (DO : DictOrder) (parsed : option (list (string * string)))
    (w : world) :
  w_out w = ∅ ->
  (exists e, fst (main parsed w) = Raise e) /\
  map_Forall (fun _ c => c = "") (w_out (snd (main parsed w))).
Proof.
  intros Hw. apply main_never_scores. rewrite Hw. apply map_Forall_empty.
Qed.

(** ** The only file [main] creates *)

(** The paths of reports: [setPath] names them [<dir>/<base>_beststats.txt]. *)
Definition report_path (p : string) : Prop := exists pre, p = pre +:+ "_beststats.txt".

Lemma pyMatchRes_new_report (output filename : string) :
  report_path (r_fullpath (pyMatchRes_new output filename)).
Proof.
  unfold pyMatchRes_new, setPath. simpl.
  destruct (py_splitext _) as [base ext]. simpl. eexists. by rewrite !string_app_assoc.
Qed.

Lemma score_subjects_within {DO : DictOrder} (P : string -> Prop) (r : pyMatchRes)
    (found : pydict string (list string)) (M : Match) :
  P (r_fullpath r) -> preserves (writes_within P) (score_subjects r found M).
Proof.
  intros HP. unfold score_subjects, subject_body, load_comp, write_score, py_exit.
  solve_preserves. by apply addResult_within.
Qed.

Lemma main_within {DO : DictOrder} (parsed : option (list (string * string))) :
  preserves (writes_within report_path) (main parsed).
Proof.
  unfold main. solve_preserves; cbv zeta; solve_preserves;
    (apply writeHeader_within || apply score_subjects_within); apply pyMatchRes_new_report.
Qed.

(** ** The exit statuses [main] can end with *)

#[local] Hint Extern 1 (exit_code_ok _) => simpl; auto : raises.

Lemma main_exit_codes {DO : DictOrder} (parsed : option (list (string * string))) :
  raises_only exit_code_ok (main parsed).
Proof.
  unfold main, usage, opt_step, get_var, readInput, checkInput, check_sub, check_comp, mr_Data,
    score_subjects, subject_body, load_comp, write_score, addResult, writeHeader,
    py_open_write, py_plus, py_write, cannot_write, py_print, py_exit.
  solve_raises.
Qed.

(** ** The subject loop *)

Lemma load_comp_ok (w : world) (M : Match) (img : string) (d : data) :
  img <> "" -> data_of w img = Some d ->
  load_comp M img w = (Ok (addComp d M), set_stdout (app (w_stdout w) [img]) w).
Proof.
  intros Hne Hd. unfold load_comp. rewrite bool_decide_false by done.
  unfold sbind at 1, py_print, smodify. unfold stry, sbind.
  rewrite (mr_Data_ok _ _ d); [done|]. by rewrite <- Hd.
Qed.

Lemma load_all_ok (imgs : list string) (M : Match) (w : world) :
  (forall img, img ∈ imgs -> img <> "" /\ is_Some (data_of w img)) ->
  exists w', sfold imgs load_comp M w =
             (Ok (fold_left (fun M d => addComp d M) (loaded w imgs) M), w') /\
             env_of w' = env_of w /\ w_out w' = w_out w.
Proof.
  revert M w. induction imgs as [|img imgs IH]; intros M w Hall; simpl.
  - by exists w.
  - destruct (Hall img) as [Hne [d Hd]]; [set_solver|].
    unfold sbind at 1. rewrite (load_comp_ok w M img d Hne Hd).
    set (w1 := set_stdout _ w).
    destruct (IH (addComp d M) w1) as (w' & Hrun & He & Ho).
    { intros i Hi. rewrite (data_of_env w w1) by reflexivity. apply Hall. set_solver. }
    exists w'. rewrite bool_decide_false by done. rewrite Hrun, Hd, (loaded_env w w1) by reflexivity. done.
Qed.

Lemma load_comp_skip (w : world) (M : Match) : load_comp M "" w = (Ok M, w).
Proof. reflexivity. Qed.

Lemma load_comp_fail (w : world) (M : Match) (img : string) :
  img <> "" -> data_of w img = None ->
  load_comp M img w = (Raise (SystemExit None),
    set_stdout (app (w_stdout w) [img; "Problem with " +:+ img +:+ ". Exiting!"]) w).
Proof.
  intros Hne Hd. unfold load_comp. rewrite bool_decide_false by done.
  unfold sbind at 1, py_print, smodify. unfold stry, sbind.
  rewrite (mr_Data_fail _ _); [|done]. simpl. by rewrite <- app_assoc.
Qed.

Lemma load_all_fail (imgs : list string) (M : Match) (w : world) :
  (exists img, img ∈ imgs /\ img <> "" /\ data_of w img = None) ->
  exists w', sfold imgs load_comp M w = (Raise (SystemExit None), w') /\
             env_of w' = env_of w /\ w_out w' = w_out w.
Proof.
  revert M w. induction imgs as [|img imgs IH]; intros M w (bad & Hin & Hne & Hd);
    [by apply elem_of_nil in Hin|]. cbn [sfold].
  destruct (decide (img = "")) as [->|Himg].
  - unfold sbind at 1. rewrite load_comp_skip. apply IH. exists bad. split; [|done].
    apply elem_of_cons in Hin as [->|]; done.
  - destruct (data_of w img) as [d|] eqn:Ed.
    + unfold sbind at 1. rewrite (load_comp_ok w M img d Himg Ed).
      set (w1 := set_stdout _ w).
      destruct (IH (addComp d M) w1) as (w' & Hrun & He & Ho).
      { exists bad. apply elem_of_cons in Hin as [->|Hin]; [congruence|].
        by rewrite (data_of_env w w1). }
      by exists w'.
    + unfold sbind at 1. rewrite (load_comp_fail w M img Himg Ed). simpl. by eexists.
Qed.

Lemma write_scores_ok (r : pyMatchRes) (l : list (string * Z)) (w : world) :
  r_fullpath r ∉ w_unwritable w ->
  exists w', sfor l (write_score r) w = (Ok tt, w') /\ appended (r_fullpath r) (score_lines l) w w'.
Proof.
  revert w. induction l as [|[i sc] l IH]; intros w Hw; simpl.
  - exists w. split; [done|]. by apply appended_refl.
  - unfold sbind at 1, write_score, sbind at 1, py_print, smodify.
    set (w1 := set_stdout _ w).
    destruct (addResult_ok r (i +:+ tab +:+ py_str_Z sc) w1) as (w2 & Hr & Ha); [done|].
    rewrite Hr. destruct (IH w2) as (w3 & Hl & Hb).
    { destruct Ha as [He _]. rewrite (unwritable_env w1 w2 He). exact Hw. }
    exists w3. split; [done|]. eapply appended_trans; [|exact Hb].
    destruct Ha as (He & Ho & Hp). split; [by rewrite He|]. split; [exact Ho|].
    rewrite <- ?string_app_assoc in Hp. exact Hp.
Qed.

Definition report {DO : DictOrder} (d : pydict string Z) : string := score_lines (dict_iter d).

Lemma dict_iter_nil {DO : DictOrder} {K V : Type} : dict_iter (K:=K) (V:=V) [] = [].
Proof. apply Permutation_nil. symmetry. apply dict_iter_perm. Qed.

Lemma subject_body_ok {DO : DictOrder} (r : pyMatchRes) (M : Match) (sub : string)
    (imgs : list string) (w : world) :
  m_components M = [] -> r_fullpath r ∉ w_unwritable w ->
  (forall img, img ∈ imgs -> img <> "" /\ is_Some (data_of w img)) ->
  exists w', subject_body r M (sub, imgs) w = (Ok M, w') /\
    appended (r_fullpath r) (report (fresh_scores Absolute (m_indexes M) (loaded w imgs))) w w'.
Proof.
  intros Hc Hw Hall. unfold subject_body. unfold sbind at 1, py_print, smodify.
  set (w1 := set_stdout _ w).
  destruct (load_all_ok imgs M w1) as (w2 & Hl & He2 & Ho2).
  { intros i Hi. rewrite (data_of_env w w1) by done. by apply Hall. }
  unfold sbind at 1. rewrite Hl, (loaded_env w w1), add_all_eq, Hc by done. simpl.
  set (ds := loaded w imgs).
  case_bool_decide as Hlen.
  - destruct (write_scores_ok r (dict_iter (matchOverlapMatrix
        (mkMatch (m_template M) (m_crit M) (m_indexes M) ds))) w2) as (w3 & Hs & Ha).
    { rewrite (unwritable_env w1 w2 He2). exact Hw. }
    unfold sbind at 1. rewrite Hs. exists w3. split.
    + destruct M as [T c idx cs]. simpl in Hc. by subst.
    + eapply (appended_after _ _ w w2 w3); [by rewrite He2|by rewrite Ho2|exact Ha].
  - destruct ds as [|d ds']; [|simpl in Hlen; lia].
    unfold sbind, py_print, smodify. eexists. split.
    + destruct M as [T c idx cs]. simpl in Hc. by subst.
    + unfold report, fresh_scores. simpl. rewrite dict_iter_nil. apply appended_refl; [exact He2|exact Ho2].
Qed.

(** Every subject's images are named and loadable. *)
Definition loadable (w : world) (subjects : list (string * list string)) : Prop :=
  Forall (fun si => Forall (fun img => img <> "" /\ is_Some (data_of w img)) si.2) subjects.

(** Whether the subjects are loadable does not depend on their order. *)
#[export] Instance loadable_perm (w : world) : Proper ((≡ₚ) ==> iff) (loadable w).
Proof. intros l1 l2 Hp. unfold loadable. by rewrite Hp. Qed.

Lemma subjects_ok {DO : DictOrder} (r : pyMatchRes) (M : Match)
    (l : list (string * list string)) (w : world) :
  m_components M = [] -> r_fullpath r ∉ w_unwritable w -> loadable w l ->
  exists w', sfold l (subject_body r) M w = (Ok M, w') /\
    appended (r_fullpath r)
      (foldr String.append "" (map (fun si => report (fresh_scores Absolute (m_indexes M)
                                                         (loaded w si.2))) l)) w w'.
Proof.
  intros Hc. revert w. induction l as [|[sub imgs] l IH]; intros w Hw Hl; cbn [sfold foldr map].
  - exists w. split; [done|]. by apply appended_refl.
  - destruct (subject_body_ok r M sub imgs w) as (w1 & Hb & Ha); [done|done| |].
    { apply Forall_cons in Hl as [Hh _]. by apply Forall_forall. }
    unfold sbind. rewrite Hb.
    assert (He : env_of w1 = env_of w) by apply Ha.
    destruct (IH w1) as (w2 & Hr & Ha2).
    + by rewrite (unwritable_env w w1 He).
    + apply Forall_cons in Hl as [_ Hl]. eapply Forall_impl; [exact Hl|].
      intros si Hsi. eapply Forall_impl; [exact Hsi|]. intros img. by rewrite (data_of_env w w1 img He).
    + exists w2. split; [done|]. eapply appended_trans; [exact Ha|].
      replace (map (fun si => report (fresh_scores Absolute (m_indexes M) (loaded w si.2))) l)
        with (map (fun si => report (fresh_scores Absolute (m_indexes M) (loaded w1 si.2))) l);
        [exact Ha2|].
      apply map_ext. intros si. by rewrite (loaded_env w w1).
Qed.

(** C3.  The subject loop refines fresh per-subject scoring: with a
    [Match] object holding no component, run over any dict order, the
    loop returns the object as it was (its index set kept, its component
    list empty) and appends to the report exactly, subject after subject
    in iteration order, the score lines a newly built object would give
    for that subject's loadable images alone; no other file is touched. *)
Theorem score_subjects_refines (DO : DictOrder) (r : pyMatchRes)
    (found : pydict string (list string)) (M : Match) (w : world) :
  m_components M = [] -> r_fullpath r ∉ w_unwritable w -> loadable w found ->
  exists w', score_subjects r found M w = (Ok M, w') /\
    appended (r_fullpath r)
      (foldr String.append "" (map (fun si => report (fresh_scores Absolute (m_indexes M)
                                                         (loaded w si.2))) (dict_iter found))) w w'.
Proof.
  intros Hc Hw Hl. apply subjects_ok; [done|done|].
  by rewrite (dict_iter_perm found).
Qed.


(** C13.  A candidate of a subject that MRtools cannot load ends the
    subject loop by [sys.exit()] (status 0) inside its [try]: no line of
    that subject is written, and the file is left as it was. *)
Theorem subject_body_load_fail {DO : DictOrder} (r : pyMatchRes) (M : Match) (sub : string)
    (imgs : list string) (w : world) :
  (exists img, img ∈ imgs /\ img <> "" /\ data_of w img = None) ->
  exists w', subject_body r M (sub, imgs) w = (Raise (SystemExit None), w') /\
             w_out w' = w_out w.
Proof.
  intros Hbad. unfold subject_body, sbind at 1, py_print, smodify. cbv beta.
  set (w1 := set_stdout _ w).
  destruct (load_all_fail imgs M w1) as (w' & Hrun & _ & Ho).
  { destruct Hbad as (img & ? & ? & Hd). exists img. by rewrite (data_of_env w w1). }
  unfold sbind. rewrite Hrun. by exists w'.
Qed.

(** C25.  One report line: [write_score] prints ["Adding <path> <score>"]
    and appends ["<path>\t<score>\n"] to the report, or, when the report
    cannot be opened, prints ["Cannot write file <path>. Exiting"] and
    exits with status 0. *)
Theorem write_score_line (r : pyMatchRes) (i : string) (sc : Z) (w : world) :
  write_score r (i, sc) w =
  let w1 := set_stdout (app (w_stdout w) ["Adding " +:+ i +:+ " " +:+ py_str_Z sc]) w in
  if bool_decide (r_fullpath r ∈ w_unwritable w)
  then (Raise (SystemExit None),
        set_stdout (app (w_stdout w1) ["Cannot write file " +:+ r_fullpath r +:+ ". Exiting"]) w1)
  else (Ok tt, set_out (<[r_fullpath r := default "" (w_out w !! r_fullpath r) +:+
                                           (i +:+ tab +:+ py_str_Z sc +:+ nl)]> (w_out w)) w1).
Proof.
  unfold write_score, addResult, py_open_write, py_write, cannot_write, py_print, py_exit.
  unfold stry, sbind, sget, smodify, sthrow. cbn -[insert lookup].
  case_bool_decide; [reflexivity|]. cbn -[insert lookup].
  rewrite !lookup_insert_eq, !set_out_set_out. cbn -[insert].
  assert (Hs : forall a b c d e : string, (a +:+ b +:+ c +:+ d) +:+ e = a +:+ b +:+ c +:+ d +:+ e)
    by (intros; by rewrite <- !string_app_assoc).
  rewrite !out_insert_insert, Hs. reflexivity.
Qed.

(** ** The subject loop runs the session machine *)

(** The template work builds the object [sstep]'s load event names. *)
Lemma template_work_eq (T : data) :
  template_work T =
  Some (mkMatch T (Some pos_crit) (genIndexMNI (d_affine T) pos_crit (d_vol T)) []).
Proof. reflexivity. Qed.

Lemma load_comp_run (M M1 : Match) (img : string) (w w1 : world) :
  load_comp M img w = (Ok M1, w1) ->
  M1 = (if bool_decide (img = "") then M
        else match data_of w img with Some d => addComp d M | None => M end) /\
  env_of w1 = env_of w.
Proof.
  destruct (decide (img = "")) as [->|Hne].
  { rewrite load_comp_skip. by intros [= -> ->]. }
  rewrite bool_decide_false by done. destruct (data_of w img) as [d|] eqn:Ed.
  - rewrite (load_comp_ok w M img d) by done. by intros [= -> <-].
  - rewrite (load_comp_fail w M img) by done. discriminate.
Qed.

Lemma load_all_run (imgs : list string) (M M1 : Match) (w w1 : world) :
  sfold imgs load_comp M w = (Ok M1, w1) ->
  M1 = fold_left (fun M d => addComp d M) (loaded w imgs) M /\ env_of w1 = env_of w.
Proof.
  revert M w. induction imgs as [|img imgs IH]; intros M w; cbn [sfold].
  - by intros [= -> ->].
  - unfold sbind at 1. destruct (load_comp M img w) as [[M2|e] w2] eqn:E; [|discriminate].
    intros Hr. apply load_comp_run in E as [-> He]. apply IH in Hr as [-> He2].
    rewrite (loaded_env w w2 imgs He). split; [|congruence]. simpl.
    case_bool_decide; [done|]. by destruct (data_of w img).
Qed.

Lemma write_scores_env (r : pyMatchRes) (l : list (string * Z)) :
  stable env_of (sfor l (write_score r)).
Proof.
  apply stable_sfor. intros [i sc]. unfold write_score, addResult, cannot_write, py_exit.
  solve_stable.
Qed.

Lemma subject_body_steps {DO : DictOrder} (r : pyMatchRes) (M M1 : Match) (sub : string)
    (imgs : list string) (w w1 : world) (em : list (pydict string Z)) :
  m_components M = [] -> subject_body r M (sub, imgs) w = (Ok M1, w1) ->
  env_of w1 = env_of w /\ M1 = M /\
  ssteps (mkSession Loaded (Some M) em) (events_of (loaded w imgs))
         (mkSession Loaded (Some M) (em ++ emitted_of (m_indexes M) (loaded w imgs))).
Proof.
  destruct M as [T c idx cs]. simpl. intros ->.
  unfold subject_body. unfold sbind at 1, py_print, smodify. cbv beta.
  set (w0 := set_stdout _ w).
  unfold sbind at 1. destruct (sfold imgs load_comp _ w0) as [[M2|e] w2] eqn:E; [|discriminate].
  apply load_all_run in E as [-> He2]. rewrite (loaded_env w w0) by done.
  rewrite add_all_eq. simpl. unfold events_of, emitted_of.
  set (ds := loaded w imgs). case_bool_decide as Hlen.
  - unfold sbind at 1. destruct (sfor _ (write_score r) w2) as [[u|e] w3] eqn:Es; [|discriminate].
    intros [= <- <-]. pose proof (write_scores_env r (dict_iter (matchOverlapMatrix (mkMatch T c idx ds))) w2) as Hs.
    rewrite Es in Hs. simpl in Hs.
    rewrite bool_decide_false by (intros ->; simpl in Hlen; lia).
    split; [by rewrite Hs, He2|]. split; [done|].
    eapply ssteps_app; [apply ssteps_adds; [done|by intros ->; simpl in Hlen; lia]|].
    rewrite add_all_eq. simpl.
    econstructor; [apply sstep_match|]. econstructor; [apply sstep_reset; by left|].
    constructor.
  - destruct ds as [|d ds']; [|simpl in Hlen; lia].
    intros [= <- <-]. rewrite bool_decide_true by done. rewrite app_nil_r.
    split; [done|]. split; [done|]. constructor.
Qed.

Lemma subjects_steps {DO : DictOrder} (r : pyMatchRes) (M M1 : Match)
    (l : list (string * list string)) (w w1 : world) (em : list (pydict string Z)) :
  m_components M = [] -> sfold l (subject_body r) M w = (Ok M1, w1) ->
  M1 = M /\
  ssteps (mkSession Loaded (Some M) em) (flat_map (fun si => events_of (loaded w si.2)) l)
         (mkSession Loaded (Some M)
            (em ++ flat_map (fun si => emitted_of (m_indexes M) (loaded w si.2)) l)).
Proof.
  intros Hc. revert w em. induction l as [|[sub imgs] l IH]; intros w em; cbn [sfold].
  - intros [= <- _]. rewrite app_nil_r. split; [done|constructor].
  - unfold sbind at 1. destruct (subject_body r M (sub, imgs) w) as [[M2|e] w2] eqn:E;
      [|discriminate].
    apply (subject_body_steps _ _ _ _ _ _ _ em) in E as (He & -> & Hs); [|done].
    intros Hr. destruct (IH w2 (app em (emitted_of (m_indexes M) (loaded w imgs))) Hr) as [-> Hs2].
    split; [done|]. simpl. eapply ssteps_app; [exact Hs|].
    rewrite <- app_assoc in Hs2.
    replace (flat_map (fun si => events_of (loaded w si.2)) l)
      with (flat_map (fun si => events_of (loaded w2 si.2)) l)
      by (apply flat_map_ext; intros; by rewrite (loaded_env w w2)).
    replace (flat_map (fun si => emitted_of (m_indexes M) (loaded w si.2)) l)
      with (flat_map (fun si => emitted_of (m_indexes M) (loaded w2 si.2)) l)
      by (apply flat_map_ext; intros; by rewrite (loaded_env w w2)).
    exact Hs2.
Qed.

(** C18.  The subject loop drives the [Match] object along the session
    machine of spec 4.3: from the template work, each subject with
    loadable candidates adds them, is scored and reset, a subject with none
    is skipped, and the loop ends in [Loaded] with the object it started
    from; the score dicts emitted are, in subject order, the fresh scores
    of each non-empty subject's candidates. *)
Theorem score_subjects_protocol {DO : DictOrder} (r : pyMatchRes) (T : data) (M M1 : Match)
    (found : pydict string (list string)) (w w1 : world) :
  template_work T = Some M -> score_subjects r found M w = (Ok M1, w1) ->
  M1 = M /\
  ssteps session_init
    (EvLoad T :: flat_map (fun si => events_of (loaded w si.2)) (dict_iter found))
    (mkSession Loaded (Some M)
       (flat_map (fun si => emitted_of (m_indexes M) (loaded w si.2)) (dict_iter found))).
Proof.
  intros Ht Hr. pose proof Ht as Hc. rewrite template_work_eq in Hc. injection Hc as <-.
  apply (subjects_steps _ _ _ _ _ _ []) in Hr as [-> Hs]; [|done].
  split; [done|]. econstructor; [by constructor|]. exact Hs.
Qed.

(** C19.  No candidate leaks between subjects: after a subject's loop
    body, starting from an object with no component, the score dicts
    emitted name exactly that subject's non-empty, loadable image paths. *)
Theorem subject_body_no_leak {DO : DictOrder} (r : pyMatchRes) (M M1 : Match) (sub : string)
    (imgs : list string) (w w1 : world) :
  m_components M = [] -> subject_body r M (sub, imgs) w = (Ok M1, w1) ->
  exists em, ssteps (mkSession Loaded (Some M) []) (events_of (loaded w imgs))
                    (mkSession Loaded (Some M1) em) /\
    forall dct, dct ∈ em -> forall k, k ∈ dct.*1 <-> k ∈ imgs /\ k <> "" /\ is_Some (data_of w k).
Proof.
  intros Hc Hb. apply (subject_body_steps _ _ _ _ _ _ _ []) in Hb as (_ & -> & Hs); [|done].
  eexists. split; [exact Hs|]. simpl. unfold emitted_of.
  case_bool_decide; [set_solver|]. intros dct ->%list_elem_of_singleton k.
  by rewrite fresh_scores_keys, loaded_names.
Qed.

(** ** The template work: the index set *)

(** C6.  Lines 181-183 select exactly the template's voxels whose value is
    positive, as millimetre coordinates: a coordinate is in the index set
    if and only if it is the image under the template's affine of an
    in-bounds voxel with value [> 0]; the new object holds no component. *)
Theorem template_work_selects (T : data) :
  vol3_wf (d_vol T) ->
  exists M, template_work T = Some M /\ m_components M = [] /\
    forall q, In q (m_indexes M) <->
      exists p, q = to_mm (d_affine T) p /\ in_bounds (d_vol T) p = true /\
                0 < vget (d_vol T) p.
Proof.
  intros Hwf. eexists. split; [apply template_work_eq|]. split; [done|]. intros q. simpl.
  rewrite in_genIndexMNI by done. unfold crit_holds. simpl.
  setoid_rewrite bool_decide_eq_true. done.
Qed.

(** C7.  The index set [genIndexMNI] builds in one pass over the flat
    data is the nested [for i, for j, for k] loop over the voxel grid,
    filtered by [> 0] and mapped to millimetres. *)
Theorem template_work_nested_loops (T : data) (M : Match) :
  vol3_wf (d_vol T) -> template_work T = Some M ->
  m_indexes M = map (to_mm (d_affine T)) (select_ref pos_crit (d_vol T)).
Proof.
  intros Hwf Ht. rewrite template_work_eq in Ht. injection Ht as <-. simpl.
  unfold genIndexMNI. by rewrite select_flat_ref.
Qed.

(** C8.  The index set has no duplicate coordinate, and lists the
    selected voxels in strictly increasing position of the template's
    C-order data: the order is the volume's own, the same on every run. *)
Theorem template_work_ordered (T : data) (M : Match) :
  vol3_wf (d_vol T) -> template_work T = Some M ->
  NoDup (m_indexes M) /\
  StronglySorted Nat.lt (map (flat_index (d_vol T)) (select_flat pos_crit (d_vol T))) /\
  m_indexes M = map (to_mm (d_affine T)) (select_flat pos_crit (d_vol T)).
Proof.
  intros Hwf Ht. rewrite template_work_eq in Ht. injection Ht as <-. simpl.
  split; [by apply genIndexMNI_nodup|]. split; [|done].
  rewrite select_flat_positions by done. apply scan_sorted.
Qed.

(** C14.  The score [matchOverlapMatrix] records for a component added
    after the template work is the sum, over the template's in-bounds
    voxels with value [> 0] in the order of the nested loops, of the
    absolute value of the component's value at the same millimetre
    coordinate (0 off its grid or outside its volume). *)
Theorem template_work_scores (T : data) (M : Match) (ds : list data) (d : data) :
  vol3_wf (d_vol T) -> template_work T = Some M ->
  NoDup (map d_name ds) -> d ∈ ds ->
  dict_get (d_name d) (matchOverlapMatrix (fold_left (fun M d => addComp d M) ds M)) =
  Some (sumZ (map (fun p => Z.abs (lookup_mm (d_affine d) (d_vol d) (to_mm (d_affine T) p)))
                  (select_ref pos_crit (d_vol T)))).
Proof.
  intros Hwf Ht Hnd Hd. rewrite template_work_eq in Ht. injection Ht as <-.
  unfold matchOverlapMatrix, matchOverlapMatrix_mode.
  rewrite add_all_components, add_all_indexes. simpl.
  rewrite fresh_scores_get by done. unfold score_data.
  by rewrite matchOverlap_ref, overlap_genIndex_mm.
Qed.

(** C33.  Bounds on a score: against the template's index set, a
    component's absolute score is nonnegative, at least the absolute value
    of its signed score, and at most the number of positive template
    values times any bound [B] on the component's values. *)
Theorem template_work_score_bounds (T : data) (M : Match) (d : data) (B : Z) :
  template_work T = Some M -> 0 <= B -> Forall (fun z => Z.abs z <= B) (vdata (d_vol d)) ->
  0 <= score_data Absolute (m_indexes M) d /\
  Z.abs (score_data Signed (m_indexes M) d) <= score_data Absolute (m_indexes M) d /\
  score_data Absolute (m_indexes M) d <=
    Z.of_nat (length (List.filter (crit_holds pos_crit) (vdata (d_vol T)))) * B.
Proof.
  intros Ht HB Hd. rewrite template_work_eq in Ht. injection Ht as <-. unfold score_data. simpl.
  rewrite !matchOverlap_ref. split; [apply overlap_abs_nonneg|]. split; [apply overlap_abs_ge_signed|].
  etrans; [by apply overlap_abs_le|]. by rewrite genIndexMNI_length.
Qed.

(** C35.  Liveness of the session the script drives: once the template
    work has loaded [T], from every state any sequence of steps reaches,
    the object can still score any non-empty list of components afresh:
    some continuation reaches [Scored] with, as its last emitted dict, the
    scores of exactly those components against the template's index set. *)
Theorem session_always_can_score (T : data) (M : Match) (evs : list event) (s : session)
    (ds : list data) :
  template_work T = Some M -> ssteps session_init (EvLoad T :: evs) s -> ds <> [] ->
  exists evs' s', ssteps s evs' s' /\ s_phase s' = Scored /\
    last (s_emitted s') = Some (fresh_scores Absolute (m_indexes M) ds).
Proof.
  intros Ht Hs Hds. inversion Hs as [|? ? s1 ? ? Hst Hrest]; subst.
  inversion Hst as [? M1 ? Hg| | |]; subst. unfold template_work in Ht. rewrite Ht in Hg. injection Hg as <-.
  destruct (ssteps_indexes _ _ _ M Hrest eq_refl) as (M' & HM' & Hi).
  rewrite <- Hi. apply session_can_score; [|done|done].
  by apply (ssteps_active _ _ _ Hrest).
Qed.

(** C24.  Spec 8 expects the template's self score to be the largest
    among non-negatively scaled copies of the template; the code's score
    is linear in the candidate instead: against the index set the
    template work computes, a copy of a template with a positive voxel,
    every value multiplied by [k > 1], scores strictly more than the
    template itself. *)
Theorem template_work_scaled_copy (T : data) (M : Match) (k : Z) (name : string) (p : vox) :
  vol3_wf (d_vol T) -> template_work T = Some M -> 1 < k ->
  in_bounds (d_vol T) p = true -> 0 < vget (d_vol T) p ->
  score_data Absolute (m_indexes M) T <
  score_data Absolute (m_indexes M) (mkData name (d_affine T) (scale_vol k (d_vol T))).
Proof.
  intros Hwf Ht Hk Hp Hpos. rewrite template_work_eq in Ht. injection Ht as <-.
  unfold score_data. simpl. rewrite !matchOverlap_ref, overlap_scale_abs by lia.
  assert (0 < overlap_ref Absolute (d_affine T) (d_vol T) (genIndexMNI (d_affine T) pos_crit (d_vol T))).
  { rewrite overlap_genIndex by done. apply (sumZ_map_pos _ _ p).
    - intros y _. simpl. lia.
    - apply list_elem_of_In, in_select_ref. split; [done|]. simpl. by apply bool_decide_true.
    - simpl. lia. }
  nia.
Qed.

(** ** The option loop *)

(** The argument of the last option among the flags [fl], if any. *)
Definition last_opt (fl : list string) (opts : list (string * string)) : option string :=
  last (map snd (List.filter (fun oa => bool_decide (oa.1 ∈ fl)) opts)).

Lemma opt_loop_field (f : env -> option string) (fl : list string) :
  (forall e oa, f (opt_assign e oa) = if bool_decide (oa.1 ∈ fl) then Some oa.2 else f e) ->
  forall opts e, f (fold_left opt_assign opts e) =
                 match last_opt fl opts with Some a => Some a | None => f e end.
Proof.
  intros Hf opts. unfold last_opt. induction opts as [|oa opts IH]; intros e; simpl; [done|].
  rewrite IH, Hf. case_bool_decide; simpl; [|done].
  rewrite last_cons. by destruct (last _).
Qed.

Ltac opt_field := intros e [o a]; simpl; repeat case_bool_decide; simpl; set_solver.

(** C15.  After the option loop each variable holds the argument of the
    last option that sets it, in either its short or its long form, and is
    unassigned when no option sets it. *)
Theorem opt_loop_last (opts : list (string * string)) :
  e_input1 (fold_left opt_assign opts env0) = last_opt ["-t"; "--template"] opts /\
  e_input2 (fold_left opt_assign opts env0) = last_opt ["-i"; "--images"] opts /\
  e_sublist (fold_left opt_assign opts env0) = last_opt ["-s"; "--subs"] opts /\
  e_output (fold_left opt_assign opts env0) = last_opt ["-o"; "--output"] opts.
Proof.
  rewrite (opt_loop_field e_input1 ["-t"; "--template"]), (opt_loop_field e_input2 ["-i"; "--images"]),
    (opt_loop_field e_sublist ["-s"; "--subs"]), (opt_loop_field e_output ["-o"; "--output"])
    by opt_field.
  by repeat split; destruct (last_opt _ _).
Qed.

(** Options that are not [-h] only assign variables. *)
Lemma opt_loop_ok (opts : list (string * string)) (e : env) (w : world) :
  Forall (fun oa => oa.1 ∉ ["-h"; "--help"]) opts ->
  sfold opts opt_step e w = (Ok (fold_left opt_assign opts e), w).
Proof.
  intros Hh. apply sfold_pure. intros a oa Hoa. unfold opt_step.
  rewrite bool_decide_false; [done|]. by eapply Forall_forall in Hh.
Qed.

Lemma opt_loop_help (pre post : list (string * string)) (h a : string) (e : env) (w : world) :
  Forall (fun oa => oa.1 ∉ ["-h"; "--help"]) pre -> h ∈ ["-h"; "--help"] ->
  sfold (app pre ((h, a) :: post)) opt_step e w =
  (Raise (SystemExit None),
   set_stdout (app (w_stdout w) [pm_doc]) w).
Proof.
  intros Hpre Hh. rewrite sfold_app. st_run (opt_loop_ok pre e w Hpre).
  cbn [sfold]. unfold opt_step at 1. rewrite bool_decide_true by done. reflexivity.
Qed.

(** ** Early exits of [main] *)


(** C12.  An unreadable subject list ends the run by [sys.exit()]
    (status 0) after printing ["Cannot open file <path>. Exiting"]; no file
    is written. *)
Theorem main_unreadable_list (DO : DictOrder) (opts : list (string * string)) (w : world)
    (sf : string) :
  Forall (fun oa => oa.1 ∉ ["-h"; "--help"]) opts ->
  e_sublist (fold_left opt_assign opts env0) = Some sf ->
  w_texts w !! sf = None ->
  fst (main (Some opts) w) = Raise (SystemExit None) /\
  w_out (snd (main (Some opts) w)) = w_out w /\
  last (w_stdout (snd (main (Some opts) w))) = Some ("Cannot open file " +:+ sf +:+ ". Exiting").
Proof.
  intros Hh Hs Hf. unfold main. cbv beta iota. st_ret.
  st_run (opt_loop_ok opts env0 w Hh). rewrite Hs. cbn [get_var]. st_ret.
  st_run (readInput_fail sf w Hf). simpl. split; [done|]. split; [done|].
  apply last_app_pair.
Qed.

(** C16.  The first [-h] or [--help] option prints the usage and ends the
    run by [sys.exit()], status 0, before any file is read or written;
    options before it only assign variables. *)
Theorem main_help (DO : DictOrder) (pre post : list (string * string)) (h a : string) (w : world) :
  Forall (fun oa => oa.1 ∉ ["-h"; "--help"]) pre -> h ∈ ["-h"; "--help"] ->
  main (Some (app pre ((h, a) :: post))) w =
  (Raise (SystemExit None),
   set_stdout (app (w_stdout w) [pm_doc]) w).
Proof.
  intros Hpre Hh. unfold main. cbv beta iota. st_ret.
  st_run (opt_loop_help pre post h a env0 w Hpre Hh). reflexivity.
Qed.

(** The runs that get past the option loop with both lists readable. *)
Section MainRun.
Context (DO : DictOrder) (opts : list (string * string)) (w : world) (sf imf cs ci : string).
Hypothesis Hh : Forall (fun oa => oa.1 ∉ ["-h"; "--help"]) opts.
Hypothesis Hs : e_sublist (fold_left opt_assign opts env0) = Some sf.
Hypothesis Hi : e_input2 (fold_left opt_assign opts env0) = Some imf.
Hypothesis Hcs : w_texts w !! sf = Some cs.
Hypothesis Hci : w_texts w !! imf = Some ci.

Ltac main_inputs :=
  unfold main; cbv beta iota; st_ret;
  st_run (opt_loop_ok opts env0 w Hh); rewrite Hs; cbn [get_var]; st_ret;
  st_apply (readInput_ok sf cs) ltac:(exact Hcs); rewrite Hi; cbn [get_var]; st_ret;
  st_apply (readInput_ok imf ci) ltac:(exact Hci);
  match goal with |- context [sbind (checkInput ?a ?b) _ ?W] =>
    destruct (checkInput_run a b W) as (w1 & He & Ho & Hrun) end;
  match goal with Hx : env_of ?a = env_of _ |- _ => change (env_of a = env_of w) in Hx end;
  match goal with Hx : w_out ?a = w_out _ |- _ => change (w_out a = w_out w) in Hx end.

Ltac found_some Hfound :=
  match goal with Hrun : checkInput _ _ _ = _ |- _ =>
    rewrite bool_decide_false in Hrun;
    [st_run Hrun | rewrite count_zero; intros Hz; destruct Hfound as (sub & ? & ? & Hp); by apply Hp, Hz]
  end.

(** C5.  With both lists readable and no listed component present under
    any subject, [main] exits with status 32 and writes no file, before
    it reads the template. *)
Theorem main_no_input_exit32 :
  (forall sub, sub ∈ map strip_line (py_lines cs) -> sub <> "" ->
     sub_paths w sub (map strip_line (py_lines ci)) = []) ->
  exit_status (fst (main (Some opts) w)) = 32 /\ w_out (snd (main (Some opts) w)) = w_out w.
Proof.
  intros Hnone. main_inputs.
  rewrite bool_decide_true in Hrun by (apply count_zero; exact Hnone).
  st_run Hrun. split; [done|]. simpl. by rewrite Ho.
Qed.

(** C10.  A run that gets past the input checks with no [-o] option ends
    in [UnboundLocalError] on [output] at line 174, after loading the
    template and before creating the report: [output] is only assigned
    in the option loop, so the documented default (the working
    directory) is reached only by an explicit empty [-o ""]. *)
Theorem main_missing_output (tf : string) (T : data) :
  (exists sub, sub ∈ map strip_line (py_lines cs) /\ sub <> "" /\
     sub_paths w sub (map strip_line (py_lines ci)) <> []) ->
  e_input1 (fold_left opt_assign opts env0) = Some tf ->
  e_output (fold_left opt_assign opts env0) = None ->
  data_of w tf = Some T ->
  fst (main (Some opts) w) = Raise (NameError "output") /\ w_out (snd (main (Some opts) w)) = w_out w.
Proof.
  intros Hfound H1 Hout HT. main_inputs. found_some Hfound.
  rewrite H1. cbn [get_var]. st_ret.
  st_apply (fun s => mr_Data_ok s tf T) ltac:(by rewrite (data_of_env w)).
  rewrite Hout. cbn [get_var]. st_unfold. simpl. split; [done|]. by rewrite Ho.
Qed.
(** C11.  A run that gets past the input checks with a template MRtools
    cannot load (a missing file, or no usable timepoint) ends in the
    MRtools error, before creating the report. *)
Theorem main_bad_template (tf : string) :
  (exists sub, sub ∈ map strip_line (py_lines cs) /\ sub <> "" /\
     sub_paths w sub (map strip_line (py_lines ci)) <> []) ->
  e_input1 (fold_left opt_assign opts env0) = Some tf ->
  data_of w tf = None ->
  fst (main (Some opts) w) = Raise (MRtoolsError tf) /\ w_out (snd (main (Some opts) w)) = w_out w.
Proof.
  intros Hfound H1 HT. main_inputs. found_some Hfound.
  rewrite H1. cbn [get_var]. st_ret.
  st_apply (fun s => mr_Data_fail s tf) ltac:(by rewrite (data_of_env w)).
  split; [done|]. simpl. by rewrite Ho.
Qed.

(** C9.  A run that gets past the input checks with a loadable template
    and an output folder stops at [writeHeader]: the report
    [<dir>/<base>_beststats.txt] (with [<dir>] the working directory for
    an empty [-o]) is truncated to empty when writable, the last line
    printed is ["Cannot write file <path>. Exiting"], and the process
    ends by [sys.exit()], that is with status 0. *)
Theorem main_stops_at_header (tf out : string) (T : data) :
  (exists sub, sub ∈ map strip_line (py_lines cs) /\ sub <> "" /\
     sub_paths w sub (map strip_line (py_lines ci)) <> []) ->
  e_input1 (fold_left opt_assign opts env0) = Some tf ->
  e_output (fold_left opt_assign opts env0) = Some out ->
  data_of w tf = Some T ->
  let dir := if bool_decide (out = "") then w_cwd w else out in
  let path := dir +:+ "/" +:+ fst (py_splitext (py_basename (d_name T))) +:+ "_beststats.txt" in
  fst (main (Some opts) w) = Raise (SystemExit None) /\
  w_out (snd (main (Some opts) w)) =
    (if bool_decide (path ∈ w_unwritable w) then w_out w else <[path := ""]> (w_out w)) /\
  last (w_stdout (snd (main (Some opts) w))) = Some ("Cannot write file " +:+ path +:+ ". Exiting").
Proof.
  intros Hfound H1 Hout HT dir path. main_inputs. found_some Hfound.
  rewrite H1. cbn [get_var]. st_ret.
  st_apply (fun s => mr_Data_ok s tf T) ltac:(by rewrite (data_of_env w)).
  rewrite Hout. cbn [get_var]. st_ret. st_get.
  st_apply (fun s => writeHeader_list (pyMatchRes_new (if bool_decide (out = "") then w_cwd s else out) (d_name T)) [PStr (tf +:+ ":template")] s) ltac:(idtac).
  subst dir path. rewrite (cwd_env w w1 He), (unwritable_env w w1 He). unfold pyMatchRes_new, setPath. simpl.
  destruct (py_splitext _) as [base ext]. simpl. split; [done|]. split.
  - case_bool_decide; simpl; by rewrite Ho.
  - by rewrite last_snoc.
Qed.
End MainRun.

(** ** The spec's end-to-end scenario (spec 8) *)

Definition unit_scale : scale := mkScale false 1.
Definition unit_affine : diag_affine := mkDiag unit_scale unit_scale unit_scale 0 0 0.
Definition scn_vol (l : list Z) : vol3 := mkVol3 2 1 1 l.

(** Subjects [/s1] and [/s2], components [compA.nii] and [compB.nii];
    [/s1] holds only [compA.nii].  The template's first voxel is its only
    positive one; [compB.nii]'s first timepoint is empty. *)
Definition scn_world : world := mkWorld
  (<["subs.txt" := "/s1" +:+ nl +:+ "/s2" +:+ nl]>
    (<["imgs.txt" := "compA.nii" +:+ nl +:+ "compB.nii" +:+ nl]> ∅))
  {[ "/s1/compA.nii"; "/s2/compA.nii"; "/s2/compB.nii" ]}
  (<["/t/tmpl.nii.gz" := mkImage unit_affine [scn_vol [3; 0]]]>
    (<["/s1/compA.nii" := mkImage unit_affine [scn_vol [2; -5]]]>
      (<["/s2/compA.nii" := mkImage unit_affine [scn_vol [2; -5]]]>
        (<["/s2/compB.nii" := mkImage unit_affine [scn_vol [0; 0]; scn_vol [-4; 1]]]> ∅))))
  "/cwd" ∅ ∅ [].

Definition scn_opts : list (string * string) :=
  [("--template", "/t/tmpl.nii.gz"); ("--subs", "subs.txt"); ("--images", "imgs.txt");
   ("--output", "/out")].

Lemma main_writes_no_score_witness :
  w_out scn_world = ∅ /\
  ((exists e, fst (main (DO := insertion_order) (Some scn_opts) scn_world) = Raise e) /\
   map_Forall (fun _ c => c = "")
     (w_out (snd (main (DO := insertion_order) (Some scn_opts) scn_world)))).
Proof. split; [reflexivity|]. apply main_writes_no_score. reflexivity. Defined.

(** The scenario's template as MRtools loads it, the [Match] object after
    the template work, the dict [checkInput] builds and the report. *)
Definition scn_T : data := mkData "/t/tmpl.nii.gz" unit_affine (scn_vol [3; 0]).

Definition scn_M : Match :=
  mkMatch scn_T (Some pos_crit) (genIndexMNI unit_affine pos_crit (scn_vol [3; 0])) [].

Definition scn_found : pydict string (list string) :=
  [("/s1", ["/s1/compA.nii"]); ("/s2", ["/s2/compA.nii"; "/s2/compB.nii"])].

Definition scn_res : pyMatchRes := pyMatchRes_new "/out" "/t/tmpl.nii.gz".

Lemma score_subjects_refines_witness :
  m_components scn_M = [] /\ (r_fullpath scn_res ∉ w_unwritable scn_world) /\
  loadable scn_world scn_found /\
  exists w', score_subjects (DO := insertion_order) scn_res scn_found scn_M scn_world =
             (Ok scn_M, w') /\
    appended (r_fullpath scn_res)
      (foldr String.append "" (map (fun si => report (DO := insertion_order)
         (fresh_scores Absolute (m_indexes scn_M) (loaded scn_world si.2)))
         (dict_iter (DictOrder := insertion_order) scn_found))) scn_world w'.
Proof.
  assert (Hw : r_fullpath scn_res ∉ w_unwritable scn_world) by (vm_compute; set_solver).
  assert (Hl : loadable scn_world scn_found) by (apply (bool_decide_unpack _); vm_compute; exact I).
  split; [reflexivity|]. split; [exact Hw|]. split; [exact Hl|].
  apply score_subjects_refines; [reflexivity|exact Hw|exact Hl].
Defined.

Lemma template_work_selects_witness :
  vol3_wf (d_vol scn_T) /\
  exists M, template_work scn_T = Some M /\ m_components M = [] /\
    forall q, In q (m_indexes M) <->
      exists p, q = to_mm (d_affine scn_T) p /\ in_bounds (d_vol scn_T) p = true /\
                0 < vget (d_vol scn_T) p.
Proof. split; [reflexivity|]. apply template_work_selects. reflexivity. Defined.

Lemma template_work_nested_loops_witness :
  vol3_wf (d_vol scn_T) /\ template_work scn_T = Some scn_M /\
  m_indexes scn_M = map (to_mm (d_affine scn_T)) (select_ref pos_crit (d_vol scn_T)).
Proof.
  split; [reflexivity|]. split; [reflexivity|].
  apply template_work_nested_loops; reflexivity.
Defined.

Lemma template_work_ordered_witness :
  vol3_wf (d_vol scn_T) /\ template_work scn_T = Some scn_M /\
  (NoDup (m_indexes scn_M) /\
   StronglySorted Nat.lt (map (flat_index (d_vol scn_T)) (select_flat pos_crit (d_vol scn_T))) /\
   m_indexes scn_M = map (to_mm (d_affine scn_T)) (select_flat pos_crit (d_vol scn_T))).
Proof.
  split; [reflexivity|]. split; [reflexivity|].
  apply template_work_ordered; reflexivity.
Defined.

(** The scenario's lists, with none of the listed components on disk. *)
Definition scn_world_nocomp : world :=
  mkWorld (w_texts scn_world) ∅ (w_images scn_world) (w_cwd scn_world) ∅ ∅ [].

Lemma main_no_input_exit32_witness :
  exit_status (fst (main (DO := insertion_order) (Some scn_opts) scn_world_nocomp)) = 32 /\
  w_out (snd (main (DO := insertion_order) (Some scn_opts) scn_world_nocomp)) =
  w_out scn_world_nocomp.
Proof.
  apply (main_no_input_exit32 insertion_order scn_opts scn_world_nocomp "subs.txt" "imgs.txt"
           ("/s1" +:+ nl +:+ "/s2" +:+ nl) ("compA.nii" +:+ nl +:+ "compB.nii" +:+ nl)).
  - apply (bool_decide_unpack _). vm_compute. exact I.
  - reflexivity.
  - reflexivity.
  - reflexivity.
  - reflexivity.
  - apply count_zero. vm_compute. reflexivity.
Defined.

Definition scn_subs_txt : string := "/s1" +:+ nl +:+ "/s2" +:+ nl.
Definition scn_imgs_txt : string := "compA.nii" +:+ nl +:+ "compB.nii" +:+ nl.

Lemma main_stops_at_header_witness :
  let dir := if bool_decide ("/out" = "") then w_cwd scn_world else "/out" in
  let path := dir +:+ "/" +:+ fst (py_splitext (py_basename (d_name scn_T))) +:+ "_beststats.txt" in
  fst (main (DO := insertion_order) (Some scn_opts) scn_world) = Raise (SystemExit None) /\
  w_out (snd (main (DO := insertion_order) (Some scn_opts) scn_world)) =
    (if bool_decide (path ∈ w_unwritable scn_world) then w_out scn_world
     else <[path := ""]> (w_out scn_world)) /\
  last (w_stdout (snd (main (DO := insertion_order) (Some scn_opts) scn_world))) =
    Some ("Cannot write file " +:+ path +:+ ". Exiting").
Proof.
  apply (main_stops_at_header insertion_order scn_opts scn_world "subs.txt" "imgs.txt"
           scn_subs_txt scn_imgs_txt) with (tf := "/t/tmpl.nii.gz") (out := "/out") (T := scn_T).
  - apply (bool_decide_unpack _). vm_compute. exact I.
  - reflexivity.
  - reflexivity.
  - reflexivity.
  - reflexivity.
  - exists "/s1". apply (bool_decide_unpack _). vm_compute. exact I.
  - reflexivity.
  - reflexivity.
  - reflexivity.
Defined.

(** The scenario's options without [-o]. *)
Definition scn_opts_noout : list (string * string) :=
  [("--template", "/t/tmpl.nii.gz"); ("--subs", "subs.txt"); ("--images", "imgs.txt")].

Lemma main_missing_output_witness :
  fst (main (DO := insertion_order) (Some scn_opts_noout) scn_world) = Raise (NameError "output") /\
  w_out (snd (main (DO := insertion_order) (Some scn_opts_noout) scn_world)) = w_out scn_world.
Proof.
  apply (main_missing_output insertion_order scn_opts_noout scn_world "subs.txt" "imgs.txt"
           scn_subs_txt scn_imgs_txt) with (tf := "/t/tmpl.nii.gz") (T := scn_T).
  - apply (bool_decide_unpack _). vm_compute. exact I.
  - reflexivity.
  - reflexivity.
  - reflexivity.
  - reflexivity.
  - exists "/s1". apply (bool_decide_unpack _). vm_compute. exact I.
  - reflexivity.
  - reflexivity.
  - reflexivity.
Defined.

(** The scenario with an all-zero single-timepoint template. *)
Definition scn_world_empty_tmpl : world :=
  mkWorld (w_texts scn_world) (w_isfile scn_world)
    (<["/t/tmpl.nii.gz" := mkImage unit_affine [scn_vol [0; 0]]]> (w_images scn_world))
    (w_cwd scn_world) ∅ ∅ [].

Lemma main_bad_template_witness :
  fst (main (DO := insertion_order) (Some scn_opts) scn_world_empty_tmpl) =
    Raise (MRtoolsError "/t/tmpl.nii.gz") /\
  w_out (snd (main (DO := insertion_order) (Some scn_opts) scn_world_empty_tmpl)) =
    w_out scn_world_empty_tmpl.
Proof.
  apply (main_bad_template insertion_order scn_opts scn_world_empty_tmpl "subs.txt" "imgs.txt"
           scn_subs_txt scn_imgs_txt) with (tf := "/t/tmpl.nii.gz").
  - apply (bool_decide_unpack _). vm_compute. exact I.
  - reflexivity.
  - reflexivity.
  - reflexivity.
  - reflexivity.
  - exists "/s1". apply (bool_decide_unpack _). vm_compute. exact I.
  - reflexivity.
  - reflexivity.
Defined.

(** The scenario without its subject list. *)
Definition scn_world_nosubs : world :=
  mkWorld (delete "subs.txt" (w_texts scn_world)) (w_isfile scn_world) (w_images scn_world)
    (w_cwd scn_world) ∅ ∅ [].

Lemma main_unreadable_list_witness :
  fst (main (DO := insertion_order) (Some scn_opts) scn_world_nosubs) = Raise (SystemExit None) /\
  w_out (snd (main (DO := insertion_order) (Some scn_opts) scn_world_nosubs)) = w_out scn_world_nosubs /\
  last (w_stdout (snd (main (DO := insertion_order) (Some scn_opts) scn_world_nosubs))) =
    Some ("Cannot open file " +:+ "subs.txt" +:+ ". Exiting").
Proof.
  apply main_unreadable_list.
  - apply (bool_decide_unpack _). vm_compute. exact I.
  - reflexivity.
  - reflexivity.
Defined.

Lemma subject_body_load_fail_witness :
  exists w', subject_body (DO := insertion_order) scn_res scn_M ("/s1", ["/s1/compA.nii"; "/s1/missing.nii"]) scn_world =
    (Raise (SystemExit None), w') /\ w_out w' = w_out scn_world.
Proof.
  apply subject_body_load_fail. exists "/s1/missing.nii".
  split; [set_solver|]. split; [done|]. reflexivity.
Defined.

(** The scenario's components as MRtools loads them. *)
Definition scn_compA1 : data := mkData "/s1/compA.nii" unit_affine (scn_vol [2; -5]).

Lemma template_work_scores_witness :
  dict_get (d_name scn_compA1)
    (matchOverlapMatrix (fold_left (fun M d => addComp d M) [scn_compA1] scn_M)) =
  Some (sumZ (map (fun p => Z.abs (lookup_mm (d_affine scn_compA1) (d_vol scn_compA1)
                                     (to_mm (d_affine scn_T) p)))
                  (select_ref pos_crit (d_vol scn_T)))) /\
  dict_get (d_name scn_compA1)
    (matchOverlapMatrix (fold_left (fun M d => addComp d M) [scn_compA1] scn_M)) = Some 2.
Proof.
  split; [|vm_compute; reflexivity].
  apply template_work_scores; [reflexivity|reflexivity| |set_solver].
  apply NoDup_singleton.
Defined.

Lemma main_help_witness :
  main (DO := insertion_order) (Some (app [("--template", "/t/tmpl.nii.gz")] [("-h", "")])) scn_world =
  (Raise (SystemExit None),
   set_stdout (app (w_stdout scn_world) [pm_doc])
     scn_world).
Proof.
  apply main_help.
  - apply (bool_decide_unpack _). vm_compute. exact I.
  - set_solver.
Defined.

Lemma score_subjects_protocol_witness :
  scn_M = scn_M /\
  ssteps session_init
    (EvLoad scn_T :: flat_map (fun si => events_of (loaded scn_world si.2))
                       (dict_iter (DictOrder := insertion_order) scn_found))
    (mkSession Loaded (Some scn_M)
       (flat_map (fun si => emitted_of (m_indexes scn_M) (loaded scn_world si.2))
          (dict_iter (DictOrder := insertion_order) scn_found))).
Proof.
  apply (score_subjects_protocol (DO := insertion_order) scn_res scn_T scn_M scn_M scn_found
           scn_world (snd (score_subjects (DO := insertion_order) scn_res scn_found scn_M scn_world))).
  - reflexivity.
  - vm_compute. reflexivity.
Defined.

Lemma subject_body_no_leak_witness :
  exists em, ssteps (mkSession Loaded (Some scn_M) [])
                    (events_of (loaded scn_world ["/s2/compA.nii"; "/s2/compB.nii"]))
                    (mkSession Loaded (Some scn_M) em) /\
    forall dct, dct ∈ em -> forall k, k ∈ dct.*1 <->
      k ∈ ["/s2/compA.nii"; "/s2/compB.nii"] /\ k <> "" /\ is_Some (data_of scn_world k).
Proof.
  apply (subject_body_no_leak (DO := insertion_order) scn_res scn_M scn_M "/s2"
           ["/s2/compA.nii"; "/s2/compB.nii"] scn_world
           (snd (subject_body (DO := insertion_order) scn_res scn_M
                   ("/s2", ["/s2/compA.nii"; "/s2/compB.nii"]) scn_world))).
  - reflexivity.
  - vm_compute. reflexivity.
Defined.

Lemma readInput_roundtrip_witness :
  readInput "subs.txt" scn_world =
  (Ok ["/s1"; "/s2"], set_stdout (app (w_stdout scn_world) ["Reading input file " +:+ "subs.txt"])
                        scn_world).
Proof.
  apply readInput_roundtrip.
  - repeat constructor.
  - reflexivity.
Defined.

Lemma readInput_clean_witness :
  readInput "imgs.txt" scn_world =
  (Ok ["compA.nii"; "compB.nii"],
   set_stdout (app (w_stdout scn_world) ["Reading input file " +:+ "imgs.txt"]) scn_world) /\
  Forall (fun s => has_char "010"%char s = false /\ py_rstrip s = s) ["compA.nii"; "compB.nii"].
Proof.
  assert (H : readInput "imgs.txt" scn_world =
    (Ok ["compA.nii"; "compB.nii"],
     set_stdout (app (w_stdout scn_world) ["Reading input file " +:+ "imgs.txt"]) scn_world))
    by (vm_compute; reflexivity).
  split; [exact H|]. exact (readInput_clean _ _ _ _ H).
Defined.

Lemma checkInput_found_witness :
  let found := scn_found in
  (forall sub, sub ∈ found.*1 <-> sub ∈ ["/s1"; "/s2"] /\ sub <> "") /\ NoDup found.*1 /\
  (forall sub, sub ∈ ["/s1"; "/s2"] -> sub <> "" ->
     dict_get sub found = Some (sub_paths scn_world sub ["compA.nii"; "compB.nii"])) /\
  (forall sub ps p, dict_get sub found = Some ps ->
     p ∈ ps <-> p ∈ w_isfile scn_world /\
               exists comp, comp ∈ ["compA.nii"; "compB.nii"] /\ p = sub +:+ "/" +:+ comp).
Proof.
  apply (checkInput_found ["/s1"; "/s2"] ["compA.nii"; "compB.nii"] scn_world
           (snd (checkInput ["/s1"; "/s2"] ["compA.nii"; "compB.nii"] scn_world))).
  vm_compute. reflexivity.
Defined.

Lemma template_work_scaled_copy_witness :
  score_data Absolute (m_indexes scn_M) scn_T <
  score_data Absolute (m_indexes scn_M) (mkData "/s1/copy.nii" unit_affine (scale_vol 2 (scn_vol [3; 0]))) /\
  score_data Absolute (m_indexes scn_M) scn_T = 3.
Proof.
  split; [|vm_compute; reflexivity].
  apply (template_work_scaled_copy scn_T scn_M 2 "/s1/copy.nii" (0, 0, 0));
    [reflexivity|reflexivity|lia|reflexivity|vm_compute; reflexivity].
Defined.

Lemma template_work_score_bounds_witness :
  template_work scn_T = Some scn_M /\
  0 <= score_data Absolute (m_indexes scn_M) scn_compA1 /\
  Z.abs (score_data Signed (m_indexes scn_M) scn_compA1) <= score_data Absolute (m_indexes scn_M) scn_compA1 /\
  score_data Absolute (m_indexes scn_M) scn_compA1 <=
    Z.of_nat (length (List.filter (crit_holds pos_crit) (vdata (d_vol scn_T)))) * 5.
Proof.
  split; [reflexivity|].
  apply (template_work_score_bounds scn_T scn_M scn_compA1 5); [reflexivity|lia|].
  repeat constructor; simpl; lia.
Defined.

Lemma session_always_can_score_witness :
  template_work scn_T = Some scn_M /\
  ssteps session_init [EvLoad scn_T] (mkSession Loaded (Some scn_M) []) /\
  [scn_compA1] <> [] /\
  exists evs' s', ssteps (mkSession Loaded (Some scn_M) []) evs' s' /\ s_phase s' = Scored /\
    last (s_emitted s') = Some (fresh_scores Absolute (m_indexes scn_M) [scn_compA1]).
Proof.
  assert (Ht : template_work scn_T = Some scn_M) by reflexivity.
  assert (Hs : ssteps session_init [EvLoad scn_T] (mkSession Loaded (Some scn_M) [])).
  { econstructor; [constructor; exact Ht|constructor]. }
  split; [exact Ht|]. split; [exact Hs|]. split; [done|].
  exact (session_always_can_score scn_T scn_M [] _ [scn_compA1] Ht Hs ltac:(done)).
Defined.
