(* ===== verification/Cli.v ===== *)
(** * The command line: lines 141-146 and 268-269

    [parse_args] is the [try] of [main]: the call of [getopt.getopt]
    (modelled in [Getopt]) with the script's option strings, [None]
    standing for the [GetoptError] the [except] catches; [script] is the
    entry point [main(sys.argv[1:])].  The theorems: a value option
    left without its value (C17), the round trip of a command line of
    short value options (C26), an unknown option (C27), parsing that
    stops at the first operand (C28), a command line without [-s] (C29),
    every long spelling of the value options (C30), the exit statuses
    the script can end with (C31), and the report as the only file it
    creates (C36). *)

From S2P Require Import Prelude PyLib Getopt Volume IndexSelector Scorer MatchSession PyIO PyMatch.
From Stdlib Require Import Ascii.

Local Open Scope string_scope.
Local Open Scope mr_scope.

Definition pm_shortopts : string := "ht:s:i:o:".
Definition pm_longopts : list string := ["help"; "template="; "subs="; "images="; "output="].

(** Lines 141-146: [getopt.getopt(argv, ...)]; [None] is the [GetoptError]
    the [except] catches ([main] then prints the usage and exits 2). *)
Definition parse_args (argv : list string) : option (list (string * string)) :=
  match getopt argv pm_shortopts pm_longopts with
  | inr (opts, _) => Some opts
  | inl _ => None
  end.

(** Lines 268-269: [main(sys.argv[1:])]. *)
Definition script {DO : DictOrder} (argv : list string) : PY unit := main (parse_args argv).

(** A command line of short options each followed by its value. *)
Definition render_short (vals : list (ascii * string)) : list string :=
  flat_map (fun cv => ["-" +:+ String cv.1 ""; cv.2]) vals.

Definition short_opts_of (vals : list (ascii * string)) : list (string * string) :=
  map (fun cv => ("-" +:+ String cv.1 "", cv.2)) vals.

(** The four options that take a value. *)
Definition value_flags : list ascii := ["t"; "s"; "i"; "o"]%char.

(** A long option taking a value, as a user may write it: the first
    [li_len] characters of its name (a unique prefix, or the whole name),
    then the value, attached by ['='] ([--temp=v]) or as the next argument
    ([--temp v]). *)
Record long_item : Type := LongItem {
  li_name : string;
  li_len : nat;
  li_value : string;
  li_attached : bool
}.

(** The long names of the four options that take a value. *)
Definition long_value_names : list string := ["template"; "subs"; "images"; "output"].

Definition render_long_item (it : long_item) : list string :=
  let p := String.substring 0 (li_len it) (li_name it) in
  if li_attached it then ["--" +:+ p +:+ "=" +:+ li_value it] else ["--" +:+ p; li_value it].

Definition render_long (items : list long_item) : list string := flat_map render_long_item items.

Definition long_opts_of (items : list long_item) : list (string * string) :=
  map (fun it => ("--" +:+ li_name it, li_value it)) items.

Definition long_ok (it : long_item) : Prop := li_name it ∈ long_value_names /\ (0 < li_len it)%nat.

Lemma getopt_loop_short (c : ascii) (v : string) (rest : list string) (fuel : nat)
    (opts : list (string * string)) :
  c ∈ value_flags ->
  getopt_loop (S fuel) pm_shortopts pm_longopts opts (("-" +:+ String c "") :: v :: rest) =
  getopt_loop fuel pm_shortopts pm_longopts (app opts [("-" +:+ String c "", v)]) rest.
Proof.
  unfold value_flags. intros Hc. repeat (apply elem_of_cons in Hc as [->|Hc]; [reflexivity|]).
  by apply elem_of_nil in Hc.
Qed.

Lemma getopt_loop_render (vals : list (ascii * string)) (tail : list string) (fuel : nat)
    (opts : list (string * string)) :
  Forall (fun cv => cv.1 ∈ value_flags) vals -> (length vals <= fuel)%nat ->
  getopt_loop fuel pm_shortopts pm_longopts opts (app (render_short vals) tail) =
  getopt_loop (fuel - length vals) pm_shortopts pm_longopts
    (app opts (short_opts_of vals)) tail.
Proof.
  revert fuel opts. induction vals as [|[c v] vals IH]; intros fuel opts Hf Hl.
  - simpl. by rewrite app_nil_r, Nat.sub_0_r.
  - apply Forall_cons in Hf as [Hc Hf]. simpl in Hl.
    destruct fuel as [|fuel]; [lia|]. simpl render_short. simpl app.
    rewrite getopt_loop_short by done. rewrite IH by (done || lia).
    by rewrite <- app_assoc.
Qed.

Lemma render_short_length (vals : list (ascii * string)) :
  length (render_short vals) = (2 * length vals)%nat.
Proof. induction vals as [|cv vals IH]; simpl; [done|]. rewrite IH. lia. Qed.

Lemma getopt_loop_nil (fuel : nat) (so : string) (lo : list string) (opts : go_opts) :
  getopt_loop fuel so lo opts [] = inr (opts, []).
Proof. by destruct fuel. Qed.

(** Every non-empty prefix of a long value name is a unique prefix:
    the names start with distinct letters. *)
Lemma long_prefix_ok (n : string) (k : nat) :
  n ∈ long_value_names -> (0 < k)%nat ->
  str_index "=" (String.substring 0 k n) = None /\
  long_has_args (String.substring 0 k n) pm_longopts = inr (true, n).
Proof.
  unfold long_value_names. intros Hn Hk.
  repeat (apply elem_of_cons in Hn as [->|Hn]; [
    do 9 (destruct k as [|k]; [lia || (split; vm_compute; reflexivity)|]);
    split; vm_compute; reflexivity|]).
  by apply elem_of_nil in Hn.
Qed.

Lemma long_has_args_nonempty (p n : string) :
  long_has_args p pm_longopts = inr (true, n) -> p <> "".
Proof. by intros Hl ->. Qed.

Lemma getopt_loop_render_long (items : list long_item) (tail : list string) (fuel : nat)
    (opts : list (string * string)) :
  Forall long_ok items -> (length items <= fuel)%nat ->
  getopt_loop fuel pm_shortopts pm_longopts opts (app (render_long items) tail) =
  getopt_loop (fuel - length items) pm_shortopts pm_longopts (app opts (long_opts_of items)) tail.
Proof.
  revert fuel opts. induction items as [|[n k v att] items IH]; intros fuel opts Hf Hl.
  - simpl. by rewrite app_nil_r, Nat.sub_0_r.
  - apply Forall_cons in Hf as [[Hn Hk] Hf]. simpl in Hn, Hk, Hl.
    destruct (long_prefix_ok n k Hn Hk) as [Hi Hla].
    destruct fuel as [|fuel]; [lia|]. cbn [render_long flat_map render_long_item li_len li_name
      li_value li_attached].
    destruct att; rewrite <- app_assoc; simpl app.
    + rewrite getopt_loop_long by (by destruct (String.substring 0 k n)).
      rewrite (do_longs_attached _ _ n v _ _ Hi Hla), IH by (done || lia).
      by rewrite <- app_assoc.
    + rewrite getopt_loop_long by (by eapply long_has_args_nonempty).
      rewrite (do_longs_separate _ _ n v _ _ Hi Hla), IH by (done || lia).
      by rewrite <- app_assoc.
Qed.

Lemma render_long_length (items : list long_item) : (length items <= length (render_long items))%nat.
Proof.
  unfold render_long. induction items as [|it items IH]; [simpl; lia|].
  cbn [flat_map]. rewrite length_app.
  assert (1 <= length (render_long_item it))%nat
    by (unfold render_long_item; destruct (li_attached it); simpl; lia).
  change (length (it :: items)) with (S (length items)). lia.
Qed.

(** C30.  Every spelling [getopt] accepts for the four value options —
    any non-empty prefix of the long name (all are unique), the value
    attached by ['='] or given as the next argument — parses to the full
    option name with that value, in order. *)
Theorem parse_args_long_roundtrip (items : list long_item) :
  Forall long_ok items ->
  parse_args (render_long items) = Some (long_opts_of items).
Proof.
  intros Hf. unfold parse_args, getopt.
  rewrite <- (app_nil_r (render_long items)), getopt_loop_render_long
    by (done || (rewrite length_app; pose proof (render_long_length items); lia)).
  by rewrite getopt_loop_nil.
Qed.

(** C26.  A command line of value options [-t], [-s], [-i], [-o], each
    followed by its value (whatever that value looks like), parses back
    to exactly those options, in order. *)
Theorem parse_args_roundtrip (vals : list (ascii * string)) :
  Forall (fun cv => cv.1 ∈ value_flags) vals ->
  parse_args (render_short vals) = Some (short_opts_of vals).
Proof.
  intros Hf. unfold parse_args, getopt.
  rewrite <- (app_nil_r (render_short vals)), getopt_loop_render
    by (done || (rewrite length_app, render_short_length; lia)).
  by rewrite getopt_loop_nil.
Qed.

Lemma short_has_arg_unknown (c : ascii) :
  c ∉ ["h"; "t"; "s"; "i"; "o"]%char ->
  short_has_arg c pm_shortopts =
  inl (GetoptError ("option -" +:+ String c "" +:+ " not recognized") (String c "")).
Proof.
  intros Hc. unfold pm_shortopts. simpl. rewrite ?andb_false_r, ?andb_true_r.
  by rewrite !bool_decide_false by set_solver.
Qed.

(** How [getopt] reads an argument ["-c"] whose [c] is not ['-']. *)
Lemma getopt_loop_dash (c : ascii) (rest : list string) (fuel : nat) (so : string)
    (lo : list string) (opts : go_opts) :
  c <> "-"%char ->
  getopt_loop (S fuel) so lo opts (("-" +:+ String c "") :: rest) =
  match do_shorts opts (String c "") so rest with
  | inl e => inl e
  | inr (opts', args') => getopt_loop fuel so lo opts' args'
  end.
Proof.
  intros Hc. cbn [getopt_loop].
  replace (startswith "-" ("-" +:+ String c "")) with true by reflexivity.
  replace (String.eqb ("-" +:+ String c "") "-") with false by reflexivity.
  replace (String.eqb ("-" +:+ String c "") "--") with false
    by (symmetry; apply String.eqb_neq; intros [= Hm]; by apply Hc).
  replace (startswith "--" ("-" +:+ String c "")) with false
    by (unfold startswith; change ("-" +:+ String c "") with (String "-" (String c "")); cbn [String.prefix]; destruct (ascii_dec "-" "-"); [|done]; destruct (ascii_dec "-" c) as [<-|]; [congruence|reflexivity]).
  reflexivity.
Qed.

(** C17.  A value option left without its value at the end of the
    command line ([-t], [-s], [-i] or [-o] as the last argument, after any
    complete value options) makes [getopt] raise "option -c requires
    argument": the script prints the usage and exits with status 2,
    touching no file. *)
Theorem script_missing_value {DO : DictOrder} (vals : list (ascii * string)) (c : ascii)
    (w : world) :
  Forall (fun cv => cv.1 ∈ value_flags) vals -> c ∈ value_flags ->
  script (app (render_short vals) ["-" +:+ String c ""]) w =
  (Raise (SystemExit (Some 2)), set_stdout (app (w_stdout w) [pm_doc]) w).
Proof.
  intros Hf Hc. unfold script, parse_args, getopt.
  rewrite getopt_loop_render by (done || (rewrite length_app, render_short_length; simpl; lia)).
  replace (length (app (render_short vals) ["-" +:+ String c ""]) - length vals)%nat
    with (S (length vals)) by (rewrite length_app, render_short_length; simpl; lia).
  unfold value_flags in Hc.
  repeat (apply elem_of_cons in Hc as [->|Hc]; [reflexivity|]). by apply elem_of_nil in Hc.
Qed.

(** C27.  An unknown short option as the first argument makes [getopt]
    raise [GetoptError]: the run prints the usage and exits with status 2,
    touching no file. *)
Theorem script_unknown_option {DO : DictOrder} (c : ascii) (rest : list string) (w : world) :
  c ∉ ["h"; "t"; "s"; "i"; "o"; "-"]%char ->
  script (("-" +:+ String c "") :: rest) w =
  (Raise (SystemExit (Some 2)),
   set_stdout (app (w_stdout w) [pm_doc]) w).
Proof.
  intros Hc. unfold script, parse_args, getopt. simpl length.
  rewrite getopt_loop_dash by set_solver. cbn [do_shorts].
  rewrite short_has_arg_unknown by set_solver. reflexivity.
Qed.

(** C28.  [getopt] stops at the first argument that does not start with
    ['-']: the options after it are returned as operands, which [main]
    ignores. *)
Theorem parse_args_stops_at_operand (vals : list (ascii * string)) (p : string)
    (rest : list string) :
  Forall (fun cv => cv.1 ∈ value_flags) vals -> startswith "-" p = false ->
  parse_args (app (render_short vals) (p :: rest)) = Some (short_opts_of vals).
Proof.
  intros Hf Hp. unfold parse_args, getopt.
  rewrite getopt_loop_render by (done || (rewrite length_app, render_short_length; simpl; lia)).
  destruct (length (app (render_short vals) (p :: rest)) - length vals)%nat eqn:E.
  - rewrite length_app, render_short_length in E. simpl in E. lia.
  - cbn [getopt_loop]. by rewrite Hp.
Qed.

Lemma last_opt_none (fl : list string) (opts : list (string * string)) :
  Forall (fun oa => oa.1 ∉ fl) opts -> last_opt fl opts = None.
Proof.
  unfold last_opt. induction 1 as [|oa opts Hoa _ IH]; [done|]. simpl.
  by rewrite bool_decide_false.
Qed.

(** C29.  A command line whose parsed options set no [-s]/[--subs] (and
    ask no help), for instance because an operand came before [-s],
    ends the script in [UnboundLocalError] on [sublist] before anything
    is printed, read or written. *)
Theorem script_missing_subs {DO : DictOrder} (argv : list string) (opts : list (string * string))
    (w : world) :
  parse_args argv = Some opts ->
  Forall (fun oa => oa.1 ∉ ["-h"; "--help"; "-s"; "--subs"]) opts ->
  script argv w = (Raise (NameError "sublist"), w).
Proof.
  intros Hp Hf. unfold script. rewrite Hp. unfold main. cbv beta iota. st_ret.
  st_run (opt_loop_ok opts env0 w ltac:(eapply Forall_impl; [exact Hf|]; set_solver)).
  rewrite (opt_loop_field e_sublist ["-s"; "--subs"]) by opt_field.
  rewrite last_opt_none; [reflexivity|]. eapply Forall_impl; [exact Hf|]. set_solver.
Qed.

(** C31.  Whatever the command line and the files, the script ends with
    exit status 0 (normal end or [sys.exit()]), 1 (an uncaught
    exception), 2 (a usage error) or 32 (no component file found). *)
Theorem script_exit_status {DO : DictOrder} (argv : list string) (w : world) :
  exit_status (fst (script argv w)) ∈ [0; 1; 2; 32].
Proof.
  unfold script. pose proof (main_exit_codes (parse_args argv) w) as H.
  destruct (fst (main (parse_args argv) w)) as [[]|[[n|]| | | | |]]; simpl; try set_solver.
Qed.

(** C36.  Whatever the command line and the world, every file the
    script leaves written was written before it ran or is a report,
    whose name ends in [_beststats.txt]: no other file, in particular no
    [_bestcomps.txt], is ever created. *)
Theorem script_writes_only_report {DO : DictOrder} (argv : list string) (w : world) (p : string) :
  is_Some (w_out (snd (script argv w)) !! p) -> is_Some (w_out w !! p) \/ report_path p.
Proof. apply main_within. Qed.

Lemma parse_args_roundtrip_witness :
  parse_args (render_short [("t"%char, "/t/tmpl.nii.gz"); ("o"%char, "-out")]) =
  Some (short_opts_of [("t"%char, "/t/tmpl.nii.gz"); ("o"%char, "-out")]).
Proof. apply parse_args_roundtrip. repeat constructor; set_solver. Defined.

Lemma script_unknown_option_witness :
  script (DO := insertion_order) (("-" +:+ String "x" "") :: ["-t"; "/t/tmpl.nii.gz"]) scn_world =
  (Raise (SystemExit (Some 2)),
   set_stdout (app (w_stdout scn_world) [pm_doc])
     scn_world).
Proof. apply script_unknown_option. set_solver. Defined.

Lemma parse_args_stops_at_operand_witness :
  parse_args (app (render_short [("t"%char, "/t/tmpl.nii.gz")]) ("extra" :: ["-s"; "subs.txt"])) =
  Some (short_opts_of [("t"%char, "/t/tmpl.nii.gz")]).
Proof. apply parse_args_stops_at_operand; [repeat constructor; set_solver|reflexivity]. Defined.

(** Unique prefixes of long names, [--name=value] and values
    attached to short options are read as the full options: this command
    line runs exactly as the scenario's options. *)
Example script_prefix_forms :
  script (DO := insertion_order)
    ["--temp=/t/tmpl.nii.gz"; "--su"; "subs.txt"; "-iimgs.txt"; "--output"; "/out"] scn_world =
  main (DO := insertion_order) (Some scn_opts) scn_world.
Proof. vm_compute. reflexivity. Qed.

(** The scenario's command line, in its short form. *)
Definition scn_argv : list string := ["-t"; "/t/tmpl.nii.gz"; "-s"; "subs.txt"; "-i"; "imgs.txt"; "-o"; "/out"].

Lemma script_writes_only_report_witness :
  is_Some (w_out (snd (script (DO := insertion_order) scn_argv scn_world)) !! "/out/tmpl.nii_beststats.txt") /\
  (is_Some (w_out scn_world !! "/out/tmpl.nii_beststats.txt") \/ report_path "/out/tmpl.nii_beststats.txt").
Proof.
  assert (H : is_Some (w_out (snd (script (DO := insertion_order) scn_argv scn_world))
                         !! "/out/tmpl.nii_beststats.txt")) by (vm_compute; eauto).
  split; [exact H|]. exact (script_writes_only_report scn_argv scn_world _ H).
Defined.

Lemma parse_args_long_roundtrip_witness :
  Forall long_ok [LongItem "template" 4 "/t/tmpl.nii.gz" true; LongItem "subs" 2 "subs.txt" false;
                  LongItem "output" 6 "/out" false] /\
  parse_args (render_long [LongItem "template" 4 "/t/tmpl.nii.gz" true;
                           LongItem "subs" 2 "subs.txt" false; LongItem "output" 6 "/out" false]) =
  Some (long_opts_of [LongItem "template" 4 "/t/tmpl.nii.gz" true;
                      LongItem "subs" 2 "subs.txt" false; LongItem "output" 6 "/out" false]).
Proof.
  assert (H : Forall long_ok [LongItem "template" 4 "/t/tmpl.nii.gz" true;
    LongItem "subs" 2 "subs.txt" false; LongItem "output" 6 "/out" false]).
  { repeat constructor; simpl; (set_solver || lia). }
  split; [exact H|]. exact (parse_args_long_roundtrip _ H).
Defined.

Lemma script_missing_subs_witness :
  parse_args ["-t"; "/t/tmpl.nii.gz"; "extra"; "-s"; "subs.txt"] = Some [("-t", "/t/tmpl.nii.gz")] /\
  Forall (fun oa => oa.1 ∉ ["-h"; "--help"; "-s"; "--subs"]) [("-t", "/t/tmpl.nii.gz")] /\
  script (DO := insertion_order) ["-t"; "/t/tmpl.nii.gz"; "extra"; "-s"; "subs.txt"] scn_world =
  (Raise (NameError "sublist"), scn_world).
Proof.
  assert (Hp : parse_args ["-t"; "/t/tmpl.nii.gz"; "extra"; "-s"; "subs.txt"] =
               Some [("-t", "/t/tmpl.nii.gz")]) by reflexivity.
  assert (Hf : Forall (fun oa => oa.1 ∉ ["-h"; "--help"; "-s"; "--subs"]) [("-t", "/t/tmpl.nii.gz")])
    by (repeat constructor; simpl; set_solver).
  split; [exact Hp|]. split; [exact Hf|]. exact (script_missing_subs _ _ scn_world Hp Hf).
Defined.

Lemma script_missing_value_witness :
  script (DO := insertion_order) (app (render_short [("t"%char, "/t/tmpl.nii.gz")]) ["-" +:+ String "s" ""])
    scn_world =
  (Raise (SystemExit (Some 2)), set_stdout (app (w_stdout scn_world) [pm_doc]) scn_world).
Proof. apply script_missing_value; [repeat constructor; set_solver|set_solver]. Defined.
